(** * Relayer swap-and-bridge parameter construction: model and properties

    A shallow embedding of the relayer's core modules
    ([relayer.core.utils], [tokens], [quotes], [swap], [bridge],
    [validation]) together with the parts of the Python runtime they
    lean on: exceptions, [int(s, 16)], [bytes.fromhex], [bytes.hex] and
    the [decimal] module under its default context. *)

From stdpp Require Import base option list gmap strings pretty.
From Stdlib Require Import ZArith Lia Ascii String Sorted.
From Stdlib.Strings Require Import Byte.

Local Open Scope string_scope.
Local Open Scope Z_scope.

(** ** Python exceptions and results *)

Inductive ExcClass :=
  | ValueError | TypeError | KeyError | IndexError | AttributeError
  | ConnectionError | ConfigError | RequestException
  | OverflowError
  | InvalidOperation | Overflow.

(** An exception object: its class, [str(exc)], and the exception it
    was raised [from], if any. *)
Inductive PyExc :=
  | Exc (cls : ExcClass) (msg : string)
  | ExcFrom (cls : ExcClass) (msg : string) (cause : PyExc).

Definition exc_class (e : PyExc) : ExcClass :=
  match e with Exc c _ | ExcFrom c _ _ => c end.

Definition exc_str (e : PyExc) : string :=
  match e with Exc _ m | ExcFrom _ m _ => m end.

Definition exc_cause (e : PyExc) : option PyExc :=
  match e with Exc _ _ => None | ExcFrom _ _ c => Some c end.

Inductive result (A : Type) :=
  | Ok (a : A)
  | Raise (e : PyExc).
Arguments Ok {A} a.
Arguments Raise {A} e.

Definition rbind {A B} (r : result A) (k : A → result B) : result B :=
  match r with
  | Ok a => k a
  | Raise e => Raise e
  end.

Notation "'let?' x ':=' e 'in' k" := (rbind e (fun x => k))
  (at level 10, x pattern, e at level 100, k at level 200).

Definition raise {A} (cls : ExcClass) (msg : string) : result A :=
  Raise (Exc cls msg).

(** [raise cls(msg) from exc] *)
Definition raise_from {A} (cls : ExcClass) (msg : string) (exc : PyExc) : result A :=
  Raise (ExcFrom cls msg exc).

Definition is_ok {A} (r : result A) : bool :=
  match r with Ok _ => true | Raise _ => false end.

(** Values as they arrive from JSON documents and from ABI decoding:
    text, bytes, integers and [None].  JSON arrays, objects, floats
    and booleans are not represented; nothing below is stated about
    them.  A [string] holds Python text as its UTF-8 encoding. *)
Inductive PyVal :=
  | VStr (s : string)
  | VBytes (b : list byte)
  | VInt (z : Z)
  | VNone.

(** ** Characters, whitespace and digits *)

Definition is_space (c : ascii) : bool :=
  let n := N_of_ascii c in
  ((n =? 32) || (n =? 9) || (n =? 10) || (n =? 13) || (n =? 11) || (n =? 12))%N.

(** The value of an alphanumeric character as a digit, [99] when it is
    none ([_PyLong_DigitValue] uses 37). *)
Definition digit_value (c : ascii) : Z :=
  let n := Z.of_N (N_of_ascii c) in
  if (48 <=? n) && (n <=? 57) then n - 48
  else if (97 <=? n) && (n <=? 122) then n - 97 + 10
  else if (65 <=? n) && (n <=? 90) then n - 65 + 10
  else 99.

Fixpoint lstrip (s : string) : string :=
  match s with
  | String c r => if is_space c then lstrip r else s
  | EmptyString => EmptyString
  end.

Fixpoint all_space (s : string) : bool :=
  match s with
  | String c r => is_space c && all_space r
  | EmptyString => true
  end.

(** ** Text as [int] reads it

    [code_points] reads the text back from its UTF-8 encoding; a byte
    that begins no well-formed sequence stands for the code point of
    the same number. *)

Definition continuation (c : ascii) : option Z :=
  let n := Z.of_N (N_of_ascii c) in
  if (128 <=? n) && (n <? 192) then Some (n - 128) else None.

Fixpoint code_points (s : string) : list Z :=
  match s with
  | EmptyString => []
  | String c r =>
      let n := Z.of_N (N_of_ascii c) in
      let single := n :: code_points r in
      if n <? 192 then single
      else
        match r with
        | String c1 r1 =>
            match continuation c1 with
            | Some x1 =>
                if n <? 224 then
                  let cp := (n - 192) * 64 + x1 in
                  if 128 <=? cp then cp :: code_points r1 else single
                else
                  match r1 with
                  | String c2 r2 =>
                      match continuation c2 with
                      | Some x2 =>
                          if n <? 240 then
                            let cp := ((n - 224) * 64 + x1) * 64 + x2 in
                            if 2048 <=? cp then cp :: code_points r2 else single
                          else
                            match r2 with
                            | String c3 r3 =>
                                match continuation c3 with
                                | Some x3 =>
                                    let cp := (((n - 240) * 64 + x1) * 64 + x2) * 64 + x3 in
                                    if (n <? 248) && (65536 <=? cp) && (cp <=? 1114111)
                                    then cp :: code_points r3 else single
                                | None => single
                                end
                            | EmptyString => single
                            end
                      | None => single
                      end
                  | EmptyString => single
                  end
            | None => single
            end
        | EmptyString => single
        end
  end.

(** [Py_UNICODE_ISSPACE] beyond ASCII. *)
Definition unicode_space (cp : Z) : bool :=
  (cp =? 133) || (cp =? 160) || (cp =? 5760) || ((8192 <=? cp) && (cp <=? 8202))
  || (cp =? 8232) || (cp =? 8233) || (cp =? 8239) || (cp =? 8287) || (cp =? 12288).

(** The zero digits of the decimal-digit ranges beyond ASCII (general
    category Nd, Unicode 14.0 as CPython 3.11 carries it); each is
    followed by its digits one to nine. *)
Definition decimal_zeros : list Z :=
  [1632; 1776; 1984; 2406; 2534; 2662; 2790; 2918; 3046; 3174; 3302; 3430;
   3558; 3664; 3792; 3872; 4160; 4240; 6112; 6160; 6470; 6608; 6784; 6800;
   6992; 7088; 7232; 7248; 42528; 43216; 43264; 43472; 43504; 43600; 44016;
   65296; 66720; 68912; 69734; 69872; 69942; 70096; 70384; 70736; 70864;
   71248; 71360; 71472; 71904; 72016; 72784; 73040; 73120; 92768; 92864;
   93008; 120782; 120792; 120802; 120812; 120822; 123200; 123632; 125264;
   130032].

(** [Py_UNICODE_TODECIMAL] beyond ASCII. *)
Definition unicode_decimal (cp : Z) : option Z :=
  match find (λ z, (z <=? cp) && (cp <? z + 10)) decimal_zeros with
  | Some z => Some (cp - z)
  | None => None
  end.

Fixpoint is_ascii (s : string) : bool :=
  match s with
  | EmptyString => true
  | String c r => (N_of_ascii c <? 128)%N && is_ascii r
  end.

Definition ascii_of_Z (n : Z) : ascii := ascii_of_N (Z.to_N n).

(** One character of [_PyUnicode_TransformDecimalAndSpaceToASCII]:
    whitespace becomes a blank, a decimal digit its ASCII digit, any
    other character beyond ASCII a question mark. *)
Definition int_char (cp : Z) : ascii :=
  if cp <? 127 then ascii_of_Z cp
  else if unicode_space cp then " "%char
  else match unicode_decimal cp with
       | Some d => ascii_of_Z (48 + d)
       | None => "?"%char
       end.

(** The text [int] parses: ASCII text as it is, other text character
    by character through [int_char]. *)
Definition int_text (s : string) : string :=
  if is_ascii s then s
  else string_of_list_ascii (map int_char (code_points s)).

(** ** [int(s, base)] for base 16 and base 10

    Leading and trailing whitespace, one optional sign, for base 16 an
    optional [0x]/[0X] prefix (which may be followed by one underscore),
    then digits with single underscores between them. *)

Inductive prev_char := PNone | PDigit | PUnderscore.

(** Scans the digit run; returns the accumulated magnitude and the
    unread rest, or [None] on a misplaced underscore or an empty run. *)
Fixpoint scan_digits (base : Z) (acc : Z) (prev : prev_char) (s : string)
  : option (Z * string) :=
  match s with
  | String c r =>
      if Ascii.eqb c "_"%char then
        match prev with
        | PDigit => scan_digits base acc PUnderscore r
        | _ => None
        end
      else if digit_value c <? base then
        scan_digits base (acc * base + digit_value c) PDigit r
      else
        match prev with PDigit => Some (acc, s) | _ => None end
  | EmptyString =>
      match prev with PDigit => Some (acc, s) | _ => None end
  end.

Definition split_sign (s : string) : bool * string :=
  match s with
  | String "+"%char r => (false, r)
  | String "-"%char r => (true, r)
  | _ => (false, s)
  end.

Definition skip_hex_prefix (base : Z) (s : string) : string :=
  if base =? 16 then
    match s with
    | String "0"%char (String x r) =>
        if Ascii.eqb x "x"%char || Ascii.eqb x "X"%char then
          match r with
          | String "_"%char r' => r'
          | _ => r
          end
        else s
    | _ => s
    end
  else s.

(** The message quotes the literal with [repr]; plain quotes stand in
    for it here. *)
Definition invalid_literal {A} (base : Z) (s : string) : result A :=
  raise ValueError
    ("invalid literal for int() with base " +:+ pretty base +:+ ": '" +:+ s +:+ "'").

Definition parse_int (base : Z) (s : string) : result Z :=
  let '(neg, body) := split_sign (lstrip s) in
  match scan_digits base 0 PNone (skip_hex_prefix base body) with
  | Some (mag, rest) =>
      if all_space rest then Ok (if neg then - mag else mag)
      else invalid_literal base s
  | None => invalid_literal base s
  end.

(** [int] on text: whitespace and decimal digits of any script are
    brought to ASCII first; the error message shows the text as it was
    given. *)
Definition parse_text (base : Z) (s : string) : result Z :=
  match parse_int base (int_text s) with
  | Ok z => Ok z
  | Raise _ => invalid_literal base s
  end.

Definition string_of_bytes (b : list byte) : string :=
  string_of_list_ascii (map ascii_of_byte b).

(** [int(v, 16)]: an explicit base needs a string or bytes.  Bytes are
    parsed as they are. *)
Definition int_base16 (v : PyVal) : result Z :=
  match v with
  | VStr s => parse_text 16 s
  | VBytes b => parse_int 16 (string_of_bytes b)
  | _ => raise TypeError "int() can't convert non-string with explicit base"
  end.

(** [int(v)] *)
Definition py_int (v : PyVal) : result Z :=
  match v with
  | VInt z => Ok z
  | VStr s => parse_text 10 s
  | VBytes b => parse_int 10 (string_of_bytes b)
  | VNone =>
      raise TypeError
        "int() argument must be a string, a bytes-like object or a real number, not 'NoneType'"
  end.

(** ** [bytes.hex] and [bytes.fromhex] *)

Definition hex_digit (n : N) : ascii :=
  ascii_of_N (if (n <? 10)%N then 48 + n else 87 + n)%N.

Definition byte_hex (b : byte) : string :=
  let n := Byte.to_N b in
  String (hex_digit (n / 16)%N) (String (hex_digit (n mod 16)%N) EmptyString).

Fixpoint bytes_hex (b : list byte) : string :=
  match b with
  | [] => EmptyString
  | x :: r => byte_hex x +:+ bytes_hex r
  end.

Definition byte_of_digits (hi lo : Z) : byte :=
  match Byte.of_N (Z.to_N (hi * 16 + lo)) with
  | Some b => b
  | None => x00
  end.

(** The error of [bytes.fromhex], as CPython 3.11 words it: the
    position is that of the character that is no hexadecimal digit,
    or the length of the text when its last group has one digit. *)
Definition non_hex {A} (position : nat) : result A :=
  raise ValueError
    ("non-hexadecimal number found in fromhex() arg at position " +:+ pretty position).

(** Whitespace may separate the two-digit groups, never split one. *)
Fixpoint fromhex_at (position : nat) (s : string) : result (list byte) :=
  match s with
  | EmptyString => Ok []
  | String c r =>
      if is_space c then fromhex_at (S position) r
      else if digit_value c <? 16 then
        match r with
        | String d r' =>
            if digit_value d <? 16 then
              let? tl := fromhex_at (S (S position)) r' in
              Ok (byte_of_digits (digit_value c) (digit_value d) :: tl)
            else non_hex (S position)
        | EmptyString => non_hex (S position)
        end
      else non_hex position
  end.

(** Where the first character beyond ASCII stands; all before it are
    single bytes. *)
Fixpoint first_non_ascii (position : nat) (s : string) : option nat :=
  match s with
  | EmptyString => None
  | String c r =>
      if (N_of_ascii c <? 128)%N then first_non_ascii (S position) r else Some position
  end.

(** Text that is not all ASCII is refused at its first such
    character, before any digit is read. *)
Definition bytes_fromhex (s : string) : result (list byte) :=
  match first_non_ascii 0 s with
  | Some position => non_hex position
  | None => fromhex_at 0 s
  end.

(** ** The [decimal] module under the default context

    [prec=28], [rounding=ROUND_HALF_EVEN], [Emin=-999999], [Emax=999999],
    traps on [InvalidOperation] and [Overflow].  Finite numbers only. *)

Module decimal.

Record Decimal := mkDecimal {
  d_sign : bool;   (* True for negative *)
  d_int : Z;       (* coefficient, never negative *)
  d_exp : Z
}.

Definition prec : Z := 28.
Definition Emax : Z := 999999.
Definition Emin : Z := -999999.
Definition Etiny : Z := Emin - prec + 1.
Definition Etop : Z := Emax - prec + 1.

Fixpoint ndigits_go (fuel : nat) (c : Z) : Z :=
  match fuel with
  | O => 1
  | S f => if c <? 10 then 1 else 1 + ndigits_go f (c / 10)
  end.

(** [len(self._int)]: the number of decimal digits of the coefficient. *)
Definition ndigits (c : Z) : Z := ndigits_go (S (Z.to_nat (Z.log2 c))) c.

Definition adjusted (d : Decimal) : Z := d_exp d + ndigits (d_int d) - 1.

(** [Decimal(value)] for an [int]: exact, the context is not consulted. *)
Definition of_int (z : Z) : Decimal :=
  mkDecimal (z <? 0) (Z.abs z) 0.

(** [_round_half_even] on the coefficient [c] when its last [k] digits
    are dropped: whether the kept part is incremented. *)
Definition round_half_even_up (c k : Z) : bool :=
  let q := c / 10 ^ k in
  let r := c mod 10 ^ k in
  let half := 5 * 10 ^ (k - 1) in
  (half <? r) || ((r =? half) && Z.odd q).

(** [Decimal._fix]: round to the context's precision and exponent range. *)
Definition fix_ (d : Decimal) : result Decimal :=
  let '(mkDecimal s c e) := d in
  if c =? 0 then
    Ok (mkDecimal s 0 (Z.min (Z.max e Etiny) Emax))
  else
    let exp_min := ndigits c + e - prec in
    if Etop <? exp_min then raise Overflow "[<class 'decimal.Overflow'>]"
    else
      let exp_min := if exp_min <? Etiny then Etiny else exp_min in
      if e <? exp_min then
        let digits := ndigits c + e - exp_min in
        let '(c, digits) := if digits <? 0 then (1, 0) else (c, digits) in
        let k := ndigits c - digits in
        let q := c / 10 ^ k in
        let '(coeff, exp_min) :=
          if round_half_even_up c k then
            if prec <? ndigits (q + 1) then ((q + 1) / 10, exp_min + 1)
            else (q + 1, exp_min)
          else (q, exp_min) in
        if Etop <? exp_min then raise Overflow "[<class 'decimal.Overflow'>]"
        else Ok (mkDecimal s coeff exp_min)
      else Ok d.

(** [Decimal.__mul__] *)
Definition mul (a b : Decimal) : result Decimal :=
  fix_ (mkDecimal (xorb (d_sign a) (d_sign b)) (d_int a * d_int b) (d_exp a + d_exp b)).

(** [Decimal._rescale(exp, ROUND_DOWN)]: the discarded digits are
    dropped, the kept part is never incremented. *)
Definition rescale_down (d : Decimal) (exp : Z) : Decimal :=
  if d_int d =? 0 then mkDecimal (d_sign d) 0 exp
  else if exp <=? d_exp d then
    mkDecimal (d_sign d) (d_int d * 10 ^ (d_exp d - exp)) exp
  else
    mkDecimal (d_sign d) (d_int d / 10 ^ (exp - d_exp d)) exp.

(** [self.quantize(exp, rounding=ROUND_DOWN)] *)
Definition quantize_down (d exp : Decimal) : result Decimal :=
  if negb ((Etiny <=? d_exp exp) && (d_exp exp <=? Emax)) then
    raise InvalidOperation "[<class 'decimal.InvalidOperation'>]"
  else if d_int d =? 0 then
    fix_ (mkDecimal (d_sign d) 0 (d_exp exp))
  else if Emax <? adjusted d then
    raise InvalidOperation "[<class 'decimal.InvalidOperation'>]"
  else if prec <? adjusted d - d_exp exp + 1 then
    raise InvalidOperation "[<class 'decimal.InvalidOperation'>]"
  else
    let ans := rescale_down d (d_exp exp) in
    if Emax <? adjusted ans then
      raise InvalidOperation "[<class 'decimal.InvalidOperation'>]"
    else if prec <? ndigits (d_int ans) then
      raise InvalidOperation "[<class 'decimal.InvalidOperation'>]"
    else fix_ ans.

(** [int(d)]: truncation toward zero. *)
Definition to_int (d : Decimal) : Z :=
  let v := if 0 <=? d_exp d then d_int d * 10 ^ d_exp d
           else d_int d / 10 ^ (- d_exp d) in
  if d_sign d then - v else v.

(** [Decimal("1")] *)
Definition one : Decimal := mkDecimal false 1 0.

(** The rational value [m * 10^e] of a non-negative decimal is at most 1. *)
Definition at_most_one (d : Decimal) : Prop :=
  d_exp d <= 0 ∧ d_int d <= 10 ^ (- d_exp d).

End decimal.

Import decimal.

(** ** [relayer.core.utils] *)

(** [int((Decimal(value) * multiplier).quantize(Decimal("1"), rounding=ROUND_DOWN))] *)
Definition apply_discount (value : Z) (multiplier : Decimal) : result Z :=
  let? product := mul (of_int value) multiplier in
  let? q := quantize_down product one in
  Ok (to_int q).

(** [hex_to_bytes]: an optional lower-case [0x] is dropped first. *)
Definition hex_to_bytes (data : string) : result (list byte) :=
  bytes_fromhex
    (match data with
     | String "0"%char (String "x"%char r) => r
     | _ => data
     end).

(** ** The web3 library

    [Web3.to_checksum_address] and the ABI decoders are library code;
    the ABI bundle [snwaggerabi.json] is not part of the sources.  They
    enter as an interface.  The one law recorded is that a checksummed
    address is its own checksummed form. *)

(** One entry of the decoded [executors] argument: web3 hands back a
    mapping or a positional tuple. *)
Inductive ExecutorEntry :=
  | EntryDict (fields : list (string * PyVal))
  | EntryTuple (items : list PyVal).

(** The decoded arguments of the multi-execution call; an argument the
    ABI does not declare is absent. *)
Record MultiParams := {
  mp_fn_name : string;
  mp_inputTokens : option (list PyVal);
  mp_outputTokens : option (list PyVal);
  mp_executors : option (list ExecutorEntry)
}.

(** The decoded arguments of [snwap(tokenIn, amountIn, recipient,
    tokenOut, amountOutMin, executor, executorData)]. *)
Record SnwapParams := {
  sp_fn_name : string;
  sp_tokenIn : string;
  sp_amountIn : Z;
  sp_recipient : string;
  sp_tokenOut : string;
  sp_amountOutMin : Z;
  sp_executor : string;
  sp_executorData : list byte
}.

Class Web3Lib := {
  to_checksum_address : PyVal → result string;
  (* contract.decode_function_input with the snwagger ABI bundle *)
  decode_snwagger_input : list byte → result MultiParams;
  (* contract.decode_function_input with the inline snwap ABI *)
  decode_snwap_input : list byte → result SnwapParams;
  to_checksum_address_fixed :
    ∀ v a, to_checksum_address v = Ok a → to_checksum_address (VStr a) = Ok a
}.

Definition zero_address : string := "0x0000000000000000000000000000000000000000".

(** A connection object.  [obj_id] is what [id(web3)] returns; the
    remaining fields are the provider it was built for and what the
    node answers. *)
Record Web3 := {
  obj_id : Z;
  provider_url : string;
  is_connected : bool;
  eth_chain_id : Z;
  eth_block_number : Z;
  (* token.functions.balanceOf(owner).call() *)
  eth_call_balanceOf : string → string → result Z;
  (* token.functions.allowance(owner, spender).call() *)
  eth_call_allowance : string → string → string → result Z
}.

(** An ERC20 contract handle: it stays bound to the connection that
    created it. *)
Record Contract := {
  contract_w3 : Web3;
  contract_address : string
}.

(** ** Process state: the module-level handle cache and the calls made *)

(** The keyword arguments of a route quote request. *)
Record QuoteRequest := {
  qr_token_in : string;
  qr_token_out : string;
  qr_amount_in_wei : Z;
  qr_sender : string;
  qr_recipient : option string
}.

(** The keyword arguments of a bridge quote request. *)
Record JumperRequest := {
  jr_amount : Z;
  jr_from_address : string;
  jr_to_address : string
}.

(** What is recorded of a run: the contract reads ([balanceOf],
    [allowance]) and the requests handed to the two quote functions,
    in the order they are made.  The connection probes of
    [ensure_web3_connected] ([is_connected], [eth.chain_id]) are not
    recorded. *)
Inductive RpcCall :=
  | CallBalanceOf (token owner : string)
  | CallAllowance (token owner spender : string)
  | CallQuote (request : QuoteRequest)
  | CallJumper (request : JumperRequest).

Record World := {
  _CONTRACT_CACHE : gmap (Z * string) Contract;
  calls : list RpcCall
}.

Definition world0 : World := {| _CONTRACT_CACHE := ∅; calls := [] |}.

Definition M (A : Type) : Type := World → result A * World.

Definition ret {A} (a : A) : M A := λ w, (Ok a, w).

Definition bind {A B} (m : M A) (k : A → M B) : M B :=
  λ w, match m w with
       | (Ok a, w') => k a w'
       | (Raise e, w') => (Raise e, w')
       end.

Definition lift {A} (r : result A) : M A := λ w, (r, w).

(** [try: ... except Exception as exc: ...] hands the outcome to the
    handler; what the body did to the world stays done. *)
Definition try_ {A} (m : M A) : M (result A) :=
  λ w, let '(r, w') := m w in (Ok r, w').

Definition record_call (c : RpcCall) : M unit :=
  λ w, (Ok (), {| _CONTRACT_CACHE := _CONTRACT_CACHE w; calls := calls w ++ [c] |}).

Notation "'let*' x ':=' e 'in' k" := (bind e (fun x => k))
  (at level 10, x pattern, e at level 100, k at level 200).

Fixpoint for_each {A S} (body : S → A → M S) (l : list A) (s : S) : M S :=
  match l with
  | [] => ret s
  | x :: r => let* s' := body s x in for_each body r s'
  end.

(** ** [relayer.config] *)

Record ChainConfig := {
  chain_id : Z;
  rpc_url : option string
}.

Record TokenConfig := {
  symbol : string;
  address : string
}.

Record BaseContracts := {
  chwmper_address : string;
  revenue_bridger_address : string;
  redsnwapper_address : string;
  lifi_diamond_address : string;
  usdc_address : string;
  whitelisted_tokens : list TokenConfig
}.

Record EthereumContracts := {
  eth_usdc_address : string
}.

(** The two fractions are floats in the source and only ever used
    through [str]: [max_slippage] is kept as that string and
    [slippage_tolerance] as the number [Decimal(str(x))] reads back. *)
Record DefaultsConfig := {
  usdc_threshold : Z;
  max_slippage : string;
  slippage_tolerance : Decimal;
  api_timeout : Z
}.

Record ApiUrlsConfig := {
  sushi_swap_base : string;
  lifi_quote : string
}.

Record AddressesConfig := {
  mainnet_recipient : string
}.

Record RelayerConfig := {
  base_chain : ChainConfig;
  ethereum_chain : ChainConfig;
  base_contracts : BaseContracts;
  ethereum_contracts : EthereumContracts;
  defaults : DefaultsConfig;
  api_urls : ApiUrlsConfig;
  addresses : AddressesConfig
}.

Definition ensure_rpc_url (c : ChainConfig) : result string :=
  match rpc_url c with
  | Some url => if String.eqb url "" then raise ConfigError "RPC URL required but not configured"
                else Ok url
  | None => raise ConfigError "RPC URL required but not configured"
  end.

(** The value of a positive finite decimal lies in (0, 1]: the range
    [load_config] accepts for [slippage_tolerance]. *)
Definition tolerance_in_range (t : Decimal) : Prop :=
  d_sign t = false ∧ 0 < d_int t ∧ at_most_one t.

Section relayer.
Context `{Web3Lib}.

Definition checksum (s : string) : result string := to_checksum_address (VStr s).

Definition _to_checksum (value : string) (field_name : string) : result string :=
  match checksum value with
  | Ok a => Ok a
  | Raise exc => raise_from ConfigError ("Invalid address for " +:+ field_name +:+ ": " +:+ value) exc
  end.

(** The [whitelisted_tokens] entry of the JSON document. *)
Inductive TokensJson :=
  | TokMapping (items : list (string * string))
  | TokList (addrs : list string)
  | TokOther.

Fixpoint enumerate_from {A} (i : nat) (l : list A) : list (string * A) :=
  match l with
  | [] => []
  | x :: r => (pretty i, x) :: enumerate_from (S i) r
  end.

Fixpoint _normalize_items (items : list (string * string)) : result (list TokenConfig) :=
  match items with
  | [] => Ok []
  | (sym, addr) :: r =>
      let? checksum_address := _to_checksum addr ("whitelisted token " +:+ sym) in
      let? tl := _normalize_items r in
      Ok ({| symbol := sym; address := checksum_address |} :: tl)
  end.

Definition _normalize_tokens (tokens : TokensJson) : result (list TokenConfig) :=
  let? items :=
    match tokens with
    | TokMapping items => Ok items
    | TokList addrs => Ok (enumerate_from 0 addrs)
    | TokOther => raise ConfigError "whitelisted_tokens must be a mapping or iterable of addresses"
    end in
  let? res := _normalize_items items in
  match res with
  | [] => raise ConfigError "whitelisted_tokens cannot be empty"
  | _ => Ok res
  end.

(** ** [relayer.core.utils] (continued) *)

Definition ensure_web3_connected (web3 : Web3) (expected_chain_id : option Z) : result unit :=
  if negb (is_connected web3) then
    raise ConnectionError "Failed to connect to the configured RPC endpoint"
  else
    match expected_chain_id with
    | Some expected =>
        if negb (eth_chain_id web3 =? expected) then
          raise ValueError ("RPC chain ID mismatch: expected " +:+ pretty expected
                            +:+ ", got " +:+ pretty (eth_chain_id web3))
        else Ok ()
    | None => Ok ()
    end.

Record SushiQuoteResult := {
  sq_executor : string;
  sq_executor_data : list byte;
  sq_chain_id : Z;
  sq_recipient : string;
  sq_amount_in : Z;
  sq_assumed_amount_out : Z;
  sq_block_number : Z
}.

Fixpoint sum_ints (values : list Z) : Z :=
  match values with
  | [] => 0
  | v :: r => v + sum_ints r
  end.

(** ** [relayer.core.tokens] *)

Definition _get_or_create_contract (web3 : Web3) (token_address : string) : M Contract :=
  let* checksum_address := lift (checksum token_address) in
  let key := (obj_id web3, checksum_address) in
  λ w,
    match _CONTRACT_CACHE w !! key with
    | Some contract => (Ok contract, w)
    | None =>
        let contract := {| contract_w3 := web3; contract_address := checksum_address |} in
        (Ok contract, {| _CONTRACT_CACHE := <[key := contract]> (_CONTRACT_CACHE w);
                         calls := calls w |})
    end.

Definition get_contract (web3 : Web3) (token_address : string) : M Contract :=
  let* _ := lift (ensure_web3_connected web3 None) in
  _get_or_create_contract web3 token_address.

Definition balance_of (web3 : Web3) (token_address owner : string) : M Z :=
  let* contract := get_contract web3 token_address in
  let* owner_cs := lift (checksum owner) in
  let* _ := record_call (CallBalanceOf (contract_address contract) owner_cs) in
  lift (eth_call_balanceOf (contract_w3 contract) (contract_address contract) owner_cs).

Definition allowance_of (web3 : Web3) (token_address owner spender : string) : M Z :=
  let* contract := get_contract web3 token_address in
  let* owner_cs := lift (checksum owner) in
  let* spender_cs := lift (checksum spender) in
  let* _ := record_call (CallAllowance (contract_address contract) owner_cs spender_cs) in
  lift (eth_call_allowance (contract_w3 contract) (contract_address contract) owner_cs spender_cs).

(** ** [relayer.core.quotes] *)

Record ExecutorInfo := {
  ex_executor : string;
  ex_value : Z;
  ex_data : string
}.

Record MultiDecoded := {
  md_function : string;
  md_inputTokens : list PyVal;
  md_outputTokens : list PyVal;
  md_executors : list ExecutorInfo
}.

Record SnwapDecoded := {
  sd_function : string;
  sd_executor : string;
  sd_executorData : string;
  sd_amountIn : Z;
  sd_amountOutMin : Z
}.

(** [str(KeyError(key))] is the key's [repr]. *)
Definition key_error {A} (key : string) : result A :=
  raise KeyError ("'" +:+ key +:+ "'").

Definition dict_get (d : list (string * PyVal)) (key : string) : result PyVal :=
  match find (λ kv, String.eqb (fst kv) key) d with
  | Some kv => Ok (snd kv)
  | None => key_error key
  end.

Definition seq_get (l : list PyVal) (i : nat) : result PyVal :=
  match l !! i with
  | Some v => Ok v
  | None => raise IndexError "tuple index out of range"
  end.

Definition require_key {A} (o : option A) (key : string) : result A :=
  match o with
  | Some a => Ok a
  | None => key_error key
  end.

(** [data["data"] if isinstance(data["data"], str) else data["data"].hex()] *)
Definition data_as_hex (v : PyVal) : result string :=
  match v with
  | VStr s => Ok s
  | VBytes b => Ok (bytes_hex b)
  | VInt _ => raise AttributeError "'int' object has no attribute 'hex'"
  | VNone => raise AttributeError "'NoneType' object has no attribute 'hex'"
  end.

(** The body of the loop over [params["executors"]]. *)
Definition normalize_executor (executor : ExecutorEntry) : result ExecutorInfo :=
  let? data :=
    match executor with
    | EntryDict fields => Ok fields
    | EntryTuple items =>
        let? e0 := seq_get items 0 in
        let? e1 := seq_get items 1 in
        let? e2 := seq_get items 2 in
        Ok [("executor", e0); ("value", e1); ("data", e2)]
    end in
  let? a := dict_get data "executor" in
  let? a := to_checksum_address a in
  let? v := dict_get data "value" in
  let? v := py_int v in
  let? d := dict_get data "data" in
  let? d := data_as_hex d in
  Ok {| ex_executor := a; ex_value := v; ex_data := d |}.

Fixpoint normalize_executors (l : list ExecutorEntry) : result (list ExecutorInfo) :=
  match l with
  | [] => Ok []
  | e :: r =>
      let? x := normalize_executor e in
      let? tl := normalize_executors r in
      Ok (x :: tl)
  end.

Definition _decode_snwap_multiple (raw_data : string) : result MultiDecoded :=
  let body :=
    let? raw := hex_to_bytes raw_data in
    let? params := decode_snwagger_input raw in
    let? input_tokens := require_key (mp_inputTokens params) "inputTokens" in
    let? output_tokens := require_key (mp_outputTokens params) "outputTokens" in
    let? entries := require_key (mp_executors params) "executors" in
    let? executors := normalize_executors entries in
    Ok {| md_function := mp_fn_name params;
          md_inputTokens := input_tokens;
          md_outputTokens := output_tokens;
          md_executors := executors |} in
  match body with
  | Ok r => Ok r
  | Raise exc =>
      raise_from ValueError ("Failed to decode snwapMultiple payload: " +:+ exc_str exc) exc
  end.

Definition _decode_snwap (raw_data : string) : result SnwapDecoded :=
  let body :=
    let? raw := hex_to_bytes raw_data in
    let? params := decode_snwap_input raw in
    let? executor := checksum (sp_executor params) in
    Ok {| sd_function := sp_fn_name params;
          sd_executor := executor;
          sd_executorData :=
            match sp_executorData params with
            | [] => "0x"
            | b => bytes_hex b
            end;
          sd_amountIn := sp_amountIn params;
          sd_amountOutMin := sp_amountOutMin params |} in
  match body with
  | Ok r => Ok r
  | Raise exc =>
      raise_from ValueError ("Failed to decode snwap payload: " +:+ exc_str exc) exc
  end.

(** The [try] block of [request_swap_route]: the multi-execution
    attempt, down to the first executor entry. *)
Definition route_executor_multi (tx_data : string) : result (string * string) :=
  let? multi := _decode_snwap_multiple tx_data in
  match md_executors multi with
  | executor :: _ =>
      let? executor_address := checksum (ex_executor executor) in
      Ok (executor_address, ex_data executor)
  | [] => raise IndexError "list index out of range"
  end.

(** The [try]/[except Exception] statement of [request_swap_route]. *)
Definition route_executor (tx_data : string) : result (string * string) :=
  match route_executor_multi tx_data with
  | Ok r => Ok r
  | Raise _ =>
      let? single := _decode_snwap tx_data in
      Ok (sd_executor single, sd_executorData single)
  end.

(** The query string sent to the route service. *)
Record SushiQuery := {
  sq_tokenIn : string;
  sq_tokenOut : string;
  sq_amount : string;
  sq_maxSlippage : string;
  sq_sender : string;
  sq_recipient_param : string
}.

(** [response.json()] reduced to what the function reads:
    [payload.get("status")], [payload.get("tx", {}).get("data")] and the
    two amounts. *)
Record SushiPayload := {
  pl_status : option string;
  pl_tx_data : option string;
  pl_amountIn : option PyVal;
  pl_assumedAmountOut : option PyVal
}.

(** [requests.get] followed by [raise_for_status]: a transport or HTTP
    failure, or a response whose body may still fail to parse. *)
Inductive HttpOutcome (A : Type) :=
  | HttpFailed (exc : PyExc)
  | HttpBody (json : result A).
Arguments HttpFailed {A} exc.
Arguments HttpBody {A} json.

Definition request_swap_route
    (http_get : string → SushiQuery → Z → HttpOutcome SushiPayload)
    (web3_factory : string → Web3)
    (config : RelayerConfig) (req : QuoteRequest) : result SushiQuoteResult :=
  let? token_in := checksum (qr_token_in req) in
  let? token_out := checksum (qr_token_out req) in
  let? sender := checksum (qr_sender req) in
  let? recipient :=
    match qr_recipient req with
    | Some r => if String.eqb r "" then checksum (qr_sender req) else checksum r
    | None => checksum (qr_sender req)
    end in
  let params := {| sq_tokenIn := token_in; sq_tokenOut := token_out;
                   sq_amount := pretty (qr_amount_in_wei req);
                   sq_maxSlippage := max_slippage (defaults config);
                   sq_sender := sender; sq_recipient_param := recipient |} in
  match http_get (sushi_swap_base (api_urls config)) params (api_timeout (defaults config)) with
  | HttpFailed exc =>
      raise_from ConnectionError
        ("Failed to fetch Sushi route from " +:+ sushi_swap_base (api_urls config)
         +:+ ": " +:+ exc_str exc) exc
  | HttpBody json =>
      let? payload := json in
      if negb (bool_decide (pl_status payload = Some "Success")) then
        raise ValueError ("Sushi API returned non-success status: "
                          +:+ default "None" (pl_status payload))
      else
        match pl_tx_data payload with
        | None | Some "" => raise ValueError "Sushi API response missing transaction payload"
        | Some tx_data =>
            let? route := route_executor tx_data in
            let executor_address := fst route in
            let executor_data := snd route in
            let? rpc := ensure_rpc_url (base_chain config) in
            let web3 := web3_factory rpc in
            let? _ := ensure_web3_connected web3 (Some (chain_id (base_chain config))) in
            let? data := hex_to_bytes executor_data in
            let? amount_in := require_key (pl_amountIn payload) "amountIn" in
            let? amount_in := py_int amount_in in
            let? assumed := require_key (pl_assumedAmountOut payload) "assumedAmountOut" in
            let? assumed := py_int assumed in
            Ok {| sq_executor := executor_address;
                  sq_executor_data := data;
                  sq_chain_id := chain_id (base_chain config);
                  sq_recipient := recipient;
                  sq_amount_in := amount_in;
                  sq_assumed_amount_out := assumed;
                  sq_block_number := eth_block_number web3 |}
        end
  end.

(** ** [relayer.core.swap] *)

Record SwapTokenQuote := {
  stq_symbol : string;
  token_address : string;
  balance : Z;
  assumed_usdc_out : Z;
  min_usdc_out : Z;
  executor : string;
  executor_data : list byte
}.

Record SwapBuildResult := {
  input_tokens : list (string * Z * string);
  output_tokens : list (string * string * Z);
  executors : list (string * Z * list byte);
  min_total_usdc : Z;
  assumed_total_usdc : Z;
  token_quotes : list SwapTokenQuote
}.

Fixpoint insert_by_symbol (t : TokenConfig) (l : list TokenConfig) : list TokenConfig :=
  match l with
  | [] => [t]
  | x :: r =>
      if String.leb (symbol t) (symbol x) then t :: x :: r
      else x :: insert_by_symbol t r
  end.

(** [sorted(tokens, key=lambda token: token.symbol)]; equal keys keep
    their order. *)
Definition _iter_whitelisted_tokens (tokens : list TokenConfig) : list TokenConfig :=
  foldr insert_by_symbol [] tokens.

(** The locals the loop of [build_swap_parameters] updates. *)
Record SwapLocals := {
  l_input_tokens : list (string * Z * string);
  l_executors : list (string * Z * list byte);
  l_quotes_collected : list SwapTokenQuote;
  l_total_assumed : Z;
  l_total_min : Z
}.

Definition swap_locals0 : SwapLocals :=
  {| l_input_tokens := []; l_executors := []; l_quotes_collected := [];
     l_total_assumed := 0; l_total_min := 0 |}.

Definition quote_request (config : RelayerConfig) (contract_address : string)
    (token : TokenConfig) (balance : Z) : QuoteRequest :=
  {| qr_token_in := address token;
     qr_token_out := usdc_address (base_contracts config);
     qr_amount_in_wei := balance;
     qr_sender := contract_address;
     qr_recipient := Some contract_address |}.

Definition swap_append (st : SwapLocals) (token : TokenConfig) (balance : Z)
    (sushi_quote : SushiQuoteResult) (min_out : Z) : SwapLocals :=
  {| l_input_tokens :=
       l_input_tokens st ++ [(address token, balance, sq_executor sushi_quote)];
     l_executors :=
       l_executors st ++ [(sq_executor sushi_quote, 0, sq_executor_data sushi_quote)];
     l_quotes_collected :=
       l_quotes_collected st ++
         [{| stq_symbol := symbol token;
             token_address := address token;
             balance := balance;
             assumed_usdc_out := sq_assumed_amount_out sushi_quote;
             min_usdc_out := min_out;
             executor := sq_executor sushi_quote;
             executor_data := sq_executor_data sushi_quote |}];
     l_total_assumed := l_total_assumed st + sq_assumed_amount_out sushi_quote;
     l_total_min := l_total_min st + min_out |}.

(** A call of the quote function: the request it is handed is the
    one recorded. *)
Definition call_quote (quote_fn : RelayerConfig → QuoteRequest → result SushiQuoteResult)
    (config : RelayerConfig) (req : QuoteRequest) : M SushiQuoteResult :=
  let* _ := record_call (CallQuote req) in
  lift (quote_fn config req).

(** One iteration of [for token in tokens]; a [continue] leaves the
    locals as they were. *)
Definition swap_visit (config : RelayerConfig) (web3 : Web3)
    (chwomper_address contract_address : string)
    (quote_fn : RelayerConfig → QuoteRequest → result SushiQuoteResult)
    (st : SwapLocals) (token : TokenConfig) : M SwapLocals :=
  let* balance := balance_of web3 (address token) chwomper_address in
  if balance =? 0 then ret st
  else
    let* outcome :=
      try_ (call_quote quote_fn config (quote_request config contract_address token balance)) in
    match outcome with
    | Raise _ => ret st
    | Ok sushi_quote =>
        if sq_assumed_amount_out sushi_quote <? usdc_threshold (defaults config) then ret st
        else
          let* min_out :=
            lift (apply_discount (sq_assumed_amount_out sushi_quote)
                                 (slippage_tolerance (defaults config))) in
          ret (swap_append st token balance sushi_quote min_out)
    end.

Definition build_swap_parameters (config : RelayerConfig) (web3 : Web3)
    (chwomper_address contract_address : string)
    (quote_fn : RelayerConfig → QuoteRequest → result SushiQuoteResult)
  : M SwapBuildResult :=
  let* _ := lift (ensure_web3_connected web3 (Some (chain_id (base_chain config)))) in
  let tokens := _iter_whitelisted_tokens (whitelisted_tokens (base_contracts config)) in
  match tokens with
  | [] => lift (raise ValueError "No whitelisted tokens configured")
  | _ =>
      let* st := for_each (swap_visit config web3 chwomper_address contract_address quote_fn)
                          tokens swap_locals0 in
      match l_input_tokens st with
      | [] => lift (raise ValueError "No eligible tokens to swap after applying thresholds")
      | _ =>
          ret {| input_tokens := l_input_tokens st;
                 output_tokens :=
                   [(usdc_address (base_contracts config), contract_address, l_total_min st)];
                 executors := l_executors st;
                 min_total_usdc := l_total_min st;
                 assumed_total_usdc := l_total_assumed st;
                 token_quotes := l_quotes_collected st |}
      end
  end.

(** ** [relayer.core.bridge] *)

(** The transaction envelope of a bridge quote: a JSON object, any of
    whose members may be missing. *)
Record TxEnvelope := {
  tx_to : option PyVal;
  tx_data : option PyVal;
  tx_value : option PyVal
}.

Record JumperDetails := {
  jd_transaction : option TxEnvelope
}.

Record BridgeBuildResult := {
  call_target : string;
  call_data : list byte;
  native_value : Z;
  bridge_amount : Z;
  contract_usdc_balance : Z;
  br_min_total_usdc : Z;
  jumper_payload : JumperDetails
}.

(** [hex_to_bytes] applied to a JSON value. *)
Definition hex_to_bytes_val (v : PyVal) : result (list byte) :=
  match v with
  | VStr s => hex_to_bytes s
  | VBytes _ => raise TypeError "startswith first arg must be bytes or a tuple of bytes, not str"
  | VInt _ => raise AttributeError "'int' object has no attribute 'startswith'"
  | VNone => raise AttributeError "'NoneType' object has no attribute 'startswith'"
  end.

(** A call of the bridge quote function: the request it is handed is
    the one recorded. *)
Definition call_jumper (jumper_fn : RelayerConfig → JumperRequest → result JumperDetails)
    (config : RelayerConfig) (req : JumperRequest) : M JumperDetails :=
  let* _ := record_call (CallJumper req) in
  lift (jumper_fn config req).

Definition build_bridge_call (config : RelayerConfig) (web3 : Web3)
    (contract_address : string) (min_total_usdc : Z)
    (jumper_fn : RelayerConfig → JumperRequest → result JumperDetails)
  : M BridgeBuildResult :=
  let* _ := lift (ensure_web3_connected web3 (Some (chain_id (base_chain config)))) in
  let* contract_balance :=
    balance_of web3 (usdc_address (base_contracts config)) contract_address in
  let bridge_amount := contract_balance + min_total_usdc in
  let* jumper_details :=
    call_jumper jumper_fn config {| jr_amount := bridge_amount;
                                    jr_from_address := contract_address;
                                    jr_to_address := mainnet_recipient (addresses config) |} in
  let* tx := lift (require_key (jd_transaction jumper_details) "transaction") in
  let* to := lift (require_key (tx_to tx) "to") in
  let* call_target := lift (to_checksum_address to) in
  let* data := lift (require_key (tx_data tx) "data") in
  let* call_data := lift (hex_to_bytes_val data) in
  let* value := lift (require_key (tx_value tx) "value") in
  let* native_value := lift (int_base16 value) in
  ret {| call_target := call_target;
         call_data := call_data;
         native_value := native_value;
         bridge_amount := bridge_amount;
         contract_usdc_balance := contract_balance;
         br_min_total_usdc := min_total_usdc;
         jumper_payload := jumper_details |}.

(** ** [relayer.core.validation] *)

Record TokenValidationResult := {
  tv_token_address : string;
  tv_symbol : string;
  required_amount : Z;
  tv_balance : Z;
  allowance : Z
}.

Definition has_allowance (r : TokenValidationResult) : bool :=
  required_amount r <=? allowance r.

Definition ascii_lower (c : ascii) : ascii :=
  let n := N_of_ascii c in
  if ((65 <=? n) && (n <=? 90))%N then ascii_of_N (n + 32) else c.

(** [str.lower] on ASCII text. *)
Fixpoint lower (s : string) : string :=
  match s with
  | EmptyString => EmptyString
  | String c r => String (ascii_lower c) (lower r)
  end.

(** A dict comprehension: a later token with the same key wins. *)
Definition _address_symbol_map (config : RelayerConfig) : gmap string string :=
  foldl (λ m token, <[lower (address token) := symbol token]> m) ∅
        (whitelisted_tokens (base_contracts config)).

Definition validate_token (config : RelayerConfig) (web3 : Web3)
    (symbol_map : gmap string string)
    (results : list TokenValidationResult) (it : string * Z * string)
  : M (list TokenValidationResult) :=
  let '(token_address, amount_in, _transfer_to) := it in
  let* balance := balance_of web3 token_address (chwmper_address (base_contracts config)) in
  let* allowance :=
    allowance_of web3 token_address (chwmper_address (base_contracts config))
                 (revenue_bridger_address (base_contracts config)) in
  let* checksum_address := lift (checksum token_address) in
  let symbol := default "UNKNOWN" (symbol_map !! lower checksum_address) in
  if balance <? amount_in then
    lift (raise ValueError
            ("CHWMPER balance for " +:+ symbol +:+ " (" +:+ checksum_address +:+ ") is "
             +:+ pretty balance +:+ ", but transaction requires " +:+ pretty amount_in))
  else
    ret (results ++ [{| tv_token_address := checksum_address;
                        tv_symbol := symbol;
                        required_amount := amount_in;
                        tv_balance := balance;
                        allowance := allowance |}])%list.

Definition validate_swap_inputs (config : RelayerConfig) (web3 : Web3)
    (input_tokens : list (string * Z * string))
    (output_tokens : list (string * string * Z))
    (executors : list (string * Z * list byte))
  : M (list TokenValidationResult) :=
  let* _ := lift (ensure_web3_connected web3 (Some (chain_id (base_chain config)))) in
  match input_tokens, output_tokens, executors with
  | [], _, _ => lift (raise ValueError "inputTokens array is empty")
  | _, [], _ => lift (raise ValueError "outputTokens array is empty")
  | _, _, [] => lift (raise ValueError "executors array is empty")
  | _, _, _ =>
      for_each (validate_token config web3 (_address_symbol_map config)) input_tokens []
  end.

Record BridgeValidationResult := {
  bv_call_target : string;
  native_balance : Z;
  required_native : Z;
  has_sufficient_native : bool
}.

(** [1_000_000 * 10**9]: a million gas units at one gwei each. *)
Definition gas_buffer : Z := 1000000 * 10 ^ 9.

(** The least magnitude whose quotient by [10**18] no longer rounds
    to a finite float: half a unit in the last place above the largest
    one, [(2^1024 - 2^970) * 10^18]. *)
Definition float_limit_wei : Z := (2 ^ 1024 - 2 ^ 970) * 10 ^ 18.

(** [n / 10**18], an argument of the low-balance warning.  True
    division of integers gives the nearest float and raises
    [OverflowError] when there is none; the quotient itself is only
    logged. *)
Definition wei_as_eth (n : Z) : result unit :=
  if float_limit_wei <=? Z.abs n then
    raise OverflowError "integer division result too large for a float"
  else Ok ().

Definition validate_bridge_call (config : RelayerConfig) (call_target : string)
    (native_balance native_value : Z) : result BridgeValidationResult :=
  let? target := checksum call_target in
  if String.eqb target zero_address then raise ValueError "callTarget is zero address"
  else
    let required_native := native_value + gas_buffer in
    let has_balance := required_native <=? native_balance in
    let? _ :=
      if negb has_balance then
        (* the arguments of [LOGGER.warning] are evaluated before the call *)
        let? _ := wei_as_eth native_balance in
        wei_as_eth required_native
      else Ok () in
    Ok {| bv_call_target := call_target;
          native_balance := native_balance;
          required_native := required_native;
          has_sufficient_native := has_balance |}.

End relayer.

(** ** What a connection answers, read without the cache

    The builders reach the chain through [balance_of] and
    [allowance_of], which go through the handle cache.  These are the
    same reads made directly on the connection. *)

Section direct_reads.
Context `{Web3Lib}.

Definition chain_balance (web3 : Web3) (token_address owner : string) : result Z :=
  let? _ := ensure_web3_connected web3 None in
  let? token := checksum token_address in
  let? owner := checksum owner in
  eth_call_balanceOf web3 token owner.

Definition chain_allowance (web3 : Web3) (token_address owner spender : string) : result Z :=
  let? _ := ensure_web3_connected web3 None in
  let? token := checksum token_address in
  let? owner := checksum owner in
  let? spender := checksum spender in
  eth_call_allowance web3 token owner spender.

(** Every handle cached under this connection's identity is bound to
    this connection: identities of live objects are unique, and a
    cached handle keeps its connection alive. *)
Definition cache_coherent (w : World) (web3 : Web3) : Prop :=
  ∀ a c, _CONTRACT_CACHE w !! (obj_id web3, a) = Some c →
         c = {| contract_w3 := web3; contract_address := a |}.

(** Every handle sits under the key made of its own connection's
    identity and its own address. *)
Definition cache_keyed (w : World) : Prop :=
  ∀ i a c, _CONTRACT_CACHE w !! (i, a) = Some c →
           obj_id (contract_w3 c) = i ∧ contract_address c = a.

(** The three ways the swap loop passes over a token. *)
Definition token_skipped (config : RelayerConfig) (web3 : Web3)
    (chwomper_address contract_address : string)
    (quote_fn : RelayerConfig → QuoteRequest → result SushiQuoteResult)
    (token : TokenConfig) : Prop :=
  ∃ b, chain_balance web3 (address token) chwomper_address = Ok b ∧
    (b = 0
     ∨ (b ≠ 0 ∧ ∃ e, quote_fn config (quote_request config contract_address token b) = Raise e)
     ∨ (b ≠ 0 ∧ ∃ q, quote_fn config (quote_request config contract_address token b) = Ok q
              ∧ sq_assumed_amount_out q < usdc_threshold (defaults config))).

(** What the validation loop records for one input token, read
    directly from the chain. *)
Definition validated_as (config : RelayerConfig) (web3 : Web3)
    (it : string * Z * string) (r : TokenValidationResult) : Prop :=
  chain_balance web3 it.1.1 (chwmper_address (base_contracts config)) = Ok (tv_balance r)
  ∧ chain_allowance web3 it.1.1 (chwmper_address (base_contracts config))
      (revenue_bridger_address (base_contracts config)) = Ok (allowance r)
  ∧ checksum it.1.1 = Ok (tv_token_address r)
  ∧ required_amount r = it.1.2
  ∧ it.1.2 <= tv_balance r
  ∧ has_allowance r = (it.1.2 <=? allowance r).

(** Enough for the validation loop to run to its end: the token can
    be read and the holding account has at least the required amount.
    Allowances play no part. *)
Definition token_funded (config : RelayerConfig) (web3 : Web3)
    (it : string * Z * string) : Prop :=
  ∃ b a, chain_balance web3 it.1.1 (chwmper_address (base_contracts config)) = Ok b
    ∧ chain_allowance web3 it.1.1 (chwmper_address (base_contracts config))
        (revenue_bridger_address (base_contracts config)) = Ok a
    ∧ it.1.2 <= b.

(** What holds of the loop locals after any number of iterations:
    both arrays and both totals are projections of the collected
    quotes, and every collected quote passed the three filters. *)
Record locals_inv (config : RelayerConfig) (st : SwapLocals) : Prop := {
  inv_inputs :
    l_input_tokens st
    = map (λ q, (token_address q, balance q, executor q)) (l_quotes_collected st);
  inv_executors :
    l_executors st
    = map (λ q, (executor q, 0, executor_data q)) (l_quotes_collected st);
  inv_total_min :
    l_total_min st = sum_ints (map min_usdc_out (l_quotes_collected st));
  inv_total_assumed :
    l_total_assumed st = sum_ints (map assumed_usdc_out (l_quotes_collected st));
  inv_quotes :
    Forall (λ q, balance q ≠ 0
                 ∧ usdc_threshold (defaults config) <= assumed_usdc_out q
                 ∧ apply_discount (assumed_usdc_out q) (slippage_tolerance (defaults config))
                   = Ok (min_usdc_out q))
           (l_quotes_collected st)
}.

(** The envelope of a returned bridge call, field by field. *)
Record bridge_built (config : RelayerConfig) (web3 : Web3) (contract_address : string)
    (min_total_usdc : Z)
    (jumper_fn : RelayerConfig → JumperRequest → result JumperDetails)
    (w : World) (r : BridgeBuildResult) : Prop := {
  built_balance :
    fst (balance_of web3 (usdc_address (base_contracts config)) contract_address w)
    = Ok (contract_usdc_balance r);
  built_amount : bridge_amount r = contract_usdc_balance r + min_total_usdc;
  built_min_total : br_min_total_usdc r = min_total_usdc;
  built_quote :
    jumper_fn config {| jr_amount := bridge_amount r;
                        jr_from_address := contract_address;
                        jr_to_address := mainnet_recipient (addresses config) |}
    = Ok (jumper_payload r);
  built_envelope :
    ∃ tx to data value,
      jd_transaction (jumper_payload r) = Some tx
      ∧ tx_to tx = Some to ∧ to_checksum_address to = Ok (call_target r)
      ∧ tx_data tx = Some data ∧ hex_to_bytes_val data = Ok (call_data r)
      ∧ tx_value tx = Some value ∧ int_base16 value = Ok (native_value r)
}.

(** A computation that leaves the cache bound to this connection. *)
Definition keeps_coherent (web3 : Web3) {A} (m : M A) : Prop :=
  ∀ w, cache_coherent w web3 → cache_coherent (snd (m w)) web3.

End direct_reads.

(** Whether the literal handed to [int(v, 16)] carries a minus sign
    after its leading whitespace, which for text is whitespace of any
    script. *)
Definition literal_has_minus (v : PyVal) : bool :=
  match v with
  | VStr s => fst (split_sign (lstrip (int_text s)))
  | VBytes b => fst (split_sign (lstrip (string_of_bytes b)))
  | _ => false
  end.

(** ** The rest of the relayer

    [snapshot_balances], [validate_executor_payloads], the bridge quote
    request with its diagnostic decode, and the plan preparation of
    the command line. *)

Arguments HttpFailed {A} exc.
Arguments HttpBody {A} json.

Section more_relayer.
Context `{Web3Lib}.

(** *** [relayer.core.tokens] (continued) *)

(** [{symbol: balance_of(web3, address, owner) for symbol, address in
    token_addresses.items()}] *)
Definition snapshot_balances (web3 : Web3) (token_addresses : list (string * string))
    (owner : string) : M (gmap string Z) :=
  for_each (λ acc item,
              let* b := balance_of web3 (snd item) owner in
              ret (<[fst item := b]> acc))
           token_addresses ∅.

(** *** [relayer.core.validation] (continued) *)

(** [validate_executor_payloads], from index [index] on.  The executor
    payload is any Python value; [Web3.is_checksum_address] is the
    library's. *)
Fixpoint validate_executors_from (is_checksum_address : string → bool) (index : nat)
    (executors : list (string * Z * PyVal)) : result unit :=
  match executors with
  | [] => Ok ()
  | (executor, value, data) :: rest =>
      if negb (is_checksum_address executor) then
        raise ValueError ("Executor #" +:+ pretty index +:+ " has invalid address: "
                          +:+ executor)
      else
        match data with
        | VBytes _ => validate_executors_from is_checksum_address (S index) rest
        | _ => raise TypeError ("Executor #" +:+ pretty index +:+ " data must be bytes-like")
        end
  end.

Definition validate_executor_payloads (is_checksum_address : string → bool)
    (executors : list (string * Z * PyVal)) : result unit :=
  validate_executors_from is_checksum_address 1 executors.

(** The executors array of a plan, as the values Python holds. *)
Definition executor_values (executors : list (string * Z * list byte))
  : list (string * Z * PyVal) :=
  map (λ ex, (ex.1.1, ex.1.2, VBytes ex.2)) executors.

(** *** [relayer.core.quotes] (continued) *)

(** The packaged [lifi.json]: missing, present but unreadable, or a
    parsed list of so many entries. *)
Inductive AbiFile :=
  | AbiAbsent
  | AbiUnreadable (exc : PyExc)
  | AbiEntries (n : nat).

(** [_load_lifi_abi]: only a missing file is turned into [None]. *)
Definition _load_lifi_abi (file : AbiFile) : result (option nat) :=
  match file with
  | AbiAbsent => Ok None
  | AbiUnreadable exc => Raise exc
  | AbiEntries n => Ok (Some n)
  end.

Record DecodedInputs := {
  di_function : string;
  di_inputs : list (string * PyVal)
}.

(** The diagnostic dictionary of [_decode_transaction_call]. *)
Record DecodedCall := {
  dc_to : string;
  dc_selector : PyVal;
  dc_decoded : option DecodedInputs;
  dc_note : option string
}.

Fixpoint string_take (n : nat) (s : string) : string :=
  match n, s with
  | S n', String c r => String c (string_take n' r)
  | _, _ => EmptyString
  end.

(** [v[:10]] *)
Definition slice10 (v : PyVal) : result PyVal :=
  match v with
  | VStr s => Ok (VStr (string_take 10 s))
  | VBytes b => Ok (VBytes (take 10 b))
  | VInt _ => raise TypeError "'int' object is not subscriptable"
  | VNone => raise TypeError "'NoneType' object is not subscriptable"
  end.

(** [web3.eth.contract(address=..., abi=abi)] is made outside the
    [try]: [lifi_contract] is that call for the packaged ABI, giving
    the handle's [decode_function_input] or raising. *)
Definition _decode_transaction_call (abi_file : AbiFile)
    (lifi_contract : Web3 → string → result (PyVal → result DecodedInputs))
    (web3 : Web3) (lifi_diamond_address : string) (tx : TxEnvelope) : result DecodedCall :=
  let? to := require_key (tx_to tx) "to" in
  let? target := to_checksum_address to in
  let? data := require_key (tx_data tx) "data" in
  let? selector := slice10 data in
  if negb (String.eqb (lower target) (lower lifi_diamond_address)) then
    Ok {| dc_to := target; dc_selector := selector; dc_decoded := None;
          dc_note := Some "Not a LiFiDiamond call" |}
  else
    let? abi := _load_lifi_abi abi_file in
    match abi with
    | None | Some O =>
        Ok {| dc_to := target; dc_selector := selector; dc_decoded := None;
              dc_note := Some "LiFi ABI not found" |}
    | Some _ =>
        let? decode_function_input := lifi_contract web3 lifi_diamond_address in
        match decode_function_input data with
        | Ok decoded =>
            Ok {| dc_to := target; dc_selector := selector;
                  dc_decoded := Some decoded; dc_note := None |}
        | Raise exc =>
            Ok {| dc_to := target; dc_selector := selector; dc_decoded := None;
                  dc_note := Some ("Failed to decode payload: " +:+ exc_str exc) |}
        end
    end.

(** The query sent to the bridge quote service. *)
Record LifiQuery := {
  lq_fromChain : Z;
  lq_toChain : Z;
  lq_fromToken : string;
  lq_toToken : string;
  lq_fromAmount : string;
  lq_fromAddress : string;
  lq_toAddress : string
}.

(** [response.json()], reduced to the member the function reads. *)
Record LifiResponse := {
  lr_transactionRequest : option TxEnvelope
}.

(** The dictionary [get_jumper_transaction] returns. *)
Record JumperTransaction := {
  jt_quote : LifiResponse;
  jt_transaction : TxEnvelope;
  jt_decoded : DecodedCall
}.

Definition get_jumper_transaction
    (http_get : string → LifiQuery → Z → HttpOutcome LifiResponse)
    (web3_factory : string → Web3)
    (abi_file : AbiFile)
    (lifi_contract : Web3 → string → result (PyVal → result DecodedInputs))
    (config : RelayerConfig) (req : JumperRequest) : result JumperTransaction :=
  let? from_address := checksum (jr_from_address req) in
  let? to_address := checksum (jr_to_address req) in
  let params := {| lq_fromChain := chain_id (base_chain config);
                   lq_toChain := chain_id (ethereum_chain config);
                   lq_fromToken := usdc_address (base_contracts config);
                   lq_toToken := eth_usdc_address (ethereum_contracts config);
                   lq_fromAmount := pretty (jr_amount req);
                   lq_fromAddress := from_address;
                   lq_toAddress := to_address |} in
  match http_get (lifi_quote (api_urls config)) params (api_timeout (defaults config)) with
  | HttpFailed exc =>
      raise_from ConnectionError
        ("Failed to fetch Li.Fi quote from " +:+ lifi_quote (api_urls config)
         +:+ ": " +:+ exc_str exc) exc
  | HttpBody json =>
      let? data := json in
      let? tx_data := require_key (lr_transactionRequest data) "transactionRequest" in
      let? rpc := ensure_rpc_url (base_chain config) in
      let web3 := web3_factory rpc in
      let? _ := ensure_web3_connected web3 (Some (chain_id (base_chain config))) in
      let? decoded :=
        _decode_transaction_call abi_file lifi_contract web3
          (lifi_diamond_address (base_contracts config)) tx_data in
      Ok {| jt_quote := data; jt_transaction := tx_data; jt_decoded := decoded |}
  end.

(** The returned dictionary as [build_bridge_call] reads it: the
    ["transaction"] member is always there. *)
Definition jumper_details (r : JumperTransaction) : JumperDetails :=
  {| jd_transaction := Some (jt_transaction r) |}.

(** [quotes.get_jumper_transaction] as the default [jumper_fn]. *)
Definition default_jumper_fn
    (http_get : string → LifiQuery → Z → HttpOutcome LifiResponse)
    (web3_factory : string → Web3)
    (abi_file : AbiFile)
    (lifi_contract : Web3 → string → result (PyVal → result DecodedInputs))
    (config : RelayerConfig) (req : JumperRequest) : result JumperDetails :=
  let? r := get_jumper_transaction http_get web3_factory abi_file lifi_contract config req in
  Ok (jumper_details r).

(** *** [relayer.cli.main] *)

Record ExecutionPlan := {
  swap : SwapBuildResult;
  bridge : BridgeBuildResult;
  token_validations : list TokenValidationResult;
  bridge_validation : BridgeValidationResult
}.

(** [RelayerExecutor.prepare_plan].  [signer] is [self.address],
    [get_balance] is [web3.eth.get_balance]; the two quote functions
    are the builders' defaults in the source. *)
Definition prepare_plan (is_checksum_address : string → bool)
    (get_balance : Web3 → string → result Z)
    (config : RelayerConfig) (web3 : Web3) (signer : string)
    (quote_fn : RelayerConfig → QuoteRequest → result SushiQuoteResult)
    (jumper_fn : RelayerConfig → JumperRequest → result JumperDetails)
  : M ExecutionPlan :=
  let* swap :=
    build_swap_parameters config web3 (chwmper_address (base_contracts config))
      (revenue_bridger_address (base_contracts config)) quote_fn in
  let* _ := lift (validate_executor_payloads is_checksum_address
                    (executor_values (executors swap))) in
  let* tokens_validation :=
    validate_swap_inputs config web3 (input_tokens swap) (output_tokens swap)
      (executors swap) in
  let* bridge :=
    build_bridge_call config web3 (revenue_bridger_address (base_contracts config))
      (min_total_usdc swap) jumper_fn in
  let* native_balance := lift (get_balance web3 signer) in
  let* bridge_validation :=
    lift (validate_bridge_call config (call_target bridge) native_balance
            (native_value bridge)) in
  ret {| swap := swap; bridge := bridge; token_validations := tokens_validation;
         bridge_validation := bridge_validation |}.

(** *** Reading plans *)

(** The whitelist entry a collected quote was made for. *)
Definition quote_token (q : SwapTokenQuote) : TokenConfig :=
  {| symbol := stq_symbol q; address := token_address q |}.

(** Whether the swap loop keeps a token: a non-zero balance, a quote,
    and an assumed output at or above the threshold. *)
Definition eligible (config : RelayerConfig) (web3 : Web3)
    (chwomper_address contract_address : string)
    (quote_fn : RelayerConfig → QuoteRequest → result SushiQuoteResult)
    (token : TokenConfig) : bool :=
  match chain_balance web3 (address token) chwomper_address with
  | Ok b =>
      negb (b =? 0)
      && match quote_fn config (quote_request config contract_address token b) with
         | Ok sq => negb (sq_assumed_amount_out sq <? usdc_threshold (defaults config))
         | Raise _ => false
         end
  | Raise _ => false
  end.

(** A collected quote holds the token's whole balance and what the
    route service answered for it. *)
Definition quoted_as (config : RelayerConfig) (web3 : Web3)
    (chwomper_address contract_address : string)
    (quote_fn : RelayerConfig → QuoteRequest → result SushiQuoteResult)
    (q : SwapTokenQuote) : Prop :=
  balance q ≠ 0
  ∧ chain_balance web3 (token_address q) chwomper_address = Ok (balance q)
  ∧ ∃ sq, quote_fn config (quote_request config contract_address (quote_token q) (balance q))
          = Ok sq
       ∧ assumed_usdc_out q = sq_assumed_amount_out sq
       ∧ executor q = sq_executor sq
       ∧ executor_data q = sq_executor_data sq.

(** The contract reads and quote requests one iteration of the swap
    loop makes when its balance read succeeds: the holder's balance of
    the token and, when that is not zero, a quote for swapping all of
    it into the settlement asset, sent by and paid out to the
    contract. *)
Definition visit_calls (config : RelayerConfig) (web3 : Web3)
    (chwomper_address contract_address : string) (token : TokenConfig)
  : list RpcCall :=
  match checksum (address token), checksum chwomper_address with
  | Ok t, Ok o =>
      CallBalanceOf t o ::
      match eth_call_balanceOf web3 t o with
      | Ok b =>
          if b =? 0 then []
          else [CallQuote {| qr_token_in := address token;
                             qr_token_out := usdc_address (base_contracts config);
                             qr_amount_in_wei := b;
                             qr_sender := contract_address;
                             qr_recipient := Some contract_address |}]
      | Raise _ => []
      end
  | _, _ => []
  end.

(** A quote whose discounted output would need more than 28 digits. *)
Definition oversized (config : RelayerConfig) (web3 : Web3)
    (chwomper_address contract_address : string)
    (quote_fn : RelayerConfig → QuoteRequest → result SushiQuoteResult)
    (token : TokenConfig) : Prop :=
  ∃ b sq, chain_balance web3 (address token) chwomper_address = Ok b
    ∧ b ≠ 0
    ∧ quote_fn config (quote_request config contract_address token b) = Ok sq
    ∧ usdc_threshold (defaults config) <= sq_assumed_amount_out sq
    ∧ 10 ^ 28 <= sq_assumed_amount_out sq * d_int (slippage_tolerance (defaults config))
                 / 10 ^ (- d_exp (slippage_tolerance (defaults config))).

(** The order [sorted] puts the whitelist in. *)
Definition symbol_le (a b : TokenConfig) : Prop :=
  String.leb (symbol a) (symbol b) = true.

(** What a computation run on this connection may do to the cache:
    nothing is removed or replaced, and what is added are handles of
    this connection under addresses in checksummed form. *)
Definition cache_extends (web3 : Web3) {A} (m : M A) : Prop :=
  ∀ w, _CONTRACT_CACHE w ⊆ _CONTRACT_CACHE (snd (m w))
       ∧ ∀ k c, _CONTRACT_CACHE (snd (m w)) !! k = Some c →
           _CONTRACT_CACHE w !! k = None →
           k.1 = obj_id web3 ∧ checksum k.2 = Ok k.2
           ∧ c = {| contract_w3 := web3; contract_address := k.2 |}.

End more_relayer.

(** ** A stand-in library and fixtures

    The model is run on concrete inputs against a stand-in for web3, in
    the way a test suite stubs it: addresses are [0x] followed by 40 hex
    digits and their canonical form has the letters in upper case (the
    real capitalisation is derived from a Keccak-256 digest); calldata
    is recognised by its first byte. *)

Module fixtures.

Fixpoint all_hex (s : string) : bool :=
  match s with
  | EmptyString => true
  | String c r => (digit_value c <? 16) && all_hex r
  end.

Definition ascii_upper (c : ascii) : ascii :=
  let n := N_of_ascii c in
  if ((97 <=? n) && (n <=? 122))%N then ascii_of_N (n - 32) else c.

Fixpoint upper (s : string) : string :=
  match s with
  | EmptyString => EmptyString
  | String c r => String (ascii_upper c) (upper r)
  end.

Definition stub_checksum (v : PyVal) : result string :=
  match v with
  | VStr (String "0"%char (String x body)) =>
      if (Ascii.eqb x "x"%char || Ascii.eqb x "X"%char)
         && (Nat.eqb (String.length body) 40) && all_hex body
      then Ok (String "0"%char (String "x"%char (upper body)))
      else raise ValueError "Unknown format"
  | _ => raise ValueError "Unknown format"
  end.

Definition addr (d : ascii) : string :=
  String "0"%char (String "x"%char (string_of_list_ascii (replicate 40 d))).

Definition CHWMPER : string := addr "1".
Definition BRIDGER : string := addr "2".
Definition REDSNWAPPER : string := addr "3".
Definition LIFI_DIAMOND : string := addr "4".
Definition USDC : string := addr "5".
Definition WETH : string := addr "6".
Definition DEGEN : string := addr "7".
Definition RECIPIENT : string := addr "8".
Definition EXECUTOR_A : string := addr "a".
Definition EXECUTOR_B : string := addr "b".
Definition EXECUTOR_C : string := addr "c".

Definition stub_decode_snwagger (raw : list byte) : result MultiParams :=
  match raw with
  | x01 :: payload =>
      Ok {| mp_fn_name := "snwapMultiple";
            mp_inputTokens := Some [];
            mp_outputTokens := Some [];
            mp_executors :=
              Some [EntryTuple [VStr EXECUTOR_A; VInt 0; VBytes payload];
                    EntryDict [("executor", VStr EXECUTOR_B); ("value", VInt 0);
                               ("data", VBytes [])]] |}
  | x03 :: _ =>
      Ok {| mp_fn_name := "snwapMultiple";
            mp_inputTokens := Some [];
            mp_outputTokens := Some [];
            mp_executors := Some [] |}
  | _ => raise ValueError "Could not find any function with matching selector"
  end.

Definition stub_decode_snwap (raw : list byte) : result SnwapParams :=
  match raw with
  | x02 :: payload =>
      Ok {| sp_fn_name := "snwap";
            sp_tokenIn := WETH; sp_amountIn := 1000; sp_recipient := BRIDGER;
            sp_tokenOut := USDC; sp_amountOutMin := 0;
            sp_executor := EXECUTOR_C; sp_executorData := payload |}
  | _ => raise ValueError "Could not find any function with matching selector"
  end.

Lemma ascii_upper_hex c : (digit_value (ascii_upper c) <? 16) = (digit_value c <? 16).
Proof. destruct c as [[] [] [] [] [] [] [] []]; reflexivity. Qed.

Lemma ascii_upper_idem c : ascii_upper (ascii_upper c) = ascii_upper c.
Proof. destruct c as [[] [] [] [] [] [] [] []]; reflexivity. Qed.

Lemma upper_facts s :
  String.length (upper s) = String.length s
  ∧ all_hex (upper s) = all_hex s
  ∧ upper (upper s) = upper s.
Proof.
  induction s as [|c s (IH1 & IH2 & IH3)]; [done|]. simpl.
  rewrite IH1, IH2, IH3, ascii_upper_hex, ascii_upper_idem. done.
Qed.

Lemma stub_checksum_fixed v a :
  stub_checksum v = Ok a → stub_checksum (VStr a) = Ok a.
Proof.
  destruct v as [s| | |]; try discriminate.
  destruct s as [|c0 s']; [discriminate|].
  destruct s' as [|x body]; [destruct c0 as [[] [] [] [] [] [] [] []]; discriminate|].
  destruct (Ascii.eqb_spec c0 "0"%char) as [->|Hne].
  - cbn [stub_checksum].
    destruct ((Ascii.eqb x "x" || Ascii.eqb x "X") && Nat.eqb (String.length body) 40
              && all_hex body) eqn:E; [|discriminate].
    intros [= <-]. cbn [stub_checksum].
    destruct (upper_facts body) as (-> & -> & ->).
    apply andb_true_iff in E as [E E3]. apply andb_true_iff in E as [E1 E2].
    rewrite E2, E3. done.
  - destruct c0 as [[] [] [] [] [] [] [] []]; try discriminate. done.
Qed.

#[local] Instance stub_lib : Web3Lib := {|
  to_checksum_address := stub_checksum;
  decode_snwagger_input := stub_decode_snwagger;
  decode_snwap_input := stub_decode_snwap;
  to_checksum_address_fixed := stub_checksum_fixed
|}.

(** A connected node on chain 8453 answering from two tables. *)
Definition node (id : Z) (balances : string → string → result Z)
    (allowances : string → string → string → result Z) : Web3 :=
  {| obj_id := id; provider_url := "https://rpc.example"; is_connected := true;
     eth_chain_id := 8453; eth_block_number := 100;
     eth_call_balanceOf := balances; eth_call_allowance := allowances |}.

Definition config_with (tokens : list TokenConfig) (threshold : Z) (tolerance : Decimal)
  : RelayerConfig :=
  {| base_chain := {| chain_id := 8453; rpc_url := Some "https://rpc.example" |};
     ethereum_chain := {| chain_id := 1; rpc_url := None |};
     base_contracts :=
       {| chwmper_address := CHWMPER; revenue_bridger_address := BRIDGER;
          redsnwapper_address := REDSNWAPPER; lifi_diamond_address := LIFI_DIAMOND;
          usdc_address := USDC; whitelisted_tokens := tokens |};
     ethereum_contracts := {| eth_usdc_address := USDC |};
     defaults := {| usdc_threshold := threshold; max_slippage := "0.005";
                    slippage_tolerance := tolerance; api_timeout := 30 |};
     api_urls := {| sushi_swap_base := "https://api.sushi.example/swap";
                    lifi_quote := "https://li.quest/v1/quote" |};
     addresses := {| mainnet_recipient := RECIPIENT |} |}.

(** A route quote that assumes [out] units of the settlement asset. *)
Definition quote_of (out : Z) (req : QuoteRequest) : result SushiQuoteResult :=
  Ok {| sq_executor := EXECUTOR_A; sq_executor_data := [x12; x34];
        sq_chain_id := 8453; sq_recipient := BRIDGER;
        sq_amount_in := qr_amount_in_wei req; sq_assumed_amount_out := out;
        sq_block_number := 100 |}.

Definition weth : TokenConfig := {| symbol := "WETH"; address := WETH |}.
Definition degen : TokenConfig := {| symbol := "DEGEN"; address := DEGEN |}.

(** 0.98 and 0.99, as [Decimal(str(x))] reads them. *)
Definition tol_098 : Decimal := mkDecimal false 98 (-2).
Definition tol_099 : Decimal := mkDecimal false 99 (-2).

(** Scenario A: one token, balance 1000, assumed output 2,000,000,
    threshold 1,000,000, tolerance 0.98. *)
Definition config_A : RelayerConfig := config_with [weth] 1000000 tol_098.
Definition node_A : Web3 := node 1 (λ _ _, Ok 1000) (λ _ _ _, Ok 0).
Definition quote_A (_ : RelayerConfig) (req : QuoteRequest) := quote_of 2000000 req.

(** Scenario B: one token with a zero balance, one whose quote is
    below the threshold. *)
Definition config_B : RelayerConfig := config_with [weth; degen] 1000000 tol_098.
Definition node_B : Web3 :=
  node 1 (λ token _, if String.eqb token WETH then Ok 0 else Ok 5000) (λ _ _ _, Ok 0).
Definition quote_B (_ : RelayerConfig) (req : QuoteRequest) := quote_of 999999 req.

(** A quote of 2*10^26 + 3 units under tolerance 0.99. *)
Definition config_big : RelayerConfig := config_with [weth] 1000000 tol_099.
Definition quote_big (_ : RelayerConfig) (req : QuoteRequest) :=
  quote_of 200000000000000000000000003 req.

(** Scenario C: the destination contract already holds 500 units. *)
Definition node_C : Web3 := node 1 (λ _ _, Ok 500) (λ _ _ _, Ok 0).

Definition envelope (to value : string) : JumperDetails :=
  {| jd_transaction :=
       Some {| tx_to := Some (VStr to); tx_data := Some (VStr "0xdeadbeef");
               tx_value := Some (VStr value) |} |}.

Definition jumper_ok (_ : RelayerConfig) (_ : JumperRequest) : result JumperDetails :=
  Ok (envelope LIFI_DIAMOND "0x2386f26fc10000").

(** Scenario D: the quoted call target is the zero address. *)
Definition jumper_zero (_ : RelayerConfig) (_ : JumperRequest) : result JumperDetails :=
  Ok (envelope zero_address "0x0").

(** An envelope whose value carries a minus sign. *)
Definition jumper_negative (_ : RelayerConfig) (_ : JumperRequest) : result JumperDetails :=
  Ok (envelope LIFI_DIAMOND "-0x1").

(** Two connection objects built for the same endpoint. *)
Definition conn_1 : Web3 := node 1 (λ _ _, Ok 1000) (λ _ _ _, Ok 0).
Definition conn_2 : Web3 := node 2 (λ _ _, Ok 1000) (λ _ _ _, Ok 0).

(** The plan of scenario A. *)
Definition quote_A_WETH : SwapTokenQuote :=
  {| stq_symbol := "WETH"; token_address := WETH; balance := 1000;
     assumed_usdc_out := 2000000; min_usdc_out := 1960000;
     executor := EXECUTOR_A; executor_data := [x12; x34] |}.

Definition plan_A : SwapBuildResult :=
  {| input_tokens := [(WETH, 1000, EXECUTOR_A)];
     output_tokens := [(USDC, BRIDGER, 1960000)];
     executors := [(EXECUTOR_A, 0, [x12; x34])];
     min_total_usdc := 1960000;
     assumed_total_usdc := 2000000;
     token_quotes := [quote_A_WETH] |}.

(** The bridge calls of scenarios C and D and of the signed envelope. *)
Definition bridge_of (target : string) (value : Z) (payload : JumperDetails)
  : BridgeBuildResult :=
  {| call_target := target; call_data := [xde; xad; xbe; xef];
     native_value := value; bridge_amount := 1960500;
     contract_usdc_balance := 500; br_min_total_usdc := 1960000;
     jumper_payload := payload |}.

Definition bridge_C : BridgeBuildResult :=
  bridge_of LIFI_DIAMOND 10000000000000000 (envelope LIFI_DIAMOND "0x2386f26fc10000").
Definition bridge_D : BridgeBuildResult :=
  bridge_of zero_address 0 (envelope zero_address "0x0").
Definition bridge_negative : BridgeBuildResult :=
  bridge_of LIFI_DIAMOND (-1) (envelope LIFI_DIAMOND "-0x1").

(** Validation inputs: the node holds 1000 of every token and has
    granted no allowance. *)
Definition inputs_ok : list (string * Z * string) := [(WETH, 1000, EXECUTOR_A)].
Definition inputs_short : list (string * Z * string) :=
  [(WETH, 1000, EXECUTOR_A); (DEGEN, 1001, EXECUTOR_A)].
Definition outputs_A : list (string * string * Z) := [(USDC, BRIDGER, 1960000)].
Definition executors_A : list (string * Z * list byte) := [(EXECUTOR_A, 0, [x12; x34])].
Definition validation_ok : TokenValidationResult :=
  {| tv_token_address := WETH; tv_symbol := "WETH"; required_amount := 1000;
     tv_balance := 1000; allowance := 0 |}.

(** The handles the two connection objects get for the same token. *)
Definition handle_1 : Contract := {| contract_w3 := conn_1; contract_address := WETH |}.
Definition handle_2 : Contract := {| contract_w3 := conn_2; contract_address := WETH |}.

Definition world_1 : World :=
  {| _CONTRACT_CACHE := {[ (1, WETH) := handle_1 ]}; calls := [] |}.
Definition world_12 : World :=
  {| _CONTRACT_CACHE := <[ (2, WETH) := handle_2 ]> {[ (1, WETH) := handle_1 ]};
     calls := [] |}.

(** What the stand-in decoders make of calldata starting with 0x01. *)
Definition first_01 : ExecutorInfo :=
  {| ex_executor := addr "A"; ex_value := 0; ex_data := "abcd" |}.
Definition second_01 : ExecutorInfo :=
  {| ex_executor := addr "B"; ex_value := 0; ex_data := "" |}.
Definition multi_01 : MultiDecoded :=
  {| md_function := "snwapMultiple"; md_inputTokens := []; md_outputTokens := [];
     md_executors := [first_01; second_01] |}.

Definition no_selector : PyExc :=
  Exc ValueError "Could not find any function with matching selector".
Definition multi_failed : PyExc :=
  ExcFrom ValueError
    "Failed to decode snwapMultiple payload: Could not find any function with matching selector"
    no_selector.
Definition single_failed : PyExc :=
  ExcFrom ValueError
    "Failed to decode snwap payload: Could not find any function with matching selector"
    no_selector.

(** [Web3.is_checksum_address] of the stand-in: the address is its own
    checksummed form. *)
Definition stub_is_checksum (a : string) : bool :=
  match stub_checksum (VStr a) with
  | Ok b => String.eqb b a
  | Raise _ => false
  end.

(** A quote of 2*10^28 units: its discounted output needs 29 digits. *)
Definition quote_huge (_ : RelayerConfig) (req : QuoteRequest) :=
  quote_of 20000000000000000000000000000 req.

(** A route quote whose executor is already in checksummed form. *)
Definition quote_checked (_ : RelayerConfig) (req : QuoteRequest)
  : result SushiQuoteResult :=
  Ok {| sq_executor := addr "A"; sq_executor_data := [x12; x34];
        sq_chain_id := 8453; sq_recipient := BRIDGER;
        sq_amount_in := qr_amount_in_wei req; sq_assumed_amount_out := 2000000;
        sq_block_number := 100 |}.

(** Nodes that are down, on another chain, or refuse balance reads. *)
Definition node_off : Web3 :=
  {| obj_id := 1; provider_url := "https://rpc.example"; is_connected := false;
     eth_chain_id := 8453; eth_block_number := 100;
     eth_call_balanceOf := λ _ _, Ok 1000; eth_call_allowance := λ _ _ _, Ok 0 |}.
Definition node_mainnet : Web3 :=
  {| obj_id := 1; provider_url := "https://rpc.example"; is_connected := true;
     eth_chain_id := 1; eth_block_number := 100;
     eth_call_balanceOf := λ _ _, Ok 1000; eth_call_allowance := λ _ _ _, Ok 0 |}.
Definition node_reverting : Web3 :=
  node 1 (λ _ _, raise ValueError "execution reverted") (λ _ _ _, Ok 0).

(** The route service answering with calldata the multi-execution
    decoder accepts, and the connection factory of the scenarios. *)
Definition sushi_ok (_ : string) (_ : SushiQuery) (_ : Z) : HttpOutcome SushiPayload :=
  HttpBody (Ok {| pl_status := Some "Success"; pl_tx_data := Some "0x01abcd";
                  pl_amountIn := Some (VStr "1000");
                  pl_assumedAmountOut := Some (VStr "2000000") |}).
Definition factory_A (_ : string) : Web3 := node_A.

Definition route_quote_A : SushiQuoteResult :=
  {| sq_executor := addr "A"; sq_executor_data := [xab; xcd];
     sq_chain_id := 8453; sq_recipient := BRIDGER;
     sq_amount_in := 1000; sq_assumed_amount_out := 2000000;
     sq_block_number := 100 |}.

(** The bridge service answering with a call to the LiFi diamond, and
    two contract handles: one that decodes it, one that cannot. *)
Definition tx_lifi : TxEnvelope :=
  {| tx_to := Some (VStr LIFI_DIAMOND); tx_data := Some (VStr "0xdeadbeef0001");
     tx_value := Some (VStr "0x2386f26fc10000") |}.
Definition lifi_ok (_ : string) (_ : LifiQuery) (_ : Z) : HttpOutcome LifiResponse :=
  HttpBody (Ok {| lr_transactionRequest := Some tx_lifi |}).
Definition decoded_bridge : DecodedInputs :=
  {| di_function := "startBridgeTokensViaAcross"; di_inputs := [("_amount", VInt 1961000)] |}.
Definition decode_ok (_ : PyVal) : result DecodedInputs := Ok decoded_bridge.
Definition decode_failing (_ : PyVal) : result DecodedInputs :=
  raise ValueError "Could not find any function with matching selector".
Definition call_decoded : DecodedCall :=
  {| dc_to := LIFI_DIAMOND; dc_selector := VStr "0xdeadbeef";
     dc_decoded := Some decoded_bridge; dc_note := None |}.
Definition jumper_decoded : JumperTransaction :=
  {| jt_quote := {| lr_transactionRequest := Some tx_lifi |};
     jt_transaction := tx_lifi; jt_decoded := call_decoded |}.

(** An envelope whose value is 16^272 wei, past what a float holds
    once divided by 10^18. *)
Definition jumper_huge (_ : RelayerConfig) (_ : JumperRequest) : result JumperDetails :=
  Ok (envelope LIFI_DIAMOND ("0x1" +:+ string_of_list_ascii (replicate 272 "0"%char))).

(** A signer holding 0.02 ETH. *)
Definition signer_balance (_ : Web3) (_ : string) : result Z := Ok 20000000000000000.

(** Whitelists as they stand in the configuration file. *)
Definition tokens_listed : TokensJson := TokList [WETH; addr "a"].
Definition tokens_loaded : list TokenConfig :=
  [{| symbol := "0"; address := WETH |}; {| symbol := "1"; address := addr "A" |}].
Definition tokens_bad : TokensJson := TokMapping [("WETH", WETH); ("BAD", "0x12")].

(** Executors as the check receives them: the second has an address
    that is not in checksummed form and a payload that is not bytes. *)
Definition executors_bad : list (string * Z * PyVal) :=
  [(addr "A", 0, VBytes [x12]); (addr "b", 0, VInt 0)].

End fixtures.

(** * Properties *)

(** ** The slippage step *)

Module decimal_facts.

Lemma ndigits_go_pos fuel c : 1 <= ndigits_go fuel c.
Proof.
  revert c. induction fuel as [|fuel IH]; intros c; simpl; [lia|].
  destruct (c <? 10); [lia|]. specialize (IH (c / 10)). lia.
Qed.

Lemma ndigits_go_le fuel : ∀ c k, 1 <= k → c < 10 ^ k → ndigits_go fuel c <= k.
Proof.
  induction fuel as [|fuel IH]; intros c k Hk Hc; simpl; [lia|].
  destruct (c <? 10) eqn:E; [lia|].
  apply Z.ltb_ge in E.
  assert (2 <= k).
  { destruct (Z.eq_dec k 1) as [->|]; [|lia]. rewrite Z.pow_1_r in Hc. lia. }
  assert (c / 10 < 10 ^ (k - 1)).
  { apply Z.div_lt_upper_bound; [lia|].
    replace (10 * 10 ^ (k - 1)) with (10 ^ k); [lia|].
    replace k with (Z.succ (k - 1)) at 1 by lia. rewrite Z.pow_succ_r; lia. }
  specialize (IH (c / 10) (k - 1)). lia.
Qed.

Lemma ndigits_pos c : 1 <= ndigits c.
Proof. apply ndigits_go_pos. Qed.

Lemma ndigits_le c k : 1 <= k → c < 10 ^ k → ndigits c <= k.
Proof. apply ndigits_go_le. Qed.

(** With enough fuel the digit count is the exact one. *)
Lemma ndigits_go_lower fuel : ∀ c, 0 <= c < 2 ^ Z.of_nat fuel → 10 <= c →
  10 ^ (ndigits_go fuel c - 1) <= c.
Proof.
  induction fuel as [|fuel IH]; intros c Hc H10.
  - simpl in Hc. lia.
  - simpl ndigits_go. destruct (c <? 10) eqn:E; [apply Z.ltb_lt in E; lia|].
    replace (1 + ndigits_go fuel (c / 10) - 1) with (ndigits_go fuel (c / 10)) by lia.
    assert (Hq : 0 <= c / 10 < 2 ^ Z.of_nat fuel).
    { split; [apply Z.div_pos; lia|].
      apply Z.div_lt_upper_bound; [lia|].
      rewrite Nat2Z.inj_succ, Z.pow_succ_r in Hc by lia. lia. }
    destruct (Z_lt_le_dec (c / 10) 10) as [Hs|Hb].
    + destruct fuel as [|fuel']; simpl.
      * simpl in Hq. lia.
      * destruct (c / 10 <? 10) eqn:E'; [|apply Z.ltb_ge in E'; lia].
        change (10 ^ 1) with 10. lia.
    + specialize (IH (c / 10) Hq Hb).
      pose proof (ndigits_go_pos fuel (c / 10)) as Hp.
      replace (ndigits_go fuel (c / 10)) with (Z.succ (ndigits_go fuel (c / 10) - 1)) by lia.
      rewrite Z.pow_succ_r by lia.
      pose proof (Z.mul_div_le c 10). lia.
Qed.

Lemma ndigits_lower c : 10 <= c → 10 ^ (ndigits c - 1) <= c.
Proof.
  intros Hc. apply ndigits_go_lower; [|done].
  split; [lia|].
  rewrite Nat2Z.inj_succ, Z2Nat.id by apply Z.log2_nonneg.
  apply Z.log2_spec. lia.
Qed.

(** A coefficient of at most 28 digits with an exponent in range is
    left alone by the context. *)
Lemma fix_representable (s : bool) (c e : Z) :
  0 <= c < 10 ^ 28 → Etiny <= e <= Etop →
  fix_ (mkDecimal s c e) = Ok (mkDecimal s c e).
Proof.
  intros Hc He. unfold fix_.
  assert (HT : Etiny = -1000026) by reflexivity.
  assert (HP : Etop = 999972) by reflexivity.
  assert (HM : Emax = 999999) by reflexivity.
  destruct (c =? 0) eqn:Ec.
  - apply Z.eqb_eq in Ec. subst c. do 2 f_equal. lia.
  - pose proof (ndigits_pos c) as Hn1.
    pose proof (ndigits_le c 28 ltac:(lia) ltac:(lia)) as Hn2.
    unfold prec.
    destruct (Etop <? ndigits c + e - 28) eqn:E1; [apply Z.ltb_lt in E1; lia|].
    destruct (ndigits c + e - 28 <? Etiny) eqn:E2.
    + destruct (e <? Etiny) eqn:E3; [apply Z.ltb_lt in E3; lia|done].
    + destruct (e <? ndigits c + e - 28) eqn:E3; [apply Z.ltb_lt in E3; lia|done].
Qed.

(** Quantizing to [Decimal("1")] with [ROUND_DOWN] truncates. *)
Lemma quantize_down_one (s : bool) (c e : Z) :
  0 <= c < 10 ^ 28 → Etiny <= e <= 0 →
  quantize_down (mkDecimal s c e) one = Ok (mkDecimal s (c / 10 ^ (- e)) 0).
Proof.
  intros Hc He.
  assert (HT : Etiny = -1000026) by reflexivity.
  assert (HM : Emax = 999999) by reflexivity.
  assert (Hp : 0 < 10 ^ (- e)) by (apply Z.pow_pos_nonneg; lia).
  assert (Hq : 0 <= c / 10 ^ (- e) <= c).
  { split; [apply Z.div_pos; lia|]. apply Z.div_le_upper_bound; nia. }
  unfold quantize_down, one. cbn [d_exp d_int d_sign].
  destruct (negb ((Etiny <=? 0) && (0 <=? Emax))) eqn:E0; [done|]. clear E0.
  destruct (c =? 0) eqn:Ec.
  - apply Z.eqb_eq in Ec. subst c. rewrite Z.div_0_l by lia.
    apply fix_representable; [lia|]. split; [rewrite HT; lia|done].
  - apply Z.eqb_neq in Ec.
    pose proof (ndigits_pos c) as Hn1.
    pose proof (ndigits_le c 28 ltac:(lia) ltac:(lia)) as Hn2.
    unfold adjusted at 1 2. cbn [d_exp d_int]. unfold prec.
    destruct (Emax <? e + ndigits c - 1) eqn:E1; [apply Z.ltb_lt in E1; lia|].
    destruct (28 <? e + ndigits c - 1 - 0 + 1) eqn:E2; [apply Z.ltb_lt in E2; lia|].
    assert (Hr : rescale_down (mkDecimal s c e) 0 = mkDecimal s (c / 10 ^ (- e)) 0).
    { unfold rescale_down. cbn [d_exp d_int d_sign].
      rewrite (proj2 (Z.eqb_neq c 0)) by done.
      destruct (0 <=? e) eqn:E3.
      - apply Z.leb_le in E3. replace e with 0 by lia. simpl.
        rewrite Z.mul_1_r, Z.div_1_r. done.
      - do 2 f_equal. }
    rewrite Hr. unfold adjusted. cbn [d_exp d_int].
    pose proof (ndigits_pos (c / 10 ^ (- e))) as Hm1.
    pose proof (ndigits_le (c / 10 ^ (- e)) 28 ltac:(lia) ltac:(lia)) as Hm2.
    destruct (Emax <? 0 + ndigits (c / 10 ^ (- e)) - 1) eqn:E4;
      [apply Z.ltb_lt in E4; lia|].
    destruct (28 <? ndigits (c / 10 ^ (- e))) eqn:E5; [apply Z.ltb_lt in E5; lia|].
    apply fix_representable; [lia|]. split; [rewrite HT; lia|done].
Qed.

(** Within the context precision the product is exact and the outcome
    is the floor of [value * m * 10^e]. *)
Lemma apply_discount_exact (value m e : Z) :
  0 <= value → 0 < m → Etiny <= e <= 0 → value * m < 10 ^ 28 →
  apply_discount value (mkDecimal false m e) = Ok (value * m / 10 ^ (- e)).
Proof.
  intros Hv Hm He Hlt.
  assert (HT : Etiny = -1000026) by reflexivity.
  assert (HP : Etop = 999972) by reflexivity.
  unfold apply_discount, mul, of_int. cbn [d_exp d_int d_sign].
  replace (value <? 0) with false by (symmetry; apply Z.ltb_ge; lia).
  rewrite Z.abs_eq by lia. replace (0 + e) with e by lia.
  rewrite fix_representable; [|split; nia|rewrite HP; lia].
  cbn [rbind]. rewrite quantize_down_one; [|split; nia|lia].
  cbn [rbind]. unfold to_int, xorb. cbn [d_exp d_int d_sign]. simpl (0 <=? 0).
  cbv iota. rewrite Z.pow_0_r, Z.mul_1_r. done.
Qed.

(** A tolerance in (0, 1] never yields more than the assumed output. *)
Lemma floor_bounds (value m e : Z) :
  0 <= value → 0 < m → e <= 0 → m <= 10 ^ (- e) →
  0 <= value * m / 10 ^ (- e) <= value.
Proof.
  intros Hv Hm He Hle.
  assert (Hp : 0 < 10 ^ (- e)) by (apply Z.pow_pos_nonneg; lia).
  split; [apply Z.div_pos; nia|].
  apply Z.div_le_upper_bound; nia.
Qed.

End decimal_facts.

(** ** The state-and-exception monad *)

Section monad_facts.

Lemma bind_lift {A B} (r : result A) (k : A → M B) (w : World) :
  bind (lift r) k w = match r with Ok a => k a w | Raise e => (Raise e, w) end.
Proof. by destruct r. Qed.

Lemma bind_ok {A B} (m : M A) (k : A → M B) (w w' : World) (b : B) :
  bind m k w = (Ok b, w') → ∃ a w1, m w = (Ok a, w1) ∧ k a w1 = (Ok b, w').
Proof.
  unfold bind. destruct (m w) as [[a|e] w1]; [eauto|discriminate].
Qed.

(** A property of the loop state that every iteration keeps holds
    when the loop ends. *)
Lemma for_each_inv {A S} (P : S → Prop) (body : S → A → M S) (l : list A) :
  (∀ s x w s' w', P s → body s x w = (Ok s', w') → P s') →
  ∀ s w s' w', P s → for_each body l s w = (Ok s', w') → P s'.
Proof.
  intros Hbody. induction l as [|x l IH]; intros s w s' w' Hs Hrun.
  - injection Hrun as <- <-. done.
  - simpl in Hrun. apply bind_ok in Hrun as (s1 & w1 & H1 & H2). eauto.
Qed.

End monad_facts.

Section cache_facts.
Context `{Web3Lib}.

Lemma record_call_coherent c w web3 :
  cache_coherent w web3 → cache_coherent (snd (record_call c w)) web3.
Proof. done. Qed.

Lemma get_or_create_coherent web3 token_address w :
  cache_coherent w web3 →
  ∃ w', _get_or_create_contract web3 token_address w
        = ((let? a := checksum token_address in
            Ok {| contract_w3 := web3; contract_address := a |}), w')
        ∧ cache_coherent w' web3.
Proof.
  intros Hw. unfold _get_or_create_contract. rewrite bind_lift.
  destruct (checksum token_address) as [a|e]; [|by eauto]. cbn [rbind].
  destruct (_CONTRACT_CACHE w !! (obj_id web3, a)) as [c|] eqn:E.
  - rewrite (Hw _ _ E). eauto.
  - eexists. split; [done|]. intros a' c'. cbn [_CONTRACT_CACHE].
    rewrite lookup_insert. case_decide as Hk.
    + injection Hk as <-. by intros [= <-].
    + apply Hw.
Qed.

Lemma get_contract_coherent web3 token_address w :
  cache_coherent w web3 →
  ∃ w', get_contract web3 token_address w
        = ((let? _ := ensure_web3_connected web3 None in
            let? a := checksum token_address in
            Ok {| contract_w3 := web3; contract_address := a |}), w')
        ∧ cache_coherent w' web3.
Proof.
  intros Hw. unfold get_contract. rewrite bind_lift.
  destruct (ensure_web3_connected web3 None) as [[]|e]; [|by eauto].
  by apply get_or_create_coherent.
Qed.

Lemma balance_of_coherent web3 token_address owner w :
  cache_coherent w web3 →
  ∃ w', balance_of web3 token_address owner w = (chain_balance web3 token_address owner, w')
        ∧ cache_coherent w' web3.
Proof.
  intros Hw. unfold balance_of, chain_balance, bind at 1.
  destruct (get_contract_coherent web3 token_address w Hw) as (w1 & -> & Hw1).
  destruct (ensure_web3_connected web3 None) as [[]|e]; [|by eauto]. cbn [rbind].
  destruct (checksum token_address) as [a|e]; [|by eauto]. cbn [rbind].
  rewrite bind_lift.
  destruct (checksum owner) as [o|e]; [|by eauto]. cbn [rbind].
  unfold bind, record_call, lift. cbn [contract_w3 contract_address]. eauto.
Qed.

Lemma allowance_of_coherent web3 token_address owner spender w :
  cache_coherent w web3 →
  ∃ w', allowance_of web3 token_address owner spender w
        = (chain_allowance web3 token_address owner spender, w')
        ∧ cache_coherent w' web3.
Proof.
  intros Hw. unfold allowance_of, chain_allowance, bind at 1.
  destruct (get_contract_coherent web3 token_address w Hw) as (w1 & -> & Hw1).
  destruct (ensure_web3_connected web3 None) as [[]|e]; [|by eauto]. cbn [rbind].
  destruct (checksum token_address) as [a|e]; [|by eauto]. cbn [rbind].
  rewrite bind_lift.
  destruct (checksum owner) as [o|e]; [|by eauto]. cbn [rbind].
  rewrite bind_lift.
  destruct (checksum spender) as [sp|e]; [|by eauto]. cbn [rbind].
  unfold bind, record_call, lift. cbn [contract_w3 contract_address]. eauto.
Qed.

End cache_facts.

(** ** Coherence is kept by every operation on the connection

    so each stage of a plan starts from a cache that is still bound to
    the connection the plan was started with. *)

Create HintDb coherent.

Section frame_facts.
Context `{Web3Lib} (web3 : Web3).

Lemma keeps_ret {A} (a : A) : keeps_coherent web3 (ret a).
Proof. by intros w Hw. Qed.

Lemma keeps_lift {A} (r : result A) : keeps_coherent web3 (lift r).
Proof. by intros w Hw. Qed.

Lemma keeps_record_call c : keeps_coherent web3 (record_call c).
Proof. by intros w Hw. Qed.

Lemma keeps_bind {A B} (m : M A) (k : A → M B) :
  keeps_coherent web3 m → (∀ a, keeps_coherent web3 (k a)) →
  keeps_coherent web3 (bind m k).
Proof.
  intros Hm Hk w Hw. unfold bind. specialize (Hm w Hw).
  destruct (m w) as [[a|e] w1]; [by apply Hk|done].
Qed.

Lemma keeps_try {A} (m : M A) : keeps_coherent web3 m → keeps_coherent web3 (try_ m).
Proof.
  intros Hm w Hw. unfold try_. specialize (Hm w Hw). by destruct (m w).
Qed.

Lemma keeps_for_each {A S} (body : S → A → M S) (l : list A) :
  (∀ s x, keeps_coherent web3 (body s x)) → ∀ s, keeps_coherent web3 (for_each body l s).
Proof.
  intros Hbody. induction l as [|x l IH]; intros s; cbn [for_each].
  - apply keeps_ret.
  - by apply keeps_bind.
Qed.

Lemma keeps_balance_of token_address owner :
  keeps_coherent web3 (balance_of web3 token_address owner).
Proof.
  intros w Hw.
  by destruct (balance_of_coherent web3 token_address owner w Hw) as (w1 & -> & Hw1).
Qed.

Lemma keeps_allowance_of token_address owner spender :
  keeps_coherent web3 (allowance_of web3 token_address owner spender).
Proof.
  intros w Hw.
  by destruct (allowance_of_coherent web3 token_address owner spender w Hw)
    as (w1 & -> & Hw1).
Qed.

#[local] Hint Resolve keeps_ret keeps_lift keeps_record_call keeps_try keeps_for_each
  keeps_balance_of keeps_allowance_of : coherent.

Lemma keeps_call_quote quote_fn config req :
  keeps_coherent web3 (call_quote quote_fn config req).
Proof. unfold call_quote. apply keeps_bind; auto with coherent. Qed.

Lemma keeps_call_jumper jumper_fn config req :
  keeps_coherent web3 (call_jumper jumper_fn config req).
Proof. unfold call_jumper. apply keeps_bind; auto with coherent. Qed.

#[local] Hint Resolve keeps_call_quote keeps_call_jumper : coherent.

Lemma keeps_swap_visit config chwomper_address contract_address quote_fn st token :
  keeps_coherent web3
    (swap_visit config web3 chwomper_address contract_address quote_fn st token).
Proof.
  unfold swap_visit. apply keeps_bind; [auto with coherent|]. intros b.
  destruct (b =? 0); [auto with coherent|].
  apply keeps_bind; [auto with coherent|]. intros [q|e]; [|auto with coherent].
  destruct (_ <? _); [auto with coherent|].
  apply keeps_bind; auto with coherent.
Qed.

Lemma keeps_build_swap_parameters config chwomper_address contract_address quote_fn :
  keeps_coherent web3
    (build_swap_parameters config web3 chwomper_address contract_address quote_fn).
Proof.
  unfold build_swap_parameters. apply keeps_bind; [auto with coherent|]. intros _.
  destruct (_iter_whitelisted_tokens _); [auto with coherent|].
  apply keeps_bind.
  - apply keeps_for_each. intros. apply keeps_swap_visit.
  - intros st. destruct (l_input_tokens st); auto with coherent.
Qed.

Lemma keeps_validate_swap_inputs config input_tokens output_tokens executors :
  keeps_coherent web3
    (validate_swap_inputs config web3 input_tokens output_tokens executors).
Proof.
  unfold validate_swap_inputs. apply keeps_bind; [auto with coherent|]. intros _.
  destruct input_tokens, output_tokens, executors; auto with coherent.
  all: apply keeps_for_each; intros results [[token amount] transfer_to].
  all: unfold validate_token.
  all: apply keeps_bind; [auto with coherent|]; intros b.
  all: apply keeps_bind; [auto with coherent|]; intros a.
  all: apply keeps_bind; [auto with coherent|]; intros cs.
  all: destruct (b <? amount); auto with coherent.
Qed.

Lemma keeps_build_bridge_call config contract_address min_total_usdc jumper_fn :
  keeps_coherent web3
    (build_bridge_call config web3 contract_address min_total_usdc jumper_fn).
Proof.
  unfold build_bridge_call.
  repeat (apply keeps_bind; [auto with coherent|]; intros ?).
  auto with coherent.
Qed.

End frame_facts.

(** ** The swap parameter builder *)

Section swap_facts.
Context `{Web3Lib}.
Context (config : RelayerConfig) (web3 : Web3).
Context (chwomper_address contract_address : string).
Context (quote_fn : RelayerConfig → QuoteRequest → result SushiQuoteResult).

Local Abbreviation visit := (swap_visit config web3 chwomper_address contract_address quote_fn).

Lemma sum_ints_snoc l x : sum_ints (l ++ [x]) = sum_ints l + x.
Proof. induction l as [|y l IH]; simpl; lia. Qed.

Lemma locals_inv_init : locals_inv config swap_locals0.
Proof. by split. Qed.

(** An iteration either leaves the locals alone or appends one token
    that passed every filter. *)
Lemma swap_visit_cases st token w st' w' :
  visit st token w = (Ok st', w') →
  st' = st
  ∨ ∃ b q m, b ≠ 0
      ∧ quote_fn config (quote_request config contract_address token b) = Ok q
      ∧ usdc_threshold (defaults config) <= sq_assumed_amount_out q
      ∧ apply_discount (sq_assumed_amount_out q) (slippage_tolerance (defaults config)) = Ok m
      ∧ st' = swap_append st token b q m.
Proof.
  unfold swap_visit. intros Hrun.
  apply bind_ok in Hrun as (b & w1 & _ & Hrun).
  destruct (b =? 0) eqn:Eb; [injection Hrun as <- <-; by left|].
  apply Z.eqb_neq in Eb.
  unfold bind at 1, try_, call_quote, bind at 1, record_call, lift at 1 in Hrun.
  destruct (quote_fn config (quote_request config contract_address token b)) as [q|e] eqn:Eq;
    [|injection Hrun as <- <-; by left].
  destruct (sq_assumed_amount_out q <? usdc_threshold (defaults config)) eqn:Et;
    [injection Hrun as <- <-; by left|].
  apply Z.ltb_ge in Et. rewrite bind_lift in Hrun.
  destruct (apply_discount _ _) as [m|e] eqn:Em; [|discriminate].
  injection Hrun as <- <-. right. by exists b, q, m.
Qed.

Lemma swap_visit_inv st token w st' w' :
  locals_inv config st → visit st token w = (Ok st', w') → locals_inv config st'.
Proof.
  intros [H1 H2 H3 H4 H5] Hrun.
  apply swap_visit_cases in Hrun as [->|(b & q & m & Hb & Hq & Ht & Hm & ->)]; [done|].
  split; cbn [swap_append l_input_tokens l_executors l_quotes_collected
              l_total_min l_total_assumed].
  - rewrite map_app, H1. done.
  - rewrite map_app, H2. done.
  - rewrite map_app. cbn [map]. rewrite sum_ints_snoc, H3. done.
  - rewrite map_app. cbn [map]. rewrite sum_ints_snoc, H4. done.
  - apply Forall_app. split; [done|]. by repeat constructor.
Qed.

(** Whatever [build_swap_parameters] returns is assembled from locals
    that satisfy the invariant. *)
Lemma build_swap_parameters_ok w r w' :
  build_swap_parameters config web3 chwomper_address contract_address quote_fn w = (Ok r, w') →
  ∃ st, locals_inv config st
    ∧ l_input_tokens st ≠ []
    ∧ r = {| input_tokens := l_input_tokens st;
             output_tokens :=
               [(usdc_address (base_contracts config), contract_address, l_total_min st)];
             executors := l_executors st;
             min_total_usdc := l_total_min st;
             assumed_total_usdc := l_total_assumed st;
             token_quotes := l_quotes_collected st |}.
Proof.
  unfold build_swap_parameters. rewrite bind_lift.
  destruct (ensure_web3_connected _ _) as [[]|e]; [|discriminate].
  destruct (_iter_whitelisted_tokens _) as [|t ts]; [discriminate|].
  intros Hrun. apply bind_ok in Hrun as (st & w1 & Hloop & Hrun).
  exists st. split.
  { eapply for_each_inv; [|apply locals_inv_init|apply Hloop].
    intros. by eapply swap_visit_inv. }
  destruct (l_input_tokens st) eqn:E; [discriminate|].
  injection Hrun as <- <-. done.
Qed.

(** A skipped token costs the loop nothing but the reads. *)
Lemma swap_visit_skipped st token w :
  cache_coherent w web3 →
  token_skipped config web3 chwomper_address contract_address quote_fn token →
  ∃ w', visit st token w = (Ok st, w') ∧ cache_coherent w' web3.
Proof.
  intros Hw (b & Hb & Hcases). unfold swap_visit, bind at 1.
  destruct (balance_of_coherent web3 (address token) chwomper_address w Hw) as (w1 & -> & Hw1).
  rewrite Hb.
  destruct Hcases as [->|[(Hb0 & e & He)|(Hb0 & q & Hq & Hlt)]].
  - simpl. eauto.
  - rewrite (proj2 (Z.eqb_neq b 0)) by done.
    unfold bind, try_, call_quote, bind, record_call, lift. rewrite He. eauto.
  - rewrite (proj2 (Z.eqb_neq b 0)) by done.
    unfold bind, try_, call_quote, bind, record_call, lift. rewrite Hq.
    rewrite (proj2 (Z.ltb_lt _ _)) by done. eauto.
Qed.

Lemma for_each_skipped tokens st w :
  cache_coherent w web3 →
  Forall (token_skipped config web3 chwomper_address contract_address quote_fn) tokens →
  ∃ w', for_each visit tokens st w = (Ok st, w') ∧ cache_coherent w' web3.
Proof.
  intros Hw Hall. revert w Hw.
  induction Hall as [|t ts Ht _ IH]; intros w Hw; [by eexists|].
  destruct (swap_visit_skipped st t w Hw Ht) as (w1 & Hv & Hw1).
  cbn [for_each]. unfold bind. rewrite Hv. by apply IH.
Qed.

Lemma insert_by_symbol_Forall (P : TokenConfig → Prop) t l :
  P t → Forall P l → Forall P (insert_by_symbol t l).
Proof.
  intros Ht Hl. induction Hl as [|x l Hx Hl IH]; simpl; [by repeat constructor|].
  destruct (String.leb _ _); by repeat constructor.
Qed.

Lemma iter_whitelisted_Forall (P : TokenConfig → Prop) l :
  Forall P l → Forall P (_iter_whitelisted_tokens l).
Proof.
  induction 1; simpl; [constructor|]. by apply insert_by_symbol_Forall.
Qed.

Lemma insert_by_symbol_nonempty t l : insert_by_symbol t l ≠ [].
Proof. destruct l; simpl; [done|]. by destruct (String.leb _ _). Qed.

Lemma iter_whitelisted_nonempty l : l ≠ [] → _iter_whitelisted_tokens l ≠ [].
Proof. destruct l; [done|]. intros _. apply insert_by_symbol_nonempty. Qed.

End swap_facts.

(** ** Integer literals and hex payloads *)

Section literal_facts.

Lemma digit_value_nonneg c : 0 <= digit_value c.
Proof.
  unfold digit_value. repeat case_match; lia.
Qed.

Lemma scan_digits_nonneg base s : ∀ acc prev mag rest,
  0 <= base → 0 <= acc → scan_digits base acc prev s = Some (mag, rest) → 0 <= mag.
Proof.
  induction s as [|c s IH]; intros acc prev mag rest Hb Ha Hs; simpl in Hs.
  - destruct prev; try discriminate. by injection Hs as <- _.
  - destruct (Ascii.eqb c "_").
    + destruct prev; try discriminate. eauto.
    + destruct (digit_value c <? base).
      * eapply IH; [done| |done]. pose proof (digit_value_nonneg c). nia.
      * destruct prev; try discriminate. by injection Hs as <- _.
Qed.

(** A parsed literal is negative only if it was written with a minus
    sign. *)
Lemma parse_int_sign base s z :
  0 <= base → parse_int base s = Ok z →
  if fst (split_sign (lstrip s)) then z <= 0 else 0 <= z.
Proof.
  intros Hb. unfold parse_int.
  destruct (split_sign (lstrip s)) as [neg body]. cbn [fst].
  destruct (scan_digits _ _ _ _) as [[mag rest]|] eqn:Es; [|discriminate].
  apply scan_digits_nonneg in Es; [|done|lia].
  destruct (all_space rest); [|discriminate].
  intros [= <-]. destruct neg; lia.
Qed.

Lemma parse_text_ok base s z :
  parse_text base s = Ok z → parse_int base (int_text s) = Ok z.
Proof. unfold parse_text. by destruct (parse_int base (int_text s)). Qed.

Lemma int_base16_sign v z :
  int_base16 v = Ok z → if literal_has_minus v then z <= 0 else 0 <= z.
Proof.
  destruct v as [s|b|n|]; try discriminate; cbn [int_base16 literal_has_minus].
  - intros Hp%parse_text_ok. by apply parse_int_sign in Hp.
  - by apply parse_int_sign.
Qed.

Lemma fromhex_at_byte_hex position x s :
  fromhex_at position (byte_hex x +:+ s)
  = let? tl := fromhex_at (S (S position)) s in Ok (x :: tl).
Proof. destruct x; reflexivity. Qed.

Lemma first_non_ascii_byte_hex position x s :
  first_non_ascii position (byte_hex x +:+ s) = first_non_ascii (S (S position)) s.
Proof. destruct x; reflexivity. Qed.

Lemma fromhex_at_hex b : ∀ position, fromhex_at position (bytes_hex b) = Ok b.
Proof.
  induction b as [|x b IH]; intros position; [done|]. cbn [bytes_hex].
  by rewrite fromhex_at_byte_hex, IH.
Qed.

Lemma first_non_ascii_hex b : ∀ position, first_non_ascii position (bytes_hex b) = None.
Proof.
  induction b as [|x b IH]; intros position; [done|]. cbn [bytes_hex].
  by rewrite first_non_ascii_byte_hex, IH.
Qed.

Lemma bytes_fromhex_hex b : bytes_fromhex (bytes_hex b) = Ok b.
Proof. unfold bytes_fromhex. by rewrite first_non_ascii_hex, fromhex_at_hex. Qed.

(** [bytes.hex()] never begins with [0x], so [hex_to_bytes] reads back
    exactly the bytes that were printed. *)
Lemma hex_to_bytes_hex b : hex_to_bytes (bytes_hex b) = Ok b.
Proof.
  destruct b as [|x b]; [done|].
  rewrite <- (bytes_fromhex_hex (x :: b)). unfold hex_to_bytes. cbn [bytes_hex].
  destruct x; reflexivity.
Qed.

End literal_facts.

(** ** The bridge parameter builder *)

Section bridge_facts.
Context `{Web3Lib}.
Context (config : RelayerConfig) (web3 : Web3) (contract_address : string).
Context (min_total_usdc : Z).
Context (jumper_fn : RelayerConfig → JumperRequest → result JumperDetails).

Lemma build_bridge_call_ok w r :
  fst (build_bridge_call config web3 contract_address min_total_usdc jumper_fn w) = Ok r →
  bridge_built config web3 contract_address min_total_usdc jumper_fn w r.
Proof.
  unfold build_bridge_call. rewrite bind_lift.
  destruct (ensure_web3_connected _ _) as [[]|e]; [|discriminate].
  unfold bind at 1.
  destruct (balance_of web3 (usdc_address (base_contracts config)) contract_address w)
    as [[b|e] w1] eqn:Eb; [|discriminate].
  unfold bind at 1, call_jumper, bind at 1, record_call, lift at 1.
  destruct (jumper_fn _ _) as [jd|e] eqn:Ej; [|discriminate].
  rewrite bind_lift. destruct (jd_transaction jd) as [tx|] eqn:Etx; [|discriminate].
  cbn [require_key]. rewrite bind_lift.
  destruct (tx_to tx) as [to|] eqn:Eto; [|discriminate]. cbn [require_key].
  rewrite bind_lift. destruct (to_checksum_address to) as [target|e] eqn:Et; [|discriminate].
  rewrite bind_lift. destruct (tx_data tx) as [data|] eqn:Ed; [|discriminate].
  cbn [require_key]. rewrite bind_lift.
  destruct (hex_to_bytes_val data) as [cd|e] eqn:Ecd; [|discriminate].
  rewrite bind_lift. destruct (tx_value tx) as [value|] eqn:Ev; [|discriminate].
  cbn [require_key]. rewrite bind_lift.
  destruct (int_base16 value) as [nv|e] eqn:Env; [|discriminate].
  cbn [ret fst]. intros [= <-]. split; cbn; try done.
  - by rewrite Eb.
  - by exists tx, to, data, value.
Qed.

(** The builder returns whenever the node, the quote service and the
    three envelope fields can be read; it never looks at which address
    the target is. *)
Lemma build_bridge_call_returns w b jd tx to data value target cd nv :
  ensure_web3_connected web3 (Some (chain_id (base_chain config))) = Ok () →
  fst (balance_of web3 (usdc_address (base_contracts config)) contract_address w) = Ok b →
  jumper_fn config {| jr_amount := b + min_total_usdc;
                      jr_from_address := contract_address;
                      jr_to_address := mainnet_recipient (addresses config) |} = Ok jd →
  jd_transaction jd = Some tx →
  tx_to tx = Some to → to_checksum_address to = Ok target →
  tx_data tx = Some data → hex_to_bytes_val data = Ok cd →
  tx_value tx = Some value → int_base16 value = Ok nv →
  fst (build_bridge_call config web3 contract_address min_total_usdc jumper_fn w)
  = Ok {| call_target := target; call_data := cd; native_value := nv;
          bridge_amount := b + min_total_usdc; contract_usdc_balance := b;
          br_min_total_usdc := min_total_usdc; jumper_payload := jd |}.
Proof.
  intros Hc Hb Hj Htx Hto Ht Hd Hcd Hv Hnv.
  unfold build_bridge_call. rewrite bind_lift, Hc. unfold bind at 1.
  destruct (balance_of web3 (usdc_address (base_contracts config)) contract_address w)
    as [[b'|e] w1]; cbn [fst] in Hb; [|discriminate].
  injection Hb as ->.
  unfold bind at 1, call_jumper, bind at 1, record_call, lift at 1. rewrite Hj.
  rewrite bind_lift, Htx. cbn [require_key].
  rewrite bind_lift, Hto. cbn [require_key].
  rewrite bind_lift, Ht, bind_lift, Hd. cbn [require_key].
  rewrite bind_lift, Hcd, bind_lift, Hv. cbn [require_key].
  rewrite bind_lift, Hnv. done.
Qed.

End bridge_facts.

(** ** Validation *)

Section validation_facts.
Context `{Web3Lib}.
Context (config : RelayerConfig) (web3 : Web3).

Local Abbreviation check := (validate_token config web3 (_address_symbol_map config)).

Lemma validate_token_ok results it w res w' :
  cache_coherent w web3 →
  check results it w = (Ok res, w') →
  cache_coherent w' web3
  ∧ ∃ r, res = (results ++ [r])%list ∧ validated_as config web3 it r.
Proof.
  intros Hw. destruct it as [[token amount] transfer_to].
  unfold validate_token, bind at 1.
  destruct (balance_of_coherent web3 token (chwmper_address (base_contracts config)) w Hw)
    as (w1 & -> & Hw1).
  destruct (chain_balance _ _ _) as [b|e] eqn:Eb; [|discriminate].
  unfold bind at 1.
  destruct (allowance_of_coherent web3 token (chwmper_address (base_contracts config))
              (revenue_bridger_address (base_contracts config)) w1 Hw1) as (w2 & -> & Hw2).
  destruct (chain_allowance _ _ _ _) as [a|e] eqn:Ea; [|discriminate].
  rewrite bind_lift.
  destruct (checksum token) as [cs|e] eqn:Ecs; [|discriminate].
  destruct (b <? amount) eqn:Elt; [discriminate|]. apply Z.ltb_ge in Elt.
  intros [= <- <-]. split; [done|].
  eexists. split; [done|]. by repeat split.
Qed.

Lemma validate_loop_ok its : ∀ results w res w',
  cache_coherent w web3 →
  for_each check its results w = (Ok res, w') →
  ∃ new, res = (results ++ new)%list ∧ Forall2 (validated_as config web3) its new.
Proof.
  induction its as [|it its IH]; intros results w res w' Hw Hrun.
  - injection Hrun as <- <-. exists []. by rewrite app_nil_r.
  - cbn [for_each] in Hrun. apply bind_ok in Hrun as (res1 & w1 & H1 & H2).
    apply validate_token_ok in H1 as (Hw1 & r & -> & Hr); [|done].
    apply IH in H2 as (new & -> & Hnew); [|done].
    exists (r :: new). split; [by rewrite <- app_assoc|by constructor].
Qed.

Lemma chain_balance_checksum token owner b :
  chain_balance web3 token owner = Ok b → ∃ cs, checksum token = Ok cs.
Proof.
  unfold chain_balance. destruct (ensure_web3_connected _ _); [|discriminate].
  cbn [rbind]. destruct (checksum token); [eauto|discriminate].
Qed.

Lemma validate_loop_returns its : ∀ results w,
  cache_coherent w web3 →
  Forall (token_funded config web3) its →
  ∃ res w', for_each check its results w = (Ok res, w').
Proof.
  induction its as [|it its IH]; intros results w Hw Hall; [by eexists _, _|].
  apply Forall_cons in Hall as [(b & a & Hb & Ha & Hle) Hall].
  destruct it as [[token amount] transfer_to]. cbn [fst snd] in *.
  cbn [for_each]. unfold bind at 1, validate_token, bind at 1.
  destruct (balance_of_coherent web3 token (chwmper_address (base_contracts config)) w Hw)
    as (w1 & -> & Hw1).
  rewrite Hb. unfold bind at 1.
  destruct (allowance_of_coherent web3 token (chwmper_address (base_contracts config))
              (revenue_bridger_address (base_contracts config)) w1 Hw1) as (w2 & -> & Hw2).
  rewrite Ha, bind_lift.
  destruct (chain_balance_checksum _ _ _ Hb) as (cs & ->).
  rewrite (proj2 (Z.ltb_ge b amount)) by done. cbn [ret].
  by apply IH.
Qed.

End validation_facts.

(** ** The route quote decoder *)

Section decoder_facts.
Context `{Web3Lib}.

Lemma normalize_executor_checksummed e x :
  normalize_executor e = Ok x → checksum (ex_executor x) = Ok (ex_executor x).
Proof.
  unfold normalize_executor.
  destruct (match e with EntryDict _ => _ | EntryTuple _ => _ end) as [d|]; [|discriminate].
  cbn [rbind]. destruct (dict_get d "executor") as [a|]; [|discriminate]. cbn [rbind].
  destruct (to_checksum_address a) as [cs|] eqn:Ecs; [|discriminate]. cbn [rbind].
  destruct (dict_get d "value") as [v|]; [|discriminate]. cbn [rbind].
  destruct (py_int v) as [n|]; [|discriminate]. cbn [rbind].
  destruct (dict_get d "data") as [dt|]; [|discriminate]. cbn [rbind].
  destruct (data_as_hex dt) as [hx|]; [|discriminate]. cbn [rbind].
  intros [= <-]. cbn [ex_executor]. unfold checksum.
  by eapply to_checksum_address_fixed.
Qed.

Lemma normalize_executors_checksummed l xs :
  normalize_executors l = Ok xs →
  Forall (λ x, checksum (ex_executor x) = Ok (ex_executor x)) xs.
Proof.
  revert xs. induction l as [|e l IH]; intros xs; cbn [normalize_executors].
  - intros [= <-]. constructor.
  - destruct (normalize_executor e) as [x|] eqn:Ex; [|discriminate]. cbn [rbind].
    destruct (normalize_executors l) as [tl|]; [|discriminate]. cbn [rbind].
    intros [= <-]. constructor; [by eapply normalize_executor_checksummed|by apply IH].
Qed.

(** What a successful multi-execution decode was built from. *)
Lemma decode_snwap_multiple_ok raw_data multi :
  _decode_snwap_multiple raw_data = Ok multi →
  ∃ raw params entries,
    hex_to_bytes raw_data = Ok raw
    ∧ decode_snwagger_input raw = Ok params
    ∧ mp_executors params = Some entries
    ∧ normalize_executors entries = Ok (md_executors multi).
Proof.
  unfold _decode_snwap_multiple.
  destruct (hex_to_bytes raw_data) as [raw|] eqn:Eraw; [|discriminate]. cbn [rbind].
  destruct (decode_snwagger_input raw) as [params|] eqn:Ep; [|discriminate]. cbn [rbind].
  destruct (mp_inputTokens params); [|discriminate]. cbn [rbind require_key].
  destruct (mp_outputTokens params); [|discriminate]. cbn [rbind require_key].
  destruct (mp_executors params) as [entries|] eqn:Ee; [|discriminate].
  cbn [rbind require_key].
  destruct (normalize_executors entries) as [xs|] eqn:Ex; [|discriminate]. cbn [rbind].
  intros [= <-]. by exists raw, params, entries.
Qed.

Lemma decode_snwap_multiple_checksummed raw_data multi :
  _decode_snwap_multiple raw_data = Ok multi →
  Forall (λ x, checksum (ex_executor x) = Ok (ex_executor x)) (md_executors multi).
Proof.
  intros (raw & params & entries & _ & _ & _ & Hn)%decode_snwap_multiple_ok.
  by eapply normalize_executors_checksummed.
Qed.

(** Both decoders report every failure as one [ValueError]. *)
Lemma decode_snwap_multiple_error raw_data e :
  _decode_snwap_multiple raw_data = Raise e → exc_class e = ValueError.
Proof.
  unfold _decode_snwap_multiple. destruct (rbind _ _); [discriminate|].
  by intros [= <-].
Qed.

Lemma decode_snwap_error raw_data e :
  _decode_snwap raw_data = Raise e →
  exc_class e = ValueError ∧ ∃ cause, exc_cause e = Some cause.
Proof.
  unfold _decode_snwap. destruct (rbind _ _); [discriminate|].
  intros [= <-]. eauto.
Qed.

(** The stored payload of either shape reads back as the decoded bytes. *)
Lemma data_as_hex_bytes payload hx :
  data_as_hex (VBytes payload) = Ok hx → hex_to_bytes hx = Ok payload.
Proof. intros [= <-]. apply hex_to_bytes_hex. Qed.

Lemma decode_snwap_payload raw_data single :
  _decode_snwap raw_data = Ok single →
  ∃ raw params,
    hex_to_bytes raw_data = Ok raw
    ∧ decode_snwap_input raw = Ok params
    ∧ checksum (sp_executor params) = Ok (sd_executor single)
    ∧ hex_to_bytes (sd_executorData single) = Ok (sp_executorData params).
Proof.
  unfold _decode_snwap.
  destruct (hex_to_bytes raw_data) as [raw|] eqn:Eraw; [|discriminate]. cbn [rbind].
  destruct (decode_snwap_input raw) as [params|] eqn:Ep; [|discriminate]. cbn [rbind].
  destruct (checksum (sp_executor params)) as [a|] eqn:Ea; [|discriminate]. cbn [rbind].
  intros [= <-]. exists raw, params. repeat split; try done. cbn [sd_executorData].
  destruct (sp_executorData params) as [|x b] eqn:Eb; [done|].
  apply (hex_to_bytes_hex (x :: b)).
Qed.

End decoder_facts.

(** ** The contract-handle cache *)

Section handle_cache_facts.
Context `{Web3Lib}.

(** What one call does to the cache: the handle it returns sits under
    the key made of the connection object's identity and the
    checksummed address, and no other key is touched. *)
Lemma get_or_create_key web3 token_address w c w' :
  _get_or_create_contract web3 token_address w = (Ok c, w') →
  ∃ a, checksum token_address = Ok a
    ∧ _CONTRACT_CACHE w' !! (obj_id web3, a) = Some c
    ∧ (∀ k, k ≠ (obj_id web3, a) → _CONTRACT_CACHE w' !! k = _CONTRACT_CACHE w !! k)
    ∧ (∀ c0, _CONTRACT_CACHE w !! (obj_id web3, a) = Some c0 → c = c0 ∧ w' = w)
    ∧ (_CONTRACT_CACHE w !! (obj_id web3, a) = None →
       c = {| contract_w3 := web3; contract_address := a |}).
Proof.
  unfold _get_or_create_contract. rewrite bind_lift.
  destruct (checksum token_address) as [a|]; [|discriminate].
  destruct (_CONTRACT_CACHE w !! (obj_id web3, a)) as [c0|] eqn:E.
  - intros [= <- <-]. exists a. repeat split; try done; try congruence.
  - intros [= <- <-]. exists a. cbn [_CONTRACT_CACHE]. split; [done|].
    split; [by rewrite lookup_insert_eq|].
    split; [intros k Hk; by rewrite lookup_insert_ne|].
    split; [intros c0 Hc; congruence|done].
Qed.

Lemma get_or_create_keyed web3 token_address w c w' :
  cache_keyed w →
  _get_or_create_contract web3 token_address w = (Ok c, w') →
  cache_keyed w' ∧ obj_id (contract_w3 c) = obj_id web3.
Proof.
  intros Hw Hrun.
  destruct (get_or_create_key _ _ _ _ _ Hrun) as (a & Ha & Hc & Hother & Hhit & Hmiss).
  destruct (_CONTRACT_CACHE w !! (obj_id web3, a)) as [c0|] eqn:E.
  - destruct (Hhit c0 eq_refl) as [-> ->]. split; [done|]. by destruct (Hw _ _ _ E).
  - rewrite (Hmiss eq_refl) in *. split; [|done].
    intros i a' c' Hl. destruct (decide ((i, a') = (obj_id web3, a))) as [[= -> ->]|Hne].
    + rewrite Hc in Hl. by injection Hl as <-.
    + rewrite Hother in Hl by done. by apply Hw.
Qed.

End handle_cache_facts.

(** ** A returned route quote *)

Section request_facts.
Context `{Web3Lib}.

(** A returned quote carries what [route_executor] settled on: the
    executor address as is, the stored payload read back into bytes. *)
Lemma request_swap_route_ok http_get web3_factory config req q :
  request_swap_route http_get web3_factory config req = Ok q →
  ∃ tx_data hx,
    route_executor tx_data = Ok (sq_executor q, hx)
    ∧ hex_to_bytes hx = Ok (sq_executor_data q).
Proof.
  unfold request_swap_route.
  destruct (checksum (qr_token_in req)); [|discriminate]. cbn [rbind].
  destruct (checksum (qr_token_out req)); [|discriminate]. cbn [rbind].
  destruct (checksum (qr_sender req)); [|discriminate]. cbn [rbind].
  destruct (match qr_recipient req with Some _ => _ | None => _ end); [|discriminate].
  cbn [rbind]. destruct (http_get _ _ _) as [|[payload|]]; try discriminate.
  cbn [rbind]. destruct (negb _); [discriminate|].
  destruct (pl_tx_data payload) as [tx_data|]; [|discriminate].
  destruct tx_data as [|c tx_data]; [discriminate|].
  destruct (route_executor (String c tx_data)) as [[exec_addr hx]|] eqn:Er; [|discriminate].
  cbn [rbind fst snd].
  destruct (ensure_rpc_url _); [|discriminate]. cbn [rbind].
  destruct (ensure_web3_connected _ _); [|discriminate]. cbn [rbind].
  destruct (hex_to_bytes hx) as [data|] eqn:Eh; [|discriminate]. cbn [rbind].
  destruct (require_key (pl_amountIn payload) _); [|discriminate]. cbn [rbind].
  destruct (py_int _); [|discriminate]. cbn [rbind].
  destruct (require_key (pl_assumedAmountOut payload) _); [|discriminate]. cbn [rbind].
  destruct (py_int _); [|discriminate]. cbn [rbind].
  intros [= <-]. cbn [sq_executor sq_executor_data]. eauto.
Qed.

End request_facts.

(** * The claims *)

(** C1, evaluated on the code: a route quote assuming 2*10^26 + 3
    units under tolerance 0.99.  The exact product
    198000000000000000000000002.97 has 29 significant digits; the
    multiplication rounds it half-even to the context's 28 digits,
    which carries into the units, and [ROUND_DOWN] then has nothing
    left to truncate.  The plan's minimum is the floor plus one. *)
Theorem C1_min_out_above_floor_past_28_digits :
  let a := 200000000000000000000000003 in
  tolerance_in_range fixtures.tol_099
  ∧ a * 99 / 10 ^ 2 = 198000000000000000000000002
  ∧ apply_discount a fixtures.tol_099 = Ok 198000000000000000000000003
  ∧ ∃ r w',
      build_swap_parameters (H := fixtures.stub_lib) fixtures.config_big fixtures.node_A
        fixtures.CHWMPER fixtures.BRIDGER fixtures.quote_big world0 = (Ok r, w')
      ∧ map assumed_usdc_out (token_quotes r) = [a]
      ∧ map min_usdc_out (token_quotes r) = [198000000000000000000000003]
      ∧ min_total_usdc r = 198000000000000000000000003.
Proof.
  cbv zeta. split; [|split; [|split]].
  - repeat split; vm_compute; congruence.
  - reflexivity.
  - vm_compute. reflexivity.
  - eexists _, _. split; [vm_compute; reflexivity|]. repeat split.
Qed.

(** The slippage step on every plan, inside the context precision:
    when the product of the assumed output and the tolerance's
    coefficient stays below 10^28, the token's minimum is the exact
    floor and lies between zero and the assumed output. *)
Lemma min_out_is_floor_within_precision `{Web3Lib} config web3 chwomper_address
    contract_address quote_fn w r :
  fst (build_swap_parameters config web3 chwomper_address contract_address quote_fn w) = Ok r →
  0 < usdc_threshold (defaults config) →
  tolerance_in_range (slippage_tolerance (defaults config)) →
  Etiny <= d_exp (slippage_tolerance (defaults config)) →
  Forall (λ q,
    let m := d_int (slippage_tolerance (defaults config)) in
    let e := d_exp (slippage_tolerance (defaults config)) in
    assumed_usdc_out q * m < 10 ^ 28 →
    min_usdc_out q = assumed_usdc_out q * m / 10 ^ (- e)
    ∧ 0 <= min_usdc_out q <= assumed_usdc_out q) (token_quotes r).
Proof.
  destruct (build_swap_parameters _ _ _ _ _ w) as [res w'] eqn:Hrun. cbn [fst].
  intros -> Hthr (Hs & Hm & He & Hle) Het.
  apply build_swap_parameters_ok in Hrun as (st & [_ _ _ _ Hq] & _ & ->).
  cbn [token_quotes]. eapply Forall_impl; [apply Hq|].
  intros q (_ & Ha & Hd). cbv beta zeta.
  destruct (slippage_tolerance (defaults config)) as [s m e]. intros Hlt.
  cbn [d_sign d_int d_exp] in *. subst s.
  rewrite decimal_facts.apply_discount_exact in Hd by lia.
  injection Hd as <-. split; [done|].
  apply decimal_facts.floor_bounds; lia.
Qed.

(** C2: every plan carries exactly one OutputToken entry; its
    minAmountOut is the running total [min_total_usdc], which equals
    the sum of the minimums recorded for the tokens that were included,
    each being what the slippage step returned for that token. *)
Theorem C2_output_token_pools_minimums `{Web3Lib} config web3 chwomper_address
    contract_address quote_fn w r :
  fst (build_swap_parameters config web3 chwomper_address contract_address quote_fn w) = Ok r →
  output_tokens r
    = [(usdc_address (base_contracts config), contract_address, min_total_usdc r)]
  ∧ min_total_usdc r = sum_ints (map min_usdc_out (token_quotes r))
  ∧ input_tokens r = map (λ q, (token_address q, balance q, executor q)) (token_quotes r)
  ∧ Forall (λ q, apply_discount (assumed_usdc_out q) (slippage_tolerance (defaults config))
                 = Ok (min_usdc_out q)) (token_quotes r).
Proof.
  destruct (build_swap_parameters _ _ _ _ _ w) as [res w'] eqn:Hrun. cbn [fst].
  intros ->.
  apply build_swap_parameters_ok in Hrun as (st & [H1 _ H3 _ Hq] & _ & ->).
  cbn [output_tokens min_total_usdc token_quotes input_tokens].
  repeat split; try done.
  eapply Forall_impl; [apply Hq|]. by intros q (_ & _ & ?).
Qed.

(** C3: the bridge call's amount is the settlement-asset balance read
    for the destination contract plus the aggregate minimum passed in,
    for any two integers; both summands are stored unchanged in the
    result, and the quote was requested for exactly that sum.  The
    builder returns such a call whenever the node, the quote service
    and the envelope can be read. *)
Theorem C3_bridge_amount_is_balance_plus_minimum `{Web3Lib} config web3
    contract_address min_total jumper_fn w :
  cache_coherent w web3 →
  (∀ r, fst (build_bridge_call config web3 contract_address min_total jumper_fn w) = Ok r →
     chain_balance web3 (usdc_address (base_contracts config)) contract_address
       = Ok (contract_usdc_balance r)
     ∧ br_min_total_usdc r = min_total
     ∧ bridge_amount r = contract_usdc_balance r + br_min_total_usdc r
     ∧ jumper_fn config {| jr_amount := contract_usdc_balance r + min_total;
                           jr_from_address := contract_address;
                           jr_to_address := mainnet_recipient (addresses config) |}
       = Ok (jumper_payload r))
  ∧ (∀ b jd tx to data value target cd nv,
       ensure_web3_connected web3 (Some (chain_id (base_chain config))) = Ok () →
       chain_balance web3 (usdc_address (base_contracts config)) contract_address = Ok b →
       jumper_fn config {| jr_amount := b + min_total;
                           jr_from_address := contract_address;
                           jr_to_address := mainnet_recipient (addresses config) |} = Ok jd →
       jd_transaction jd = Some tx →
       tx_to tx = Some to → to_checksum_address to = Ok target →
       tx_data tx = Some data → hex_to_bytes_val data = Ok cd →
       tx_value tx = Some value → int_base16 value = Ok nv →
       fst (build_bridge_call config web3 contract_address min_total jumper_fn w)
       = Ok {| call_target := target; call_data := cd; native_value := nv;
               bridge_amount := b + min_total; contract_usdc_balance := b;
               br_min_total_usdc := min_total; jumper_payload := jd |}).
Proof.
  intros Hw.
  destruct (balance_of_coherent web3 (usdc_address (base_contracts config))
              contract_address w Hw) as (w1 & Hb & _).
  split.
  - intros r [Hbal Ham Hmin Hq _]%build_bridge_call_ok.
    rewrite Hb in Hbal. cbn [fst] in Hbal.
    rewrite Hmin, Ham. rewrite Ham in Hq. done.
  - intros b jd tx to data value target cd nv Hc Hcb. intros.
    eapply build_bridge_call_returns; try done.
    by rewrite Hb.
Qed.

(** C4: the InputToken and ExecutorCall arrays of a plan have the same
    length, and position by position they come from the same token's
    quote, so the i-th transferTo is the i-th executor address. *)
Theorem C4_inputs_and_executors_aligned `{Web3Lib} config web3 chwomper_address
    contract_address quote_fn w r :
  fst (build_swap_parameters config web3 chwomper_address contract_address quote_fn w) = Ok r →
  List.length (input_tokens r) = List.length (executors r)
  ∧ ∀ (i : nat) it ex,
      input_tokens r !! i = Some it → executors r !! i = Some ex →
      ∃ q, token_quotes r !! i = Some q
        ∧ it = (token_address q, balance q, executor q)
        ∧ ex = (executor q, 0, executor_data q)
        ∧ it.2 = ex.1.1.
Proof.
  destruct (build_swap_parameters _ _ _ _ _ w) as [res w'] eqn:Hrun. cbn [fst].
  intros ->.
  apply build_swap_parameters_ok in Hrun as (st & [H1 H2 _ _ _] & _ & ->).
  cbn [executors token_quotes input_tokens]. rewrite H1, H2. split.
  - by rewrite !length_map.
  - intros i it ex Hit Hex.
    change (map ?f ?l) with (f <$> l) in Hit, Hex.
    rewrite list_lookup_fmap in Hit. rewrite list_lookup_fmap in Hex.
    destruct (l_quotes_collected st !! i) as [q|]; [|discriminate].
    injection Hit as <-. injection Hex as <-. by exists q.
Qed.

(** C5: the decoder tries the multi-execution shape first; when that
    shape parses and lists at least one executor, the first entry's
    checksummed address and stored payload are the answer, whatever
    follows it; any failure of the attempt (no decode, no first entry)
    hands over to the legacy single-execution shape; when that fails
    too, the one error that reaches the caller is the legacy decoder's
    [ValueError]; payload bytes survive the hex round trip, so a
    returned quote carries them unchanged. *)
Theorem C5_route_decode_fallback `{Web3Lib} (tx_data : string) :
  (∀ multi first rest,
     _decode_snwap_multiple tx_data = Ok multi →
     md_executors multi = first :: rest →
     route_executor tx_data = Ok (ex_executor first, ex_data first)
     ∧ checksum (ex_executor first) = Ok (ex_executor first))
  ∧ (∀ e, _decode_snwap_multiple tx_data = Raise e →
          ∃ e', route_executor_multi tx_data = Raise e')
  ∧ (∀ multi, _decode_snwap_multiple tx_data = Ok multi → md_executors multi = [] →
          ∃ e', route_executor_multi tx_data = Raise e')
  ∧ (∀ e, route_executor_multi tx_data = Raise e →
          route_executor tx_data
          = (let? single := _decode_snwap tx_data in
             Ok (sd_executor single, sd_executorData single)))
  ∧ (∀ e1 e2, route_executor_multi tx_data = Raise e1 →
              _decode_snwap tx_data = Raise e2 →
              route_executor tx_data = Raise e2 ∧ exc_class e2 = ValueError)
  ∧ (∀ payload, data_as_hex (VBytes payload) = Ok (bytes_hex payload)
                ∧ hex_to_bytes (bytes_hex payload) = Ok payload)
  ∧ (∀ http_get web3_factory config req q,
       request_swap_route http_get web3_factory config req = Ok q →
       ∃ tx hx, route_executor tx = Ok (sq_executor q, hx)
                ∧ hex_to_bytes hx = Ok (sq_executor_data q)).
Proof.
  split; [|split; [|split; [|split; [|split; [|split]]]]].
  - intros multi first rest Hm Hex.
    pose proof (decode_snwap_multiple_checksummed _ _ Hm) as Hall.
    rewrite Hex in Hall. apply Forall_cons in Hall as [Hfirst _].
    split; [|done]. unfold route_executor, route_executor_multi.
    rewrite Hm. cbn [rbind]. rewrite Hex, Hfirst. done.
  - intros e He. unfold route_executor_multi. rewrite He. eauto.
  - intros multi Hm Hex. unfold route_executor_multi. rewrite Hm. cbn [rbind].
    rewrite Hex. eauto.
  - intros e He. unfold route_executor. by rewrite He.
  - intros e1 e2 H1 H2. unfold route_executor. rewrite H1, H2. split; [done|].
    by apply decode_snwap_error in H2 as [? _].
  - intros payload. split; [done|apply hex_to_bytes_hex].
  - intros. by eapply request_swap_route_ok.
Qed.

(** C6: with the handle cache bound to this connection, validation
    reads balance and allowance for each input token in turn.  A
    returned list has one entry per input token, holding what was read,
    with a balance that covers the required amount and a [has_allowance]
    flag that is false exactly when the allowance falls short; a token
    whose balance is below its required amount means no list is
    returned; and when every token can be read and is funded the list
    is returned whatever the allowances are. *)
Theorem C6_swap_input_validation `{Web3Lib} config web3 input_tokens output_tokens
    executors w :
  cache_coherent w web3 →
  (∀ results,
     fst (validate_swap_inputs config web3 input_tokens output_tokens executors w) = Ok results →
     Forall2 (λ it r, validated_as config web3 it r
                      ∧ (allowance r < it.1.2 → has_allowance r = false))
             input_tokens results)
  ∧ (∀ it b, it ∈ input_tokens →
       chain_balance web3 it.1.1 (chwmper_address (base_contracts config)) = Ok b →
       b < it.1.2 →
       ∃ e, fst (validate_swap_inputs config web3 input_tokens output_tokens executors w)
            = Raise e)
  ∧ (ensure_web3_connected web3 (Some (chain_id (base_chain config))) = Ok () →
     input_tokens ≠ [] → output_tokens ≠ [] → executors ≠ [] →
     Forall (token_funded config web3) input_tokens →
     ∃ results,
       fst (validate_swap_inputs config web3 input_tokens output_tokens executors w)
       = Ok results).
Proof.
  intros Hw.
  assert (Hok : ∀ results,
    fst (validate_swap_inputs config web3 input_tokens output_tokens executors w) = Ok results →
    Forall2 (validated_as config web3) input_tokens results).
  { intros results.
    destruct (validate_swap_inputs _ _ _ _ _ w) as [res w'] eqn:Hrun. cbn [fst]. intros ->.
    unfold validate_swap_inputs in Hrun. rewrite bind_lift in Hrun.
    destruct (ensure_web3_connected _ _) as [[]|]; [|discriminate].
    destruct input_tokens as [|it its]; [discriminate|].
    destruct output_tokens as [|ot ots]; [discriminate|].
    destruct executors as [|ex exs]; [discriminate|].
    apply validate_loop_ok in Hrun as (new & Hnew & Hall); [|done].
    by rewrite Hnew. }
  split; [|split].
  - intros results Hrun. eapply Forall2_impl; [by apply Hok|].
    intros it r Hv. split; [done|].
    destruct Hv as (_ & _ & _ & _ & _ & ->). intros Hlt. by apply Z.leb_gt.
  - intros it b Hin Hb Hlt.
    destruct (fst (validate_swap_inputs _ _ _ _ _ w)) as [results|e] eqn:Hrun; [|by eauto].
    exfalso. specialize (Hok _ eq_refl).
    apply list_elem_of_lookup in Hin as (i & Hi).
    destruct (Forall2_lookup_l _ _ _ _ _ Hok Hi) as (r & _ & Hb' & _ & _ & _ & Hle & _).
    rewrite Hb in Hb'. injection Hb' as ->. lia.
  - intros Hc Hi Ho He Hall. unfold validate_swap_inputs. rewrite bind_lift, Hc.
    destruct input_tokens as [|it its]; [done|].
    destruct output_tokens as [|ot ots]; [done|].
    destruct executors as [|ex exs]; [done|].
    destruct (validate_loop_returns config web3 (it :: its) [] w Hw Hall) as (res & w' & ->).
    eauto.
Qed.

(** C7, evaluated on the code.  The low-balance branch of
    [validate_bridge_call] divides the balance and the requirement by
    [10**18] for its warning before it returns.  For a native value
    of 10^327 wei and a signer without funds the second quotient has
    no float: validation raises [OverflowError] where a result flagged
    as insufficiently funded was to be returned.  The value comes from
    the quote's envelope through [int(value, 16)], which sets no
    bound: an envelope whose value is [0x1] followed by 272 zeros
    builds, and plan preparation then ends in the same error. *)
Theorem C7_low_balance_warning_overflows :
  let overflow := Exc OverflowError "integer division result too large for a float" in
  checksum (H := fixtures.stub_lib) fixtures.LIFI_DIAMOND = Ok fixtures.LIFI_DIAMOND
  ∧ fixtures.LIFI_DIAMOND ≠ zero_address
  ∧ 0 < 10 ^ 327 + gas_buffer
  ∧ validate_bridge_call (H := fixtures.stub_lib) fixtures.config_A fixtures.LIFI_DIAMOND
      0 (10 ^ 327) = Raise overflow
  ∧ (∃ r,
       fst (build_bridge_call (H := fixtures.stub_lib) fixtures.config_A fixtures.node_C
              fixtures.BRIDGER 1960000 fixtures.jumper_huge world0) = Ok r
       ∧ call_target r = fixtures.LIFI_DIAMOND
       ∧ native_value r = 16 ^ 272
       ∧ validate_bridge_call (H := fixtures.stub_lib) fixtures.config_A (call_target r)
           20000000000000000 (native_value r) = Raise overflow)
  ∧ fst (prepare_plan (H := fixtures.stub_lib) fixtures.stub_is_checksum
           fixtures.signer_balance fixtures.config_A fixtures.node_A fixtures.RECIPIENT
           fixtures.quote_checked fixtures.jumper_huge world0) = Raise overflow.
Proof.
  cbv zeta. split; [vm_compute; reflexivity|]. split; [discriminate|].
  split; [vm_compute; reflexivity|]. split; [vm_compute; reflexivity|]. split.
  - eexists. split; [vm_compute; reflexivity|]. repeat split; vm_compute; reflexivity.
  - vm_compute. reflexivity.
Qed.

(** The overflow in general: for a target that is a well-formed
    address other than the zero address, a balance below the
    requirement makes validation raise as soon as the balance or the
    requirement reaches the float limit in absolute value. *)
Lemma low_balance_warning_overflow `{Web3Lib} config target canon funds value_wei :
  checksum target = Ok canon →
  canon ≠ zero_address →
  funds < value_wei + gas_buffer →
  float_limit_wei <= Z.abs funds ∨ float_limit_wei <= Z.abs (value_wei + gas_buffer) →
  validate_bridge_call config target funds value_wei
  = Raise (Exc OverflowError "integer division result too large for a float").
Proof.
  intros Hcs Hnz Hlow Hbig. unfold validate_bridge_call. rewrite Hcs. cbn [rbind].
  rewrite (proj2 (String.eqb_neq _ _) Hnz).
  rewrite (proj2 (Z.leb_gt _ _) Hlow). cbn [negb]. unfold wei_as_eth.
  destruct (Z.leb_spec float_limit_wei (Z.abs funds)) as [Hf|Hf]; [done|]. cbn [rbind].
  destruct Hbig as [Hbig|Hbig]; [lia|].
  by rewrite (proj2 (Z.leb_le _ _) Hbig).
Qed.

(** The rest of C7, inside the float range: when the balance covers
    the requirement, or both stay below the float limit, validation of
    a target that is a well-formed address raises exactly when its
    checksummed form is the zero address; otherwise it returns a
    result whose requiredNative is nativeValue plus the constant
    1,000,000 * 10^9 and whose funding flag merely records whether
    the signer's balance reaches it.  The builder itself never rejects
    a target: it returns a bridge call for any address the envelope
    names, the zero address included, and the target it stores is in
    checksummed form. *)
Lemma bridge_call_validation_within_float_range `{Web3Lib} config target canon
    funds value_wei :
  checksum target = Ok canon →
  value_wei + gas_buffer <= funds
  ∨ (Z.abs funds < float_limit_wei ∧ Z.abs (value_wei + gas_buffer) < float_limit_wei) →
  validate_bridge_call config target funds value_wei
  = (if decide (canon = zero_address)
     then Raise (Exc ValueError "callTarget is zero address")
     else Ok {| bv_call_target := target;
                native_balance := funds;
                required_native := value_wei + 1000000 * 10 ^ 9;
                has_sufficient_native := value_wei + 1000000 * 10 ^ 9 <=? funds |})
  ∧ (∀ web3 contract_address min_total jumper_fn w b jd tx to data value cd nv,
       ensure_web3_connected web3 (Some (chain_id (base_chain config))) = Ok () →
       fst (balance_of web3 (usdc_address (base_contracts config)) contract_address w) = Ok b →
       jumper_fn config {| jr_amount := b + min_total;
                           jr_from_address := contract_address;
                           jr_to_address := mainnet_recipient (addresses config) |} = Ok jd →
       jd_transaction jd = Some tx →
       tx_to tx = Some to → to_checksum_address to = Ok canon →
       tx_data tx = Some data → hex_to_bytes_val data = Ok cd →
       tx_value tx = Some value → int_base16 value = Ok nv →
       ∃ r, fst (build_bridge_call config web3 contract_address min_total jumper_fn w) = Ok r
            ∧ call_target r = canon ∧ native_value r = nv)
  ∧ (∀ web3 contract_address min_total jumper_fn w r,
       fst (build_bridge_call config web3 contract_address min_total jumper_fn w) = Ok r →
       checksum (call_target r) = Ok (call_target r)).
Proof.
  intros Hcs Hrange. split; [|split].
  - unfold validate_bridge_call. rewrite Hcs. cbn [rbind].
    destruct (String.eqb_spec canon zero_address) as [->|Hne].
    + by rewrite decide_True.
    + rewrite decide_False by done. change gas_buffer with (1000000 * 10 ^ 9) in *.
      destruct (Z.leb_spec (value_wei + 1000000 * 10 ^ 9) funds) as [Hle|Hlt]; [done|].
      cbn [negb]. destruct Hrange as [?|[Hf Hr]]; [lia|]. unfold wei_as_eth.
      rewrite (proj2 (Z.leb_gt _ _) Hf). cbn [rbind].
      by rewrite (proj2 (Z.leb_gt _ _) Hr).
  - intros. eexists. split; [by eapply build_bridge_call_returns|done].
  - intros web3 contract_address min_total jumper_fn w r
      [_ _ _ _ (tx & to & _ & _ & _ & _ & Hto & _)]%build_bridge_call_ok.
    by eapply to_checksum_address_fixed.
Qed.

(** C8: a token with a zero balance, a failing quote or a quote below
    the dust threshold leaves the loop locals untouched and the loop
    goes on with the next token; an empty whitelist is refused by the
    configuration loader and, in the builder, before any read or quote
    (the world is returned as it was); when every token is skipped the
    build ends with the no-eligible-tokens error, whose message differs
    from the empty-whitelist one. *)
Theorem C8_skips_and_empty_outcomes `{Web3Lib} config web3 chwomper_address
    contract_address quote_fn w :
  cache_coherent w web3 →
  (∀ st token rest,
     token_skipped config web3 chwomper_address contract_address quote_fn token →
     ∃ w1,
       swap_visit config web3 chwomper_address contract_address quote_fn st token w = (Ok st, w1)
       ∧ for_each (swap_visit config web3 chwomper_address contract_address quote_fn)
           (token :: rest) st w
         = for_each (swap_visit config web3 chwomper_address contract_address quote_fn)
             rest st w1)
  ∧ _normalize_tokens (TokMapping []) = Raise (Exc ConfigError "whitelisted_tokens cannot be empty")
  ∧ _normalize_tokens (TokList []) = Raise (Exc ConfigError "whitelisted_tokens cannot be empty")
  ∧ (whitelisted_tokens (base_contracts config) = [] →
     ∃ e, build_swap_parameters config web3 chwomper_address contract_address quote_fn w
          = (Raise e, w)
       ∧ (ensure_web3_connected web3 (Some (chain_id (base_chain config))) = Ok () →
          e = Exc ValueError "No whitelisted tokens configured"))
  ∧ (whitelisted_tokens (base_contracts config) ≠ [] →
     ensure_web3_connected web3 (Some (chain_id (base_chain config))) = Ok () →
     Forall (token_skipped config web3 chwomper_address contract_address quote_fn)
            (whitelisted_tokens (base_contracts config)) →
     ∃ w', build_swap_parameters config web3 chwomper_address contract_address quote_fn w
           = (Raise (Exc ValueError "No eligible tokens to swap after applying thresholds"), w'))
  ∧ Exc ValueError "No whitelisted tokens configured"
    ≠ Exc ValueError "No eligible tokens to swap after applying thresholds".
Proof.
  intros Hw. split; [|split; [done|split; [done|split; [|split; [|done]]]]].
  - intros st token rest Hskip.
    destruct (swap_visit_skipped config web3 chwomper_address contract_address quote_fn
                st token w Hw Hskip) as (w1 & Hv & _).
    exists w1. split; [done|]. cbn [for_each]. unfold bind. by rewrite Hv.
  - intros Hnil. unfold build_swap_parameters. rewrite bind_lift, Hnil.
    destruct (ensure_web3_connected _ _) as [[]|e].
    + eexists. split; done.
    + eexists. split; [done|discriminate].
  - intros Hne Hconn Hall. unfold build_swap_parameters. rewrite bind_lift, Hconn.
    pose proof (iter_whitelisted_nonempty _ Hne) as Hne'.
    apply iter_whitelisted_Forall in Hall.
    destruct (_iter_whitelisted_tokens _) as [|t ts]; [done|].
    destruct (for_each_skipped config web3 chwomper_address contract_address quote_fn
                (t :: ts) swap_locals0 w Hw Hall) as (w1 & Hloop & _).
    unfold bind. rewrite Hloop. cbn. eauto.
Qed.

(** C9, as the code has it: the cache key is the pair of the
    connection object's identity, [id(web3)], and the token's
    checksummed address.  Each call files its handle under that key
    and touches no other; every handle returned is bound to a
    connection with the caller's identity; a repeated call by the same
    object for an address with the same checksummed form gets the same
    handle back; an object with another identity never gets it. *)
Theorem C9_cache_keyed_by_object_identity `{Web3Lib} web3 token_address w c w' :
  cache_keyed w →
  _get_or_create_contract web3 token_address w = (Ok c, w') →
  cache_keyed w'
  ∧ obj_id (contract_w3 c) = obj_id web3
  ∧ (∃ a, checksum token_address = Ok a
        ∧ _CONTRACT_CACHE w' !! (obj_id web3, a) = Some c
        ∧ ∀ k, k ≠ (obj_id web3, a) → _CONTRACT_CACHE w' !! k = _CONTRACT_CACHE w !! k)
  ∧ (∀ spelling c2 w2,
       checksum spelling = checksum token_address →
       _get_or_create_contract web3 spelling w' = (Ok c2, w2) → c2 = c ∧ w2 = w')
  ∧ (∀ other token2 c2 w2,
       obj_id other ≠ obj_id web3 →
       _get_or_create_contract other token2 w' = (Ok c2, w2) → c2 ≠ c).
Proof.
  intros Hw Hrun.
  destruct (get_or_create_keyed _ _ _ _ _ Hw Hrun) as [Hw' Hid].
  destruct (get_or_create_key _ _ _ _ _ Hrun) as (a & Ha & Hc & Hother & _ & _).
  split; [done|]. split; [done|]. split; [by eauto|]. split.
  - intros spelling c2 w2 Hsp Hrun2.
    destruct (get_or_create_key _ _ _ _ _ Hrun2) as (a2 & Ha2 & _ & _ & Hhit & _).
    rewrite Hsp, Ha in Ha2. injection Ha2 as <-.
    destruct (Hhit c Hc) as [-> ->]. done.
  - intros other token2 c2 w2 Hne Hrun2 ->.
    destruct (get_or_create_keyed _ _ _ _ _ Hw' Hrun2) as [_ Hid2]. congruence.
Qed.

(** C10, as the code has it: the envelope's value goes through
    [int(value, 16)], which accepts a sign.  The returned nativeValue
    is that integer; it is non-negative whenever the literal carries no
    minus sign, and never positive when it carries one. *)
Theorem C10_native_value_follows_literal_sign `{Web3Lib} config web3 contract_address
    min_total jumper_fn w r :
  fst (build_bridge_call config web3 contract_address min_total jumper_fn w) = Ok r →
  ∃ tx value,
    jd_transaction (jumper_payload r) = Some tx
    ∧ tx_value tx = Some value
    ∧ int_base16 value = Ok (native_value r)
    ∧ (literal_has_minus value = false → 0 <= native_value r)
    ∧ (literal_has_minus value = true → native_value r <= 0).
Proof.
  intros [_ _ _ _ (tx & to & data & value & Htx & _ & _ & _ & _ & Hv & Hn)]%build_bridge_call_ok.
  exists tx, value. repeat split; try done.
  all: intros Hs; apply int_base16_sign in Hn; by rewrite Hs in Hn.
Qed.

(** * Further properties *)

(** ** The slippage step beyond the context precision *)

Module rounding_facts.
Import decimal_facts.

Lemma ndigits_go_upper fuel : ∀ c, c < 2 ^ Z.of_nat fuel → c < 10 ^ ndigits_go fuel c.
Proof.
  induction fuel as [|fuel IH]; intros c Hc.
  - simpl in *. lia.
  - simpl ndigits_go. destruct (c <? 10) eqn:E.
    + apply Z.ltb_lt in E. change (10 ^ 1) with 10. lia.
    + apply Z.ltb_ge in E.
      assert (Hq : c / 10 < 2 ^ Z.of_nat fuel).
      { apply Z.div_lt_upper_bound; [lia|].
        rewrite Nat2Z.inj_succ, Z.pow_succ_r in Hc by lia. lia. }
      specialize (IH _ Hq).
      pose proof (ndigits_go_pos fuel (c / 10)).
      replace (1 + ndigits_go fuel (c / 10)) with (Z.succ (ndigits_go fuel (c / 10))) by lia.
      rewrite Z.pow_succ_r by lia.
      pose proof (Z.mul_succ_div_gt c 10 ltac:(lia)). lia.
Qed.

(** A coefficient has fewer than [10 ^ ndigits] units... *)
Lemma ndigits_upper c : c < 10 ^ ndigits c.
Proof.
  apply ndigits_go_upper.
  destruct (Z_lt_le_dec c 1) as [Hs|Hb].
  - pose proof (Z.pow_pos_nonneg 2 (Z.of_nat (S (Z.to_nat (Z.log2 c)))) ltac:(lia) ltac:(lia)).
    lia.
  - rewrite Nat2Z.inj_succ, Z2Nat.id by apply Z.log2_nonneg.
    apply Z.log2_spec. lia.
Qed.

(** ...and at least as many digits as any power of ten below it. *)
Lemma ndigits_ge c k : 10 ^ (k - 1) <= c → k <= ndigits c.
Proof.
  intros Hc. destruct (Z_lt_le_dec (ndigits c) k) as [Hlt|]; [|done].
  pose proof (ndigits_upper c). pose proof (ndigits_pos c).
  assert (10 ^ ndigits c <= 10 ^ (k - 1)) by (apply Z.pow_le_mono_r; lia). lia.
Qed.

Lemma round_up_remainder c k :
  1 <= k → 0 <= c → round_half_even_up c k = true → 0 < c mod 10 ^ k.
Proof.
  intros Hk Hc. unfold round_half_even_up.
  assert (0 < 5 * 10 ^ (k - 1)) by (pose proof (Z.pow_pos_nonneg 10 (k - 1)); lia).
  intros [E|E]%orb_true_iff.
  - apply Z.ltb_lt in E. lia.
  - apply andb_true_iff in E as [E _]. apply Z.eqb_eq in E. lia.
Qed.

(** What the context makes of a coefficient of more than 28 digits:
    the leading 28 digits, possibly incremented, under an exponent
    raised by the number of digits dropped. *)
Lemma fix_rounds (s : bool) (c e : Z) (d : Decimal) :
  0 < c → 28 < ndigits c → Etiny <= e →
  fix_ (mkDecimal s c e) = Ok d →
  let k := ndigits c - 28 in
  ∃ C x, d = mkDecimal s C x
    ∧ ndigits C = 28 ∧ 0 < C ∧ e + k <= x
    ∧ (C * 10 ^ (x - (e + k)) = c / 10 ^ k
       ∨ (C * 10 ^ (x - (e + k)) = c / 10 ^ k + 1 ∧ 0 < c mod 10 ^ k)).
Proof.
  intros Hc Hn He. cbv zeta.
  assert (HT : Etiny = -1000026) by reflexivity. rewrite HT in He.
  set (k := ndigits c - 28). set (q := c / 10 ^ k).
  assert (Hk : 1 <= k) by (unfold k; lia).
  assert (Hpk : 0 < 10 ^ k) by (apply Z.pow_pos_nonneg; lia).
  assert (Hq : 10 ^ 27 <= q < 10 ^ 28).
  { unfold q. pose proof (ndigits_lower c) as Hlo. pose proof (ndigits_upper c) as Hup.
    assert (10 <= c).
    { destruct (Z_lt_le_dec c 10) as [Hs|]; [|done].
      pose proof (ndigits_le c 1 ltac:(lia) ltac:(simpl; lia)). lia. }
    specialize (Hlo ltac:(done)).
    assert (E1 : ndigits c - 1 = 27 + k) by (unfold k; lia).
    assert (E2 : ndigits c = 28 + k) by (unfold k; lia).
    rewrite E1 in Hlo. rewrite E2 in Hup.
    rewrite Z.pow_add_r in Hlo by lia. rewrite Z.pow_add_r in Hup by lia. split.
    - apply Z.div_le_lower_bound; lia.
    - apply Z.div_lt_upper_bound; lia. }
  unfold fix_. rewrite (proj2 (Z.eqb_neq c 0)) by lia.
  unfold prec. fold k.
  replace (ndigits c + e - 28) with (e + k) by (unfold k; lia).
  destruct (Etop <? e + k); [discriminate|].
  replace (e + k <? Etiny) with false by (symmetry; apply Z.ltb_ge; rewrite HT; lia).
  replace (e <? e + k) with true by (symmetry; apply Z.ltb_lt; lia).
  replace (ndigits c + e - (e + k)) with 28 by (unfold k; lia).
  change (28 <? 0) with false. cbv beta iota zeta. fold k. fold q.
  destruct (round_half_even_up c k) eqn:Eup.
  - apply round_up_remainder in Eup; [|done|lia].
    destruct (28 <? ndigits (q + 1)) eqn:En.
    + apply Z.ltb_lt in En.
      assert (q + 1 = 10 ^ 28).
      { destruct (Z_lt_le_dec (q + 1) (10 ^ 28)) as [Hs|]; [|lia].
        pose proof (ndigits_le (q + 1) 28 ltac:(lia) Hs). lia. }
      cbv beta iota zeta.
      destruct (Etop <? e + k + 1); [discriminate|]. intros [= <-].
      exists ((q + 1) / 10), (e + k + 1). split; [done|].
      assert (Hv : (q + 1) / 10 = 10 ^ 27) by (rewrite H; reflexivity).
      rewrite Hv. split; [reflexivity|]. split; [lia|]. split; [lia|].
      right. split; [|done].
      replace (e + k + 1 - (e + k)) with 1 by lia. rewrite H. reflexivity.
    + apply Z.ltb_ge in En. cbv beta iota zeta.
      destruct (Etop <? e + k); [discriminate|]. intros [= <-].
      exists (q + 1), (e + k). split; [done|].
      split; [pose proof (ndigits_ge (q + 1) 28 ltac:(simpl; lia)); lia|].
      split; [lia|]. split; [lia|]. right.
      rewrite Z.sub_diag, Z.pow_0_r, Z.mul_1_r. done.
  - cbv beta iota zeta.
    destruct (Etop <? e + k); [discriminate|]. intros [= <-].
    exists q, (e + k). split; [done|].
    split; [pose proof (ndigits_ge q 28 ltac:(simpl; lia));
            pose proof (ndigits_le q 28 ltac:(lia) ltac:(lia)); lia|].
    split; [lia|]. split; [lia|]. left.
    rewrite Z.sub_diag, Z.pow_0_r, Z.mul_1_r. done.
Qed.

(** Quantizing a full 28-digit coefficient to the units succeeds only
    when its exponent is not positive. *)
Lemma quantize_full_exponent (s : bool) (C x : Z) (d : Decimal) :
  ndigits C = 28 → 0 < C →
  quantize_down (mkDecimal s C x) one = Ok d → x <= 0.
Proof.
  intros Hn HC. unfold quantize_down, one, adjusted. cbn [d_exp d_int d_sign].
  destruct (negb _); [discriminate|].
  rewrite (proj2 (Z.eqb_neq C 0)) by lia. rewrite Hn.
  destruct (Emax <? x + 28 - 1); [discriminate|].
  unfold prec. destruct (28 <? x + 28 - 1 - 0 + 1) eqn:E; [discriminate|].
  apply Z.ltb_ge in E. lia.
Qed.

(** Every failure of the slippage step is one of the two signals the
    default context traps. *)
Lemma fix_error d err :
  fix_ d = Raise err → exc_class err = Overflow.
Proof.
  unfold fix_. destruct d as [s c e].
  repeat (case_match; try discriminate); by intros [= <-].
Qed.

Lemma quantize_down_error d q err :
  quantize_down d q = Raise err →
  exc_class err = InvalidOperation ∨ exc_class err = Overflow.
Proof.
  unfold quantize_down.
  repeat (case_match; try discriminate);
    try (intros [= <-]; by left); intros ?%fix_error; by right.
Qed.

Lemma apply_discount_error value multiplier err :
  apply_discount value multiplier = Raise err →
  exc_class err = InvalidOperation ∨ exc_class err = Overflow.
Proof.
  unfold apply_discount, mul.
  destruct (fix_ _) as [p|] eqn:Ef; cbn [rbind].
  - destruct (quantize_down p one) as [q|] eqn:Eq; cbn [rbind]; [discriminate|].
    intros [= <-]. by eapply quantize_down_error.
  - intros [= <-]. right. by eapply fix_error.
Qed.

End rounding_facts.

Import decimal_facts rounding_facts.

(** Whenever it returns, the slippage step is the floor or the floor
    plus one, has at most 28 digits, and under a tolerance of at most
    one never exceeds the value it discounts. *)
Lemma apply_discount_within_one (value m e r : Z) :
  0 <= value → 0 < m → Etiny <= e <= 0 →
  apply_discount value (mkDecimal false m e) = Ok r →
  value * m / 10 ^ (- e) <= r <= value * m / 10 ^ (- e) + 1
  ∧ 0 <= r < 10 ^ 28
  ∧ (m <= 10 ^ (- e) → r <= value).
Proof.
  intros Hv Hm He.
  assert (HT : Etiny = -1000026) by reflexivity.
  assert (Hpe : 0 < 10 ^ (- e)) by (apply Z.pow_pos_nonneg; lia).
  set (c := value * m).
  assert (Hc0 : 0 <= c) by (unfold c; nia).
  destruct (Z_le_gt_dec (ndigits c) 28) as [Hsmall|Hbig].
  - (* the product is exact *)
    assert (Hlt : c < 10 ^ 28).
    { pose proof (ndigits_upper c).
      assert (10 ^ ndigits c <= 10 ^ 28) by (apply Z.pow_le_mono_r; lia). lia. }
    rewrite apply_discount_exact by done. intros [= <-]. fold c.
    assert (0 <= c / 10 ^ (- e) <= c).
    { split; [apply Z.div_pos; lia|]. apply Z.div_le_upper_bound; nia. }
    split; [lia|]. split; [lia|]. intros Hle.
    pose proof (floor_bounds value m e Hv Hm ltac:(lia) Hle) as HB. fold c in HB. lia.
  - (* the product is rounded to 28 digits *)
    assert (Hcpos : 0 < c).
    { destruct (Z.eq_dec c 0) as [E0|]; [|lia]. rewrite E0 in Hbig.
      vm_compute in Hbig. discriminate. }
    unfold apply_discount, mul, of_int. cbn [d_exp d_int d_sign].
    replace (value <? 0) with false by (symmetry; apply Z.ltb_ge; lia).
    rewrite Z.abs_eq by lia. replace (0 + e) with e by lia. fold c. cbn [xorb].
    destruct (fix_ _) as [p|] eqn:Ef; [|discriminate]. cbn [rbind].
    apply fix_rounds in Ef as (C & x & -> & HnC & HC & Hx & Hval); [|done|lia|lia].
    set (k := ndigits c - 28) in *.
    assert (Hk : 1 <= k) by (unfold k; lia).
    destruct (quantize_down _ one) as [d|] eqn:Eq; [|discriminate]. cbn [rbind].
    pose proof (quantize_full_exponent _ _ _ _ HnC HC Eq) as Hx0.
    assert (HCl : C < 10 ^ 28) by (pose proof (ndigits_upper C) as HU; by rewrite HnC in HU).
    rewrite quantize_down_one in Eq by lia. injection Eq as <-.
    unfold to_int. cbn [d_exp d_int d_sign]. simpl (0 <=? 0). cbv iota.
    rewrite Z.pow_0_r, Z.mul_1_r. intros [= <-].
    (* bring everything to the scale of the rounded exponent e + k *)
    set (j := - (e + k)). set (q := c / 10 ^ k) in *.
    assert (Hj : 0 <= j) by (unfold j; lia).
    assert (Hpk : 0 < 10 ^ k) by (apply Z.pow_pos_nonneg; lia).
    assert (Hpj : 0 < 10 ^ j) by (apply Z.pow_pos_nonneg; lia).
    assert (Hpd : 0 < 10 ^ (x - (e + k))) by (apply Z.pow_pos_nonneg; lia).
    assert (Hscale : 10 ^ (- e) = 10 ^ k * 10 ^ j).
    { rewrite <- Z.pow_add_r by lia. f_equal. unfold j. lia. }
    assert (Hfloor : c / 10 ^ (- e) = q / 10 ^ j).
    { rewrite Hscale. unfold q. rewrite Z.div_div by lia. done. }
    assert (HA : C / 10 ^ (- x) = (C * 10 ^ (x - (e + k))) / 10 ^ j).
    { assert (E : 10 ^ j = 10 ^ (- x) * 10 ^ (x - (e + k))).
      { rewrite <- Z.pow_add_r by lia. f_equal. unfold j. lia. }
      rewrite E. rewrite Z.div_mul_cancel_r; [done| |lia].
      apply Z.pow_nonzero; lia. }
    assert (Hq0 : 0 <= q) by (unfold q; apply Z.div_pos; lia).
    assert (HqC : q * 10 ^ k <= c) by (unfold q; pose proof (Z.mul_div_le c (10 ^ k)); lia).
    rewrite HA, Hfloor.
    assert (HAC : 0 <= C / 10 ^ (- x) <= C).
    { assert (0 < 10 ^ (- x)) by (apply Z.pow_pos_nonneg; lia).
      split; [apply Z.div_pos; lia|]. apply Z.div_le_upper_bound; nia. }
    rewrite HA in HAC.
    destruct Hval as [Hval|[Hval Hrem]]; rewrite Hval in HAC |- *.
    + split; [lia|]. split; [lia|]. intros Hle.
      apply Z.div_le_upper_bound; [lia|].
      assert (c <= value * (10 ^ k * 10 ^ j)) by (unfold c; rewrite <- Hscale; nia). nia.
    + assert (Hstep : (q + 1) / 10 ^ j <= q / 10 ^ j + 1).
      { replace (q / 10 ^ j + 1) with ((q + 1 * 10 ^ j) / 10 ^ j)
          by (rewrite Z.div_add by lia; done).
        apply Z.div_le_mono; lia. }
      assert (Hmono : q / 10 ^ j <= (q + 1) / 10 ^ j) by (apply Z.div_le_mono; lia).
      split; [lia|]. split; [lia|]. intros Hle.
      apply Z.div_le_upper_bound; [lia|].
      assert (Hlt : q * 10 ^ k < c).
      { unfold q. pose proof (Z.div_mod c (10 ^ k) ltac:(lia)). lia. }
      assert (c <= value * (10 ^ k * 10 ^ j)) by (unfold c; rewrite <- Hscale; nia).
      assert (q < value * 10 ^ j) by nia. lia.
Qed.

(** A discounted value of more than 28 digits is never returned: the
    step raises instead. *)
Lemma apply_discount_too_large (value m e : Z) :
  0 <= value → 0 < m → Etiny <= e <= 0 →
  10 ^ 28 <= value * m / 10 ^ (- e) →
  ∃ err, apply_discount value (mkDecimal false m e) = Raise err
         ∧ (exc_class err = InvalidOperation ∨ exc_class err = Overflow).
Proof.
  intros Hv Hm He Hbig.
  destruct (apply_discount value _) as [r|err] eqn:E.
  - apply apply_discount_within_one in E; [|done..]. lia.
  - exists err. split; [done|]. by eapply apply_discount_error.
Qed.

(** ** The whitelist order *)

Section sorting_facts.

Lemma leb_refl s : String.leb s s = true.
Proof. by destruct (String.leb_total s s). Qed.

Lemma insert_by_symbol_perm t l : insert_by_symbol t l ≡ₚ t :: l.
Proof.
  induction l as [|x l IH]; simpl; [done|].
  destruct (String.leb _ _); [done|]. rewrite IH. apply Permutation_swap.
Qed.

Lemma insert_by_symbol_hd t x l :
  symbol_le x t → HdRel symbol_le x l → HdRel symbol_le x (insert_by_symbol t l).
Proof.
  intros Hxt Hl. destruct l as [|y l]; simpl; [by constructor|].
  destruct (String.leb _ _); constructor; [done|]. by inversion Hl.
Qed.

Lemma insert_by_symbol_sorted t l :
  Sorted symbol_le l → Sorted symbol_le (insert_by_symbol t l).
Proof.
  induction 1 as [|x l Hl IH Hhd]; simpl; [by repeat constructor|].
  destruct (String.leb (symbol t) (symbol x)) eqn:E.
  - constructor; [by constructor|]. by constructor.
  - constructor; [done|]. apply insert_by_symbol_hd; [|done].
    unfold symbol_le. destruct (String.leb_total (symbol x) (symbol t)); congruence.
Qed.

Lemma insert_by_symbol_filter s t l :
  List.filter (λ x, String.eqb (symbol x) s) (insert_by_symbol t l)
  = List.filter (λ x, String.eqb (symbol x) s) (t :: l).
Proof.
  induction l as [|x l IH]; [done|]. cbn [insert_by_symbol].
  destruct (String.leb (symbol t) (symbol x)) eqn:E; [done|].
  cbn [List.filter] in *. rewrite IH.
  destruct (String.eqb_spec (symbol x) s) as [Hx|]; [|done].
  destruct (String.eqb_spec (symbol t) s) as [Ht|]; [|done].
  rewrite Hx, Ht, leb_refl in E. discriminate.
Qed.

End sorting_facts.

(** ** What the swap loop reads, asks and keeps *)

Section swap_loop_facts.
Context `{Web3Lib}.
Context (config : RelayerConfig) (web3 : Web3).
Context (chwomper_address contract_address : string).
Context (quote_fn : RelayerConfig → QuoteRequest → result SushiQuoteResult).

Local Abbreviation visit := (swap_visit config web3 chwomper_address contract_address quote_fn).
Local Abbreviation keeps := (eligible config web3 chwomper_address contract_address quote_fn).

(** A balance read through a coherent cache: the chain's answer, and
    one recorded call once the connection and both addresses are
    good. *)
Lemma balance_of_calls token_address owner w :
  cache_coherent w web3 →
  ∃ w', balance_of web3 token_address owner w = (chain_balance web3 token_address owner, w')
    ∧ cache_coherent w' web3
    ∧ calls w' = (calls w ++
        match ensure_web3_connected web3 None, checksum token_address, checksum owner with
        | Ok _, Ok t, Ok o => [CallBalanceOf t o]
        | _, _, _ => []
        end)%list.
Proof.
  intros Hw. unfold balance_of, chain_balance, bind at 1.
  destruct (get_contract_coherent web3 token_address w Hw) as (w1 & Hg & Hw1).
  rewrite Hg.
  assert (Hc1 : calls w1 = calls w).
  { apply (f_equal snd) in Hg. cbn [snd] in Hg. subst w1.
    unfold get_contract. rewrite bind_lift.
    destruct (ensure_web3_connected web3 None) as [[]|]; [|done].
    unfold _get_or_create_contract. rewrite bind_lift.
    destruct (checksum token_address); [|done].
    by destruct (_CONTRACT_CACHE w !! _). }
  destruct (ensure_web3_connected web3 None) as [[]|e];
    [|exists w1; by rewrite app_nil_r]. cbn [rbind].
  destruct (checksum token_address) as [a|e]; [|exists w1; by rewrite app_nil_r].
  cbn [rbind]. rewrite bind_lift.
  destruct (checksum owner) as [o|e]; [|exists w1; by rewrite app_nil_r]. cbn [rbind].
  unfold bind, record_call, lift. cbn.
  eexists. split; [done|]. split; [done|]. by rewrite Hc1.
Qed.

Lemma chain_balance_ok token_address owner b :
  chain_balance web3 token_address owner = Ok b →
  ∃ t o, ensure_web3_connected web3 None = Ok ()
    ∧ checksum token_address = Ok t ∧ checksum owner = Ok o
    ∧ eth_call_balanceOf web3 t o = Ok b.
Proof.
  unfold chain_balance.
  destruct (ensure_web3_connected web3 None) as [[]|]; [|discriminate]. cbn [rbind].
  destruct (checksum token_address) as [t|]; [|discriminate]. cbn [rbind].
  destruct (checksum owner) as [o|]; [|discriminate]. cbn [rbind]. eauto 10.
Qed.

(** One iteration that does not raise, in full. *)
Lemma swap_visit_coherent st token w st' w' :
  cache_coherent w web3 →
  visit st token w = (Ok st', w') →
  cache_coherent w' web3
  ∧ calls w' = (calls w ++ visit_calls config web3 chwomper_address contract_address token)%list
  ∧ ∃ b, chain_balance web3 (address token) chwomper_address = Ok b
    ∧ if keeps token
      then ∃ sq m, b ≠ 0
             ∧ quote_fn config (quote_request config contract_address token b) = Ok sq
             ∧ usdc_threshold (defaults config) <= sq_assumed_amount_out sq
             ∧ apply_discount (sq_assumed_amount_out sq) (slippage_tolerance (defaults config))
               = Ok m
             ∧ st' = swap_append st token b sq m
      else st' = st.
Proof.
  intros Hw. unfold swap_visit, bind at 1.
  destruct (balance_of_calls (address token) chwomper_address w Hw) as (w1 & -> & Hw1 & Hc1).
  destruct (chain_balance _ _ _) as [b|] eqn:Eb; [|discriminate].
  destruct (chain_balance_ok _ _ _ Eb) as (t & o & Hen & Ht & Ho & Hcall).
  rewrite Hen, Ht, Ho in Hc1. unfold visit_calls, eligible. rewrite Ht, Ho, Hcall, Eb.
  destruct (b =? 0) eqn:E0.
  - intros [= <- <-]. split; [done|]. split; [done|]. by exists b.
  - apply Z.eqb_neq in E0.
    unfold bind at 1, try_, call_quote, bind at 1, record_call, lift at 1.
    cbn [negb andb].
    destruct (quote_fn config _) as [sq|e] eqn:Eq.
    + destruct (sq_assumed_amount_out sq <? usdc_threshold (defaults config)) eqn:Et.
      * intros [= <- <-]. cbn [calls]. rewrite Hc1, <- app_assoc.
        split; [done|]. split; [done|]. by exists b.
      * apply Z.ltb_ge in Et. rewrite bind_lift.
        destruct (apply_discount _ _) as [m|] eqn:Em; [|discriminate].
        intros [= <- <-]. cbn [calls]. rewrite Hc1, <- app_assoc.
        split; [done|]. split; [done|]. exists b. split; [done|]. cbn [negb].
        by exists sq, m.
    + intros [= <- <-]. cbn [calls]. rewrite Hc1, <- app_assoc.
      split; [done|]. split; [done|]. by exists b.
Qed.

(** The whole loop: the quotes it adds are those of the tokens it
    keeps, in the order visited, and its calls are the visits' calls. *)
Lemma swap_loop_coherent tokens : ∀ st w st' w',
  cache_coherent w web3 →
  for_each visit tokens st w = (Ok st', w') →
  cache_coherent w' web3
  ∧ calls w' = (calls w ++ List.concat (map (visit_calls config web3 chwomper_address contract_address) tokens))%list
  ∧ ∃ new, l_quotes_collected st' = (l_quotes_collected st ++ new)%list
      ∧ map quote_token new = List.filter keeps tokens
      ∧ Forall (quoted_as config web3 chwomper_address contract_address quote_fn) new.
Proof.
  induction tokens as [|token tokens IH]; intros st w st' w' Hw Hrun.
  - injection Hrun as <- <-. split; [done|]. split; [by rewrite app_nil_r|].
    exists []. by rewrite app_nil_r.
  - cbn [for_each] in Hrun. apply bind_ok in Hrun as (st1 & w1 & Hv & Hrest).
    apply swap_visit_coherent in Hv as (Hw1 & Hc1 & b & Hb & Hcase); [|done].
    apply IH in Hrest as (Hw' & Hc' & new & Hnew & Hmap & Hall); [|done].
    split; [done|]. split; [cbn [map List.concat]; by rewrite Hc', Hc1, <- app_assoc|].
    cbn [List.filter]. destruct (keeps token).
    + destruct Hcase as (sq & m & Hb0 & Hq & Ht & Hm & ->).
      cbn [swap_append l_quotes_collected] in Hnew.
      eexists (_ :: new). split; [by rewrite Hnew, <- app_assoc|].
      split; [cbn [map]; rewrite Hmap; f_equal; by destruct token|].
      constructor; [|done]. split; [done|]. split; [done|].
      exists sq. cbn. by destruct token.
    + subst st1. by exists new.
Qed.

End swap_loop_facts.

Section swap_plan_facts.
Context `{Web3Lib}.
Context (config : RelayerConfig) (web3 : Web3).
Context (chwomper_address contract_address : string).
Context (quote_fn : RelayerConfig → QuoteRequest → result SushiQuoteResult).

Local Abbreviation visit := (swap_visit config web3 chwomper_address contract_address quote_fn).

Lemma build_swap_parameters_loop w r w' :
  build_swap_parameters config web3 chwomper_address contract_address quote_fn w = (Ok r, w') →
  ∃ st, for_each visit (_iter_whitelisted_tokens (whitelisted_tokens (base_contracts config)))
          swap_locals0 w = (Ok st, w')
    ∧ token_quotes r = l_quotes_collected st
    ∧ min_total_usdc r = l_total_min st
    ∧ assumed_total_usdc r = l_total_assumed st.
Proof.
  unfold build_swap_parameters. rewrite bind_lift.
  destruct (ensure_web3_connected _ _) as [[]|e]; [|discriminate].
  destruct (_iter_whitelisted_tokens _) as [|t ts]; [discriminate|].
  intros Hrun. apply bind_ok in Hrun as (st & w1 & Hloop & Hrun).
  destruct (l_input_tokens st); [discriminate|].
  injection Hrun as <- <-. by exists st.
Qed.

Lemma swap_visit_oversized st token w :
  cache_coherent w web3 →
  d_sign (slippage_tolerance (defaults config)) = false →
  0 < d_int (slippage_tolerance (defaults config)) →
  Etiny <= d_exp (slippage_tolerance (defaults config)) <= 0 →
  oversized config web3 chwomper_address contract_address quote_fn token →
  ∃ e w', visit st token w = (Raise e, w').
Proof.
  intros Hw Hs Hm He (b & sq & Hb & Hb0 & Hq & Ht & Hbig).
  unfold swap_visit, bind at 1.
  destruct (balance_of_coherent web3 (address token) chwomper_address w Hw) as (w1 & -> & _).
  rewrite Hb, (proj2 (Z.eqb_neq b 0)) by done.
  unfold bind at 1, try_, call_quote, bind at 1, record_call, lift at 1. rewrite Hq.
  destruct (slippage_tolerance (defaults config)) as [s m e]. cbn [d_sign d_int d_exp] in *.
  subst s.
  assert (Hpe : 0 < 10 ^ (- e)) by (apply Z.pow_pos_nonneg; lia).
  assert (Ha : 0 <= sq_assumed_amount_out sq).
  { destruct (Z_lt_le_dec (sq_assumed_amount_out sq) 0) as [Hneg|]; [|done].
    assert (sq_assumed_amount_out sq * m / 10 ^ (- e) <= 0).
    { apply Z.div_le_upper_bound; nia. }
    lia. }
  destruct (apply_discount_too_large _ m e Ha Hm He Hbig) as (err & Herr & _).
  rewrite (proj2 (Z.ltb_ge _ _)) by done. rewrite bind_lift, Herr. eauto.
Qed.

Lemma swap_loop_oversized tokens : ∀ st w,
  cache_coherent w web3 →
  d_sign (slippage_tolerance (defaults config)) = false →
  0 < d_int (slippage_tolerance (defaults config)) →
  Etiny <= d_exp (slippage_tolerance (defaults config)) <= 0 →
  Exists (oversized config web3 chwomper_address contract_address quote_fn) tokens →
  ∃ e w', for_each visit tokens st w = (Raise e, w').
Proof.
  intros st w Hw Hs Hm He Hex. revert st w Hw.
  induction Hex as [t ts Ht|t ts _ IH]; intros st w Hw; cbn [for_each]; unfold bind.
  - destruct (swap_visit_oversized st t w Hw Hs Hm He Ht) as (e & w1 & ->). eauto.
  - pose proof (keeps_swap_visit web3 config chwomper_address contract_address quote_fn
                  st t w Hw) as Hw1.
    destruct (visit st t w) as [[st1|e] w1]; [|by eauto]. by apply IH.
Qed.

End swap_plan_facts.

(** ** Properties of the swap leg *)

Lemma iter_whitelisted_perm (tokens : list TokenConfig) :
  _iter_whitelisted_tokens tokens ≡ₚ tokens.
Proof.
  unfold _iter_whitelisted_tokens. induction tokens as [|t tokens IH]; [done|].
  cbn [foldr]. by rewrite insert_by_symbol_perm, IH.
Qed.

(** X1: the whitelist is visited in ascending symbol order: the
    sorted list is ordered pair by pair, holds the same tokens as the
    configured one, and keeps tokens with equal symbols in their
    configured order. *)
Theorem whitelist_order_sorted_stable (tokens : list TokenConfig) :
  Sorted symbol_le (_iter_whitelisted_tokens tokens)
  ∧ _iter_whitelisted_tokens tokens ≡ₚ tokens
  ∧ ∀ s, List.filter (λ t, String.eqb (symbol t) s) (_iter_whitelisted_tokens tokens)
         = List.filter (λ t, String.eqb (symbol t) s) tokens.
Proof.
  unfold _iter_whitelisted_tokens. induction tokens as [|t tokens (IH1 & IH2 & IH3)].
  - repeat split; constructor.
  - cbn [foldr]. split; [by apply insert_by_symbol_sorted|].
    split; [by rewrite insert_by_symbol_perm, IH2|].
    intros s. rewrite insert_by_symbol_filter. cbn [List.filter]. by rewrite IH3.
Qed.

Lemma sums_bounded (quotes : list SwapTokenQuote) :
  Forall (λ q, 0 <= min_usdc_out q <= assumed_usdc_out q) quotes →
  0 <= sum_ints (map min_usdc_out quotes) <= sum_ints (map assumed_usdc_out quotes).
Proof. induction 1; cbn [map sum_ints]; lia. Qed.

(** X2: the slippage step by itself.  Whenever [apply_discount]
    returns for a non-negative value and a positive multiplier, the
    result is the floor of the exact product or one more, is
    non-negative, has at most 28 digits, and for a multiplier of at
    most one does not exceed the value. *)
Theorem apply_discount_floor_or_one_more (value : Z) (multiplier : Decimal) (r : Z) :
  0 <= value → d_sign multiplier = false → 0 < d_int multiplier →
  Etiny <= d_exp multiplier <= 0 →
  apply_discount value multiplier = Ok r →
  let floor := value * d_int multiplier / 10 ^ (- d_exp multiplier) in
  floor <= r <= floor + 1
  ∧ 0 <= r < 10 ^ 28
  ∧ (at_most_one multiplier → r <= value)
  ∧ (value * d_int multiplier < 10 ^ 28 → r = floor).
Proof.
  destruct multiplier as [s m e]. cbn [d_sign d_int d_exp]. intros Hv -> Hm He Hr.
  cbv zeta.
  destruct (apply_discount_within_one value m e r Hv Hm He Hr) as (H1 & H2 & H3).
  split; [done|]. split; [done|]. split.
  - intros [_ Hle]. cbn [d_int d_exp] in Hle. by apply H3.
  - intros Hlt. rewrite apply_discount_exact in Hr by done. by injection Hr as <-.
Qed.

(** X3: the slippage step refuses what it cannot hold: when the floor
    of the exact product has more than 28 digits, [apply_discount]
    raises one of the signals the decimal context traps. *)
Theorem apply_discount_rejects_29_digits (value : Z) (multiplier : Decimal) :
  0 <= value → d_sign multiplier = false → 0 < d_int multiplier →
  Etiny <= d_exp multiplier <= 0 →
  10 ^ 28 <= value * d_int multiplier / 10 ^ (- d_exp multiplier) →
  ∃ err, apply_discount value multiplier = Raise err
         ∧ (exc_class err = InvalidOperation ∨ exc_class err = Overflow).
Proof.
  destruct multiplier as [s m e]. cbn [d_sign d_int d_exp]. intros Hv -> Hm He Hbig.
  by apply apply_discount_too_large.
Qed.

(** X4: every minimum in a plan is the floor of assumed output times
    tolerance or one more, and never above the assumed output; so the
    aggregate minimum lies between zero and the aggregate assumed
    output. *)
Theorem plan_minimums_bounded `{Web3Lib} config web3 chwomper_address contract_address
    quote_fn w r :
  fst (build_swap_parameters config web3 chwomper_address contract_address quote_fn w) = Ok r →
  0 < usdc_threshold (defaults config) →
  tolerance_in_range (slippage_tolerance (defaults config)) →
  Etiny <= d_exp (slippage_tolerance (defaults config)) →
  Forall (λ q,
    let floor := assumed_usdc_out q * d_int (slippage_tolerance (defaults config))
                 / 10 ^ (- d_exp (slippage_tolerance (defaults config))) in
    floor <= min_usdc_out q <= floor + 1
    ∧ 0 <= min_usdc_out q <= assumed_usdc_out q) (token_quotes r)
  ∧ 0 <= min_total_usdc r <= assumed_total_usdc r.
Proof.
  destruct (build_swap_parameters _ _ _ _ _ w) as [res w'] eqn:Hrun. cbn [fst].
  intros -> Hthr (Hs & Hm & He & Hle) Het.
  apply build_swap_parameters_ok in Hrun as (st & [_ _ H3 H4 Hq] & _ & ->).
  cbn [token_quotes min_total_usdc assumed_total_usdc].
  assert (Hall : Forall (λ q,
    let floor := assumed_usdc_out q * d_int (slippage_tolerance (defaults config))
                 / 10 ^ (- d_exp (slippage_tolerance (defaults config))) in
    floor <= min_usdc_out q <= floor + 1
    ∧ 0 <= min_usdc_out q <= assumed_usdc_out q) (l_quotes_collected st)).
  { eapply Forall_impl; [apply Hq|]. intros q (_ & Ha & Hd). cbv beta zeta.
    assert (Hq0 : 0 <= assumed_usdc_out q) by lia.
    destruct (slippage_tolerance (defaults config)) as [s m e].
    cbn [d_sign d_int d_exp] in *. subst s.
    destruct (apply_discount_within_one _ m e _ Hq0 Hm ltac:(done) Hd) as (H1 & H2 & Hone).
    split; [done|]. split; [lia|]. by apply Hone. }
  split; [done|]. rewrite H3, H4. apply sums_bounded.
  eapply Forall_impl; [apply Hall|]. by intros q [_ ?].
Qed.

(** X5: which tokens a plan holds.  With the handle cache bound to
    the connection, the quotes of a returned plan are those of exactly
    the whitelisted tokens the loop keeps (non-zero balance, a quote,
    assumed output at or above the threshold), in ascending symbol
    order; each holds the token's whole balance as read from the chain
    and the executor and payload the route service answered for it. *)
Theorem plan_holds_the_eligible_tokens `{Web3Lib} config web3 chwomper_address
    contract_address quote_fn w r :
  cache_coherent w web3 →
  fst (build_swap_parameters config web3 chwomper_address contract_address quote_fn w) = Ok r →
  map quote_token (token_quotes r)
  = List.filter (eligible config web3 chwomper_address contract_address quote_fn)
      (_iter_whitelisted_tokens (whitelisted_tokens (base_contracts config)))
  ∧ Forall (quoted_as config web3 chwomper_address contract_address quote_fn) (token_quotes r)
  ∧ token_quotes r ≠ [].
Proof.
  intros Hw. destruct (build_swap_parameters _ _ _ _ _ w) as [res w'] eqn:Hrun. cbn [fst].
  intros ->.
  pose proof Hrun as (st0 & [Hin _ _ _ _] & Hne & Hr)%build_swap_parameters_ok.
  apply build_swap_parameters_loop in Hrun as (st & Hloop & Hq & _).
  apply swap_loop_coherent in Hloop as (_ & _ & new & Hnew & Hmap & Hall); [|done].
  cbn [swap_locals0 l_quotes_collected app] in Hnew. rewrite Hq, Hnew.
  split; [done|]. split; [done|].
  rewrite <- Hnew, <- Hq, Hr. cbn [token_quotes]. intros Hnil.
  rewrite Hnil in Hin. by apply Hne.
Qed.

(** X6: the contract reads and quote requests of a successful build,
    in order: for each whitelisted token in ascending symbol order one
    [balanceOf] read of the holder's balance, followed when that
    balance is not zero by one call of the quote function, asked to
    swap the whole balance into the settlement asset with the contract
    as sender and recipient.  No other contract read or quote request
    is made and none is repeated.  (Connection probes are not among
    the recorded calls.) *)
Theorem plan_calls_once_per_token `{Web3Lib} config web3 chwomper_address
    contract_address quote_fn w r w' :
  cache_coherent w web3 →
  build_swap_parameters config web3 chwomper_address contract_address quote_fn w = (Ok r, w') →
  calls w'
  = (calls w ++
     List.concat (map (visit_calls config web3 chwomper_address contract_address)
                    (_iter_whitelisted_tokens (whitelisted_tokens (base_contracts config)))))%list.
Proof.
  intros Hw Hrun.
  apply build_swap_parameters_loop in Hrun as (st & Hloop & _).
  by apply swap_loop_coherent in Hloop as (_ & Hcalls & _).
Qed.

(** X7: an oversized quote is not skipped.  If some whitelisted token
    has a non-zero balance and a quote at or above the threshold whose
    discounted output would need more than 28 digits, the build raises
    whatever the other tokens are. *)
Theorem oversized_quote_aborts_build `{Web3Lib} config web3 chwomper_address
    contract_address quote_fn w :
  cache_coherent w web3 →
  d_sign (slippage_tolerance (defaults config)) = false →
  0 < d_int (slippage_tolerance (defaults config)) →
  Etiny <= d_exp (slippage_tolerance (defaults config)) <= 0 →
  Exists (oversized config web3 chwomper_address contract_address quote_fn)
         (whitelisted_tokens (base_contracts config)) →
  ∃ e, fst (build_swap_parameters config web3 chwomper_address contract_address quote_fn w)
       = Raise e.
Proof.
  intros Hw Hs Hm He Hex.
  assert (Hex' : Exists (oversized config web3 chwomper_address contract_address quote_fn)
                   (_iter_whitelisted_tokens (whitelisted_tokens (base_contracts config)))).
  { apply Exists_exists in Hex as (t & Hin & Ht). apply Exists_exists. exists t.
    split; [by rewrite iter_whitelisted_perm|done]. }
  unfold build_swap_parameters. rewrite bind_lift.
  destruct (ensure_web3_connected _ _) as [[]|e]; [|by eauto].
  destruct (_iter_whitelisted_tokens _) as [|t ts] eqn:Et; [by eauto|].
  destruct (swap_loop_oversized config web3 chwomper_address contract_address quote_fn
              (t :: ts) swap_locals0 w Hw Hs Hm He Hex') as (e & w1 & Hl).
  unfold bind. rewrite Hl. eauto.
Qed.

(** ** Properties of the literals and of the configuration *)

(** X8: [hex_to_bytes] undoes [bytes.hex], with or without the lower
    case [0x] in front; an upper-case [0X] is not taken for a prefix
    and makes the conversion fail with a [ValueError]. *)
Theorem hex_to_bytes_round_trip (b : list byte) (s : string) :
  hex_to_bytes (bytes_hex b) = Ok b
  ∧ hex_to_bytes ("0x" +:+ bytes_hex b) = Ok b
  ∧ ∃ e, hex_to_bytes ("0X" +:+ s) = Raise e ∧ exc_class e = ValueError.
Proof.
  split; [apply hex_to_bytes_hex|]. split; [apply bytes_fromhex_hex|].
  change (hex_to_bytes ("0X" +:+ s)) with (bytes_fromhex (String "0" (String "X" s))).
  unfold bytes_fromhex.
  change (first_non_ascii 0 (String "0" (String "X" s))) with (first_non_ascii 2 s).
  destruct (first_non_ascii 2 s); eexists; (split; [reflexivity|done]).
Qed.

Section config_facts.
Context `{Web3Lib}.

Lemma to_checksum_ok value field_name a :
  _to_checksum value field_name = Ok a → checksum value = Ok a ∧ checksum a = Ok a.
Proof.
  unfold _to_checksum. destruct (checksum value) as [a'|e] eqn:E; [|discriminate].
  intros [= <-]. split; [done|]. unfold checksum in *. by eapply to_checksum_address_fixed.
Qed.

Lemma normalize_items_ok items : ∀ res,
  _normalize_items items = Ok res →
  map symbol res = items.*1
  ∧ Forall2 (λ it t, checksum it.2 = Ok (address t)) items res
  ∧ Forall (λ t, checksum (address t) = Ok (address t)) res.
Proof.
  induction items as [|[sym addr] items IH]; intros res; cbn [_normalize_items].
  - intros [= <-]. repeat split; constructor.
  - destruct (_to_checksum addr _) as [a|e] eqn:Ea; [|discriminate]. cbn [rbind].
    destruct (_normalize_items items) as [tl|e]; [|discriminate]. cbn [rbind].
    intros [= <-]. destruct (IH tl eq_refl) as (IH1 & IH2 & IH3).
    apply to_checksum_ok in Ea as [Ea1 Ea2].
    cbn [map fmap list_fmap symbol address fst]. split; [by f_equal|].
    split; by constructor.
Qed.

Lemma normalize_items_error items : ∀ e,
  _normalize_items items = Raise e →
  ∃ before sym addr after cause,
    items = (before ++ (sym, addr) :: after)%list
    ∧ Forall (λ it, is_ok (checksum it.2) = true) before
    ∧ checksum addr = Raise cause
    ∧ e = ExcFrom ConfigError
            ("Invalid address for whitelisted token " +:+ sym +:+ ": " +:+ addr) cause.
Proof.
  induction items as [|[sym addr] items IH]; intros e; cbn [_normalize_items]; [discriminate|].
  unfold _to_checksum. destruct (checksum addr) as [a|cause] eqn:Ea.
  - cbn [rbind]. destruct (_normalize_items items) as [tl|e'] eqn:Et; [discriminate|].
    cbn [rbind]. intros [= <-].
    destruct (IH e' eq_refl) as (before & sym' & addr' & after & cause & -> & Hb & Hc & ->).
    exists ((sym, addr) :: before), sym', addr', after, cause.
    split; [done|]. split; [|done]. constructor; [|done]. cbn. by rewrite Ea.
  - cbn [rbind raise_from]. intros [= <-]. by exists [], sym, addr, items, cause.
Qed.

Lemma enumerate_from_fst {A} (l : list A) : ∀ i,
  (enumerate_from i l).*1 = map (λ k : nat, pretty k) (seq i (List.length l))
  ∧ (enumerate_from i l).*2 = l.
Proof.
  induction l as [|x l IH]; intros i; [done|]. cbn. destruct (IH (S i)) as [-> ->]. done.
Qed.

End config_facts.

(** X9: what a loaded whitelist looks like.  When [_normalize_tokens]
    returns, the list is not empty, every address is the checksummed
    form of the configured one (and so its own checksummed form), and
    the symbols are the keys of the mapping in their order, or the
    positions 0, 1, 2, ... of a plain list of addresses. *)
Theorem normalize_tokens_checksummed `{Web3Lib} (tokens : TokensJson)
    (res : list TokenConfig) :
  _normalize_tokens tokens = Ok res →
  res ≠ []
  ∧ Forall (λ t, checksum (address t) = Ok (address t)) res
  ∧ match tokens with
    | TokMapping items =>
        map symbol res = items.*1
        ∧ Forall2 (λ it t, checksum it.2 = Ok (address t)) items res
    | TokList addrs =>
        map symbol res = map (λ k : nat, pretty k) (seq 0 (List.length addrs))
        ∧ Forall2 (λ a t, checksum a = Ok (address t)) addrs res
    | TokOther => False
    end.
Proof.
  unfold _normalize_tokens. destruct tokens as [items|addrs|]; cbn [rbind raise];
    [| |discriminate].
  - destruct (_normalize_items items) as [r|e] eqn:E; [|discriminate]. cbn [rbind].
    destruct r as [|t r]; [discriminate|]. intros [= <-].
    apply normalize_items_ok in E as (E1 & E2 & E3). done.
  - destruct (_normalize_items _) as [r|e] eqn:E; [|discriminate]. cbn [rbind].
    destruct r as [|t r]; [discriminate|]. intros [= <-].
    apply normalize_items_ok in E as (E1 & E2 & E3).
    destruct (enumerate_from_fst addrs 0%nat) as [F1 F2].
    split; [done|]. split; [done|]. split; [by rewrite E1, F1|].
    rewrite <- F2 at 1. apply Forall2_fmap_l. done.
Qed.

(** X10: every way [_normalize_tokens] fails is a [ConfigError]: the
    value is neither a mapping nor a list, the list is empty, or some
    address is refused by the library.  In the last case the error
    names the first such entry by symbol and address and carries the
    library's exception as its cause. *)
Theorem normalize_tokens_failures `{Web3Lib} (tokens : TokensJson) (e : PyExc) :
  _normalize_tokens tokens = Raise e →
  exc_class e = ConfigError
  ∧ (tokens = TokOther
     ∨ tokens = TokMapping [] ∨ tokens = TokList []
     ∨ ∃ before sym addr after cause,
         match tokens with
         | TokMapping items => items
         | TokList addrs => enumerate_from 0 addrs
         | TokOther => []
         end = (before ++ (sym, addr) :: after)%list
         ∧ Forall (λ it, is_ok (checksum it.2) = true) before
         ∧ checksum addr = Raise cause
         ∧ e = ExcFrom ConfigError
                 ("Invalid address for whitelisted token " +:+ sym +:+ ": " +:+ addr) cause).
Proof.
  unfold _normalize_tokens. destruct tokens as [items|addrs|]; cbn [rbind raise].
  - destruct (_normalize_items items) as [r|e'] eqn:E; cbn [rbind].
    + destruct r as [|t r]; [|discriminate]. intros [= <-]. split; [done|].
      destruct items as [|[s a] items]; [by auto|]. cbn [_normalize_items] in E.
      destruct (_to_checksum a _); [|discriminate]. cbn [rbind] in E.
      destruct (_normalize_items items); discriminate.
    + intros [= <-]. apply normalize_items_error in E
        as (before & sym & addr & after & cause & -> & Hb & Hc & ->).
      split; [done|]. do 3 right. by exists before, sym, addr, after, cause.
  - destruct (_normalize_items _) as [r|e'] eqn:E; cbn [rbind].
    + destruct r as [|t r]; [|discriminate]. intros [= <-]. split; [done|].
      destruct addrs as [|a addrs]; [by auto|]. cbn [enumerate_from _normalize_items] in E.
      destruct (_to_checksum a _); [|discriminate]. cbn [rbind] in E.
      destruct (_normalize_items _); discriminate.
    + intros [= <-]. apply normalize_items_error in E
        as (before & sym & addr & after & cause & E & Hb & Hc & ->).
      split; [done|]. do 3 right. by exists before, sym, addr, after, cause.
  - intros [= <-]. auto.
Qed.

(** ** Properties of the executor check and of the route request *)

Section executor_facts.
Context (is_checksum_address : string → bool).

Lemma validate_executors_from_ok executors : ∀ index,
  validate_executors_from is_checksum_address index executors = Ok ()
  ↔ Forall (λ ex, is_checksum_address ex.1.1 = true ∧ ∃ b, ex.2 = VBytes b) executors.
Proof.
  induction executors as [|[[a v] d] executors IH]; intros index; cbn [validate_executors_from].
  - split; [constructor|done].
  - destruct (is_checksum_address a) eqn:Ea; cbn [negb].
    + destruct d as [s|b|z|]; try (split; [discriminate|];
        intros [[_ [b Hb]] _]%Forall_cons; discriminate).
      rewrite IH. split.
      * intros Hall. constructor; [|done]. split; [done|]. by exists b.
      * by intros [_ ?]%Forall_cons.
    + split; [discriminate|]. intros [[Hc _] _]%Forall_cons. cbn in Hc. congruence.
Qed.

Lemma validate_executors_from_error executors : ∀ index e,
  validate_executors_from is_checksum_address index executors = Raise e →
  ∃ i ex,
    executors !! i = Some ex
    ∧ Forall (λ ex, is_checksum_address ex.1.1 = true ∧ ∃ b, ex.2 = VBytes b) (take i executors)
    ∧ ((is_checksum_address ex.1.1 = false
        ∧ e = Exc ValueError ("Executor #" +:+ pretty (index + i)%nat
                              +:+ " has invalid address: " +:+ ex.1.1))
       ∨ (is_checksum_address ex.1.1 = true
          ∧ (∀ b, ex.2 ≠ VBytes b)
          ∧ e = Exc TypeError ("Executor #" +:+ pretty (index + i)%nat
                               +:+ " data must be bytes-like"))).
Proof.
  induction executors as [|[[a v] d] executors IH]; intros index e;
    cbn [validate_executors_from]; [discriminate|].
  destruct (is_checksum_address a) eqn:Ea; cbn [negb].
  - destruct d as [s|b|z|].
    2:{ intros (i & ex & Hi & Hall & Hcase)%IH. exists (S i), ex.
        split; [done|]. split.
        - cbn [take]. constructor; [|done]. split; [done|]. by exists b.
        - by replace (index + S i)%nat with (S index + i)%nat by lia. }
    all: intros [= <-]; eexists 0%nat, _; split; [reflexivity|]; split; [constructor|];
      right; rewrite Nat.add_0_r; split; [done|]; split; [intros b; discriminate|done].
  - intros [= <-]. exists 0%nat, (a, v, d). split; [done|]. split; [constructor|].
    left. rewrite Nat.add_0_r. done.
Qed.

Lemma validate_planned_executors (planned : list (string * Z * list byte)) :
  validate_executor_payloads is_checksum_address (executor_values planned) = Ok ()
  ↔ Forall (λ ex, is_checksum_address ex.1.1 = true) planned.
Proof.
  unfold validate_executor_payloads.
  rewrite validate_executors_from_ok. unfold executor_values. rewrite Forall_map.
  apply Forall_iff. intros [[a v] d]. cbn. split; [by intros [? _]|].
  intros Ha. split; [done|]. by exists d.
Qed.

End executor_facts.

(** X11: [validate_executor_payloads] accepts a list exactly when
    every entry has a checksummed address and a bytes payload.  The
    executors of a swap plan always carry bytes, so for them only the
    addresses decide. *)
Theorem executor_payloads_accepted (is_checksum_address : string → bool)
    (executors : list (string * Z * PyVal)) (planned : list (string * Z * list byte)) :
  (validate_executor_payloads is_checksum_address executors = Ok ()
   ↔ Forall (λ ex, is_checksum_address ex.1.1 = true ∧ ∃ b, ex.2 = VBytes b) executors)
  ∧ (validate_executor_payloads is_checksum_address (executor_values planned) = Ok ()
     ↔ Forall (λ ex, is_checksum_address ex.1.1 = true) planned).
Proof.
  split; [apply validate_executors_from_ok|apply validate_planned_executors].
Qed.

(** X12: a rejected list is rejected at its first offending entry,
    numbered from one; within an entry the address is looked at before
    the payload, so a bad address is a [ValueError] even when the
    payload is not bytes either. *)
Theorem executor_payloads_first_offender (is_checksum_address : string → bool)
    (executors : list (string * Z * PyVal)) (e : PyExc) :
  validate_executor_payloads is_checksum_address executors = Raise e →
  ∃ i ex,
    executors !! i = Some ex
    ∧ Forall (λ ex, is_checksum_address ex.1.1 = true ∧ ∃ b, ex.2 = VBytes b)
             (take i executors)
    ∧ ((is_checksum_address ex.1.1 = false
        ∧ e = Exc ValueError ("Executor #" +:+ pretty (S i)
                              +:+ " has invalid address: " +:+ ex.1.1))
       ∨ (is_checksum_address ex.1.1 = true
          ∧ (∀ b, ex.2 ≠ VBytes b)
          ∧ e = Exc TypeError ("Executor #" +:+ pretty (S i)
                               +:+ " data must be bytes-like"))).
Proof.
  unfold validate_executor_payloads.
  intros (i & ex & Hi & Hall & Hcase)%validate_executors_from_error.
  exists i, ex. split; [done|]. split; [done|]. done.
Qed.

Section route_facts.
Context `{Web3Lib}.

Lemma checksum_fixed s a : checksum s = Ok a → checksum a = Ok a.
Proof. unfold checksum. apply to_checksum_address_fixed. Qed.

Lemma route_executor_checksummed tx_data a hx :
  route_executor tx_data = Ok (a, hx) → checksum a = Ok a.
Proof.
  unfold route_executor. destruct (route_executor_multi tx_data) as [r|e] eqn:Em.
  - intros [= ->]. unfold route_executor_multi in Em.
    destruct (_decode_snwap_multiple tx_data) as [multi|]; [|discriminate]. cbn [rbind] in Em.
    destruct (md_executors multi) as [|x xs]; [discriminate|].
    destruct (checksum (ex_executor x)) as [a'|] eqn:Ea; [|discriminate].
    cbn [rbind] in Em. injection Em as <- _. by eapply checksum_fixed.
  - destruct (_decode_snwap tx_data) as [single|e'] eqn:Es; [|discriminate]. cbn [rbind].
    intros [= <- <-].
    apply decode_snwap_payload in Es as (raw & params & _ & _ & Hc & _).
    by eapply checksum_fixed.
Qed.

End route_facts.

(** X13: what a returned route quote holds.  The executor and the
    recipient are in checksummed form, the recipient being the
    request's recipient when one is given and the sender otherwise;
    the chain id is the configured one and the node built for the
    configured endpoint is connected to that chain; the block number
    is that node's. *)
Theorem route_quote_checksummed `{Web3Lib} http_get web3_factory config req q :
  request_swap_route http_get web3_factory config req = Ok q →
  checksum (sq_executor q) = Ok (sq_executor q)
  ∧ checksum (match qr_recipient req with
              | Some r => if String.eqb r "" then qr_sender req else r
              | None => qr_sender req
              end) = Ok (sq_recipient q)
  ∧ checksum (sq_recipient q) = Ok (sq_recipient q)
  ∧ sq_chain_id q = chain_id (base_chain config)
  ∧ ∃ rpc, ensure_rpc_url (base_chain config) = Ok rpc
      ∧ ensure_web3_connected (web3_factory rpc) (Some (chain_id (base_chain config))) = Ok ()
      ∧ sq_block_number q = eth_block_number (web3_factory rpc).
Proof.
  unfold request_swap_route.
  assert (Hrcp : match qr_recipient req with
              | Some r => if String.eqb r "" then checksum (qr_sender req) else checksum r
              | None => checksum (qr_sender req)
              end = checksum (match qr_recipient req with
              | Some r => if String.eqb r "" then qr_sender req else r
              | None => qr_sender req
              end)).
  { destruct (qr_recipient req) as [r|]; [|done]. by destruct (String.eqb r ""). }
  rewrite Hrcp. clear Hrcp.
  destruct (checksum (qr_token_in req)); [|discriminate]. cbn [rbind].
  destruct (checksum (qr_token_out req)); [|discriminate]. cbn [rbind].
  destruct (checksum (qr_sender req)) as [sender|] eqn:Es; [|discriminate]. cbn [rbind].
  destruct (checksum (match qr_recipient req with Some _ => _ | None => _ end))
    as [recipient|] eqn:Hrcp; [|discriminate]. cbn [rbind].
  destruct (http_get _ _ _) as [exc|json]; [discriminate|].
  destruct json as [payload|]; [|discriminate]. cbn [rbind].
  destruct (negb _); [discriminate|].
  destruct (pl_tx_data payload) as [tx|]; [|discriminate].
  destruct tx as [|c tx]; [discriminate|].
  destruct (route_executor _) as [[ex_a hx]|] eqn:Eroute; [|discriminate]. cbn [rbind fst snd].
  destruct (ensure_rpc_url _) as [rpc|]; [|discriminate]. cbn [rbind].
  destruct (ensure_web3_connected _ _) as [[]|] eqn:Econn; [|discriminate]. cbn [rbind].
  destruct (hex_to_bytes hx); [|discriminate]. cbn [rbind].
  destruct (require_key (pl_amountIn payload) _); [|discriminate]. cbn [rbind].
  destruct (py_int _); [|discriminate]. cbn [rbind].
  destruct (require_key (pl_assumedAmountOut payload) _); [|discriminate]. cbn [rbind].
  destruct (py_int _); [|discriminate]. cbn [rbind].
  intros [= <-]. cbn [sq_executor sq_recipient sq_chain_id sq_block_number].
  split; [by eapply route_executor_checksummed|].
  split; [done|].
  split; [by eapply checksum_fixed|].
  split; [done|]. by exists rpc.
Qed.

(** ** Properties of the bridge quote request *)

Section jumper_facts.
Context `{Web3Lib}.

Lemma decode_transaction_call_ok abi_file lifi_contract web3 lifi tx d :
  _decode_transaction_call abi_file lifi_contract web3 lifi tx = Ok d →
  ∃ to data,
    tx_to tx = Some to ∧ to_checksum_address to = Ok (dc_to d)
    ∧ tx_data tx = Some data ∧ slice10 data = Ok (dc_selector d)
    ∧ ((dc_decoded d = None ∧ ∃ note, dc_note d = Some note)
       ∨ (dc_note d = None
          ∧ lower (dc_to d) = lower lifi
          ∧ ∃ decode_function_input x,
              lifi_contract web3 lifi = Ok decode_function_input
              ∧ decode_function_input data = Ok x
              ∧ dc_decoded d = Some x)).
Proof.
  unfold _decode_transaction_call.
  destruct (tx_to tx) as [to|]; [|intros [=]]. cbn [require_key rbind].
  destruct (to_checksum_address to) as [target|] eqn:Ecs; [|intros [=]]. cbn [require_key rbind].
  destruct (tx_data tx) as [data|]; [|intros [=]]. cbn [require_key rbind].
  destruct (slice10 data) as [selector|] eqn:Esel; [|intros [=]]. cbn [require_key rbind].
  destruct (String.eqb (lower target) (lower lifi)) eqn:El; cbn [negb].
  2:{ intros [= <-]. exists to, data. cbn. split_and!; try done. left. eauto. }
  apply String.eqb_eq in El.
  destruct (_load_lifi_abi abi_file) as [abi|]; [|intros [=]]. cbn [require_key rbind].
  destruct abi as [[|n]|].
  1,3: intros [= <-]; exists to, data; cbn; split_and!; try done; left; eauto.
  destruct (lifi_contract web3 lifi) as [f|] eqn:Ec; [|intros [=]]. cbn [require_key rbind].
  destruct (f data) as [x|exc] eqn:Ef; intros [= <-]; exists to, data; cbn;
    split_and!; try done.
  - right. split_and!; try done. by exists f, x.
  - left. eauto.
Qed.

End jumper_facts.


(** X15: decoding is only a diagnostic.  If the bridge quote request
    returns with one contract handle, it returns with any other handle
    too, whatever that handle's [decode_function_input] answers or
    raises, and the quote, the transaction, the target and the
    selector are the same. *)
Theorem jumper_decode_is_diagnostic `{Web3Lib} http_get web3_factory abi_file
    (decode1 decode2 : PyVal → result DecodedInputs) config req r1 :
  get_jumper_transaction http_get web3_factory abi_file (λ _ _, Ok decode1) config req = Ok r1 →
  ∃ r2,
    get_jumper_transaction http_get web3_factory abi_file (λ _ _, Ok decode2) config req = Ok r2
    ∧ jt_quote r2 = jt_quote r1
    ∧ jt_transaction r2 = jt_transaction r1
    ∧ dc_to (jt_decoded r2) = dc_to (jt_decoded r1)
    ∧ dc_selector (jt_decoded r2) = dc_selector (jt_decoded r1).
Proof.
  unfold get_jumper_transaction.
  destruct (checksum (jr_from_address req)); [|intros [=]]. cbn [require_key rbind].
  destruct (checksum (jr_to_address req)); [|intros [=]]. cbn [require_key rbind].
  destruct (http_get _ _ _) as [exc|json]; [intros [=]|].
  destruct json as [data|]; [|intros [=]]. cbn [require_key rbind].
  destruct (require_key (lr_transactionRequest data) _) as [tx|]; [|intros [=]]. cbn [require_key rbind].
  destruct (ensure_rpc_url _) as [rpc|]; [|intros [=]]. cbn [require_key rbind].
  destruct (ensure_web3_connected _ _) as [[]|]; [|intros [=]]. cbn [require_key rbind].
  unfold _decode_transaction_call.
  destruct (require_key (tx_to tx) _) as [to|]; [|intros [=]]. cbn [require_key rbind].
  destruct (to_checksum_address to) as [target|]; [|intros [=]]. cbn [require_key rbind].
  destruct (require_key (tx_data tx) _) as [payload|]; [|intros [=]]. cbn [require_key rbind].
  destruct (slice10 payload) as [selector|]; [|intros [=]]. cbn [require_key rbind].
  destruct (negb _).
  { intros [= <-]. eexists. split; [reflexivity|done]. }
  destruct (_load_lifi_abi abi_file) as [abi|]; [|intros [=]]. cbn [require_key rbind].
  destruct abi as [[|n]|].
  1,3: intros [= <-]; eexists; split; [reflexivity|done].
  destruct (decode1 payload), (decode2 payload); intros [= <-];
    eexists; (split; [reflexivity|done]).
Qed.

(** X16: what the default quote function has already checked.  The
    details it returns always carry a transaction that has a [to] the
    library accepts as an address and a [data] member whose first ten
    items could be taken, and the node behind the configured endpoint
    is connected to the configured chain.  So when [build_bridge_call]
    reads the envelope afterwards, the transaction, its [to] and its
    [data] are there and the target is accepted; what can still fail
    is the conversion of [data] and the [value] member. *)
Theorem default_quote_envelope_checked `{Web3Lib} http_get web3_factory abi_file
    lifi_contract config req jd :
  default_jumper_fn http_get web3_factory abi_file lifi_contract config req = Ok jd →
  ∃ tx to target data rpc,
    jd_transaction jd = Some tx
    ∧ tx_to tx = Some to ∧ to_checksum_address to = Ok target
    ∧ tx_data tx = Some data
    ∧ (∃ selector, slice10 data = Ok selector)
    ∧ ensure_rpc_url (base_chain config) = Ok rpc
    ∧ ensure_web3_connected (web3_factory rpc) (Some (chain_id (base_chain config))) = Ok ().
Proof.
  unfold default_jumper_fn, get_jumper_transaction.
  destruct (checksum (jr_from_address req)); [|intros [=]]. cbn [require_key rbind].
  destruct (checksum (jr_to_address req)); [|intros [=]]. cbn [require_key rbind].
  destruct (http_get _ _ _) as [exc|json]; [intros [=]|].
  destruct json as [data|]; [|intros [=]]. cbn [require_key rbind].
  destruct (require_key (lr_transactionRequest data) _) as [tx|]; [|intros [=]]. cbn [require_key rbind].
  destruct (ensure_rpc_url _) as [rpc|]; [|intros [=]]. cbn [require_key rbind].
  destruct (ensure_web3_connected _ _) as [[]|] eqn:Econn; [|intros [=]]. cbn [require_key rbind].
  destruct (_decode_transaction_call _ _ _ _ tx) as [d|] eqn:Ed; [|intros [=]].
  cbn [require_key rbind]. intros [= <-].
  apply decode_transaction_call_ok in Ed as (to & payload & Hto & Hcs & Hdata & Hsel & _).
  exists tx, to, (dc_to d), payload, rpc. cbn [jumper_details jd_transaction jt_transaction].
  split_and!; try done. by exists (dc_selector d).
Qed.

(** ** Properties of the handle cache and of the node checks *)

Section extends_facts.
Context `{Web3Lib} (web3 : Web3).

Lemma extends_ret {A} (a : A) : cache_extends web3 (ret a).
Proof. intros w. cbn. split; [done|]. intros k c Hk Hn. congruence. Qed.

Lemma extends_lift {A} (r : result A) : cache_extends web3 (lift r).
Proof. intros w. cbn. split; [done|]. intros k c Hk Hn. congruence. Qed.

Lemma extends_record_call c : cache_extends web3 (record_call c).
Proof. intros w. cbn. split; [done|]. intros k c' Hk Hn. congruence. Qed.

Lemma extends_bind {A B} (m : M A) (k : A → M B) :
  cache_extends web3 m → (∀ a, cache_extends web3 (k a)) →
  cache_extends web3 (bind m k).
Proof.
  intros Hm Hk w. unfold bind. specialize (Hm w).
  destruct (m w) as [[a|e] w1]; cbn [snd] in Hm; [|done].
  destruct Hm as [Hsub Hnew]. destruct (Hk a w1) as [Hsub' Hnew'].
  split; [by etrans|].
  intros key c Hkey Hnone.
  destruct (_CONTRACT_CACHE w1 !! key) as [c1|] eqn:E1.
  - assert (c = c1) as ->.
    { pose proof (lookup_weaken _ _ _ _ E1 Hsub') as E2. congruence. }
    by apply Hnew.
  - by apply Hnew'.
Qed.

Lemma extends_try {A} (m : M A) : cache_extends web3 m → cache_extends web3 (try_ m).
Proof. intros Hm w. specialize (Hm w). unfold try_. by destruct (m w). Qed.

Lemma extends_for_each {A S} (body : S → A → M S) (l : list A) :
  (∀ s x, cache_extends web3 (body s x)) → ∀ s, cache_extends web3 (for_each body l s).
Proof.
  intros Hb. induction l as [|x l IH]; intros s; cbn [for_each]; [apply extends_ret|].
  apply extends_bind; [apply Hb|apply IH].
Qed.

Lemma extends_get_or_create token_address :
  cache_extends web3 (_get_or_create_contract web3 token_address).
Proof.
  intros w. unfold _get_or_create_contract. rewrite bind_lift.
  destruct (checksum token_address) as [a|e] eqn:Ea.
  2:{ cbn. split; [done|]. intros; congruence. }
  destruct (_CONTRACT_CACHE w !! (obj_id web3, a)) as [c0|] eqn:E.
  { cbn. split; [done|]. intros; congruence. }
  cbn [snd _CONTRACT_CACHE]. split; [by apply insert_subseteq|].
  intros k c Hk Hn. destruct (decide (k = (obj_id web3, a))) as [->|Hne].
  - rewrite lookup_insert_eq in Hk. injection Hk as <-. cbn [fst snd].
    split; [done|]. split; [|done]. unfold checksum in *.
    by eapply to_checksum_address_fixed.
  - rewrite lookup_insert_ne in Hk by done. congruence.
Qed.

Lemma extends_get_contract token_address :
  cache_extends web3 (get_contract web3 token_address).
Proof.
  unfold get_contract. apply extends_bind; [apply extends_lift|].
  intros _. apply extends_get_or_create.
Qed.

Lemma extends_balance_of token_address owner :
  cache_extends web3 (balance_of web3 token_address owner).
Proof.
  unfold balance_of. apply extends_bind; [apply extends_get_contract|]. intros c.
  apply extends_bind; [apply extends_lift|]. intros o.
  apply extends_bind; [apply extends_record_call|]. intros _. apply extends_lift.
Qed.

Lemma extends_allowance_of token_address owner spender :
  cache_extends web3 (allowance_of web3 token_address owner spender).
Proof.
  unfold allowance_of. apply extends_bind; [apply extends_get_contract|]. intros c.
  apply extends_bind; [apply extends_lift|]. intros o.
  apply extends_bind; [apply extends_lift|]. intros sp.
  apply extends_bind; [apply extends_record_call|]. intros _. apply extends_lift.
Qed.

Lemma extends_swap_visit config chwomper_address contract_address quote_fn st token :
  cache_extends web3
    (swap_visit config web3 chwomper_address contract_address quote_fn st token).
Proof.
  unfold swap_visit. apply extends_bind; [apply extends_balance_of|]. intros b.
  destruct (b =? 0); [apply extends_ret|].
  apply extends_bind.
  { apply extends_try. unfold call_quote.
    apply extends_bind; [apply extends_record_call|]. intros _. apply extends_lift. }
  intros [q|e]; [|apply extends_ret].
  destruct (_ <? _); [apply extends_ret|].
  apply extends_bind; [apply extends_lift|]. intros m. apply extends_ret.
Qed.

Lemma extends_build_swap_parameters config chwomper_address contract_address quote_fn :
  cache_extends web3
    (build_swap_parameters config web3 chwomper_address contract_address quote_fn).
Proof.
  unfold build_swap_parameters. apply extends_bind; [apply extends_lift|]. intros _.
  destruct (_iter_whitelisted_tokens _); [apply extends_lift|].
  apply extends_bind.
  - apply extends_for_each. intros. apply extends_swap_visit.
  - intros st. destruct (l_input_tokens st); [apply extends_lift|apply extends_ret].
Qed.

Lemma extends_validate_token config symbol_map results it :
  cache_extends web3 (validate_token config web3 symbol_map results it).
Proof.
  destruct it as [[a n] t]. unfold validate_token.
  apply extends_bind; [apply extends_balance_of|]. intros b.
  apply extends_bind; [apply extends_allowance_of|]. intros al.
  apply extends_bind; [apply extends_lift|]. intros cs.
  destruct (_ <? _); [apply extends_lift|apply extends_ret].
Qed.

Lemma extends_validate_swap_inputs config input_tokens output_tokens executors :
  cache_extends web3
    (validate_swap_inputs config web3 input_tokens output_tokens executors).
Proof.
  unfold validate_swap_inputs. apply extends_bind; [apply extends_lift|]. intros _.
  destruct input_tokens; [apply extends_lift|].
  destruct output_tokens; [apply extends_lift|].
  destruct executors; [apply extends_lift|].
  apply extends_for_each. intros. apply extends_validate_token.
Qed.

Lemma extends_build_bridge_call config contract_address min_total_usdc jumper_fn :
  cache_extends web3
    (build_bridge_call config web3 contract_address min_total_usdc jumper_fn).
Proof.
  unfold build_bridge_call. apply extends_bind; [apply extends_lift|]. intros _.
  apply extends_bind; [apply extends_balance_of|]. intros b.
  apply extends_bind.
  { unfold call_jumper. apply extends_bind; [apply extends_record_call|]. intros _.
    apply extends_lift. }
  intros jd.
  repeat (apply extends_bind; [apply extends_lift|]; intros ?).
  apply extends_ret.
Qed.

Lemma extends_prepare_plan chk get_balance config signer quote_fn jumper_fn :
  cache_extends web3
    (prepare_plan chk get_balance config web3 signer quote_fn jumper_fn).
Proof.
  unfold prepare_plan.
  apply extends_bind; [apply extends_build_swap_parameters|]. intros sw.
  apply extends_bind; [apply extends_lift|]. intros _.
  apply extends_bind; [apply extends_validate_swap_inputs|]. intros tv.
  apply extends_bind; [apply extends_build_bridge_call|]. intros br.
  apply extends_bind; [apply extends_lift|]. intros nb.
  apply extends_bind; [apply extends_lift|]. intros bv. apply extends_ret.
Qed.

Lemma extends_snapshot_balances items owner :
  cache_extends web3 (snapshot_balances web3 items owner).
Proof.
  unfold snapshot_balances. apply extends_for_each. intros acc it.
  apply extends_bind; [apply extends_balance_of|]. intros b. apply extends_ret.
Qed.

(** The snapshot loop: keys outside the list keep what the
    accumulator had; with distinct keys every listed key ends up with
    the balance read for it. *)
Lemma snapshot_loop owner (items : list (string * string)) :
  ∀ (acc : gmap string Z) w (m : gmap string Z) w',
  cache_coherent w web3 →
  for_each (λ acc item,
              let* b := balance_of web3 (snd item) owner in
              ret (<[fst item := b]> acc)) items acc w = (Ok m, w') →
  (∀ sym, sym ∉ items.*1 → m !! sym = acc !! sym)
  ∧ (NoDup items.*1 →
     Forall (λ it, ∃ b, chain_balance web3 it.2 owner = Ok b ∧ m !! it.1 = Some b) items).
Proof.
  induction items as [|[sym addr] items IH]; intros acc w m w' Hw; cbn [for_each].
  - intros [= <- <-]. split; [done|]. constructor.
  - intros Hrun. apply bind_ok in Hrun as (acc1 & w1 & Hstep & Hrun).
    apply bind_ok in Hstep as (b & w0 & Hb & Hret).
    cbn [fst snd] in *. injection Hret as <- <-.
    destruct (balance_of_coherent web3 addr owner w Hw) as (w0' & Hb' & Hw0).
    rewrite Hb' in Hb. injection Hb as Hb <-.
    destruct (IH _ _ _ _ Hw0 Hrun) as [Hout Hin].
    split.
    + intros s Hs. rewrite fmap_cons, not_elem_of_cons in Hs. destruct Hs as [Hne Hs].
      rewrite Hout by done. cbn [fst] in Hne. by rewrite lookup_insert_ne.
    + rewrite fmap_cons. intros [Hsym Hnd]%NoDup_cons. cbn [fst] in Hsym.
      constructor; [|by apply Hin]. exists b. cbn [fst snd]. split; [done|].
      rewrite Hout by done. apply lookup_insert_eq.
Qed.

End extends_facts.

(** X17: what a run may do to the handle cache.  Preparing a plan, or
    taking a balance snapshot, never removes or replaces a cached
    handle, whether it returns or raises; every handle it adds belongs
    to the connection it was run on and sits under that connection's
    identity and an address in checksummed form. *)
Theorem run_only_adds_own_handles `{Web3Lib} web3 chk get_balance config signer
    quote_fn jumper_fn items owner :
  cache_extends web3 (prepare_plan chk get_balance config web3 signer quote_fn jumper_fn)
  ∧ cache_extends web3 (snapshot_balances web3 items owner).
Proof. split; [apply extends_prepare_plan|apply extends_snapshot_balances]. Qed.

(** X18: a balance snapshot over distinct symbols, taken with the
    handle cache bound to the connection, has exactly the listed
    symbols as keys, each with the balance the chain answers for its
    token and the owner. *)
Theorem snapshot_balances_reads_chain `{Web3Lib} web3
    (token_addresses : list (string * string)) owner w m w' :
  cache_coherent w web3 →
  NoDup token_addresses.*1 →
  snapshot_balances web3 token_addresses owner w = (Ok m, w') →
  Forall (λ it, ∃ b, chain_balance web3 it.2 owner = Ok b ∧ m !! it.1 = Some b)
         token_addresses
  ∧ ∀ sym, sym ∉ token_addresses.*1 → m !! sym = None.
Proof.
  intros Hw Hnd Hrun. unfold snapshot_balances in Hrun.
  apply snapshot_loop in Hrun as [Hout Hin]; [|done].
  split; [by apply Hin|]. intros sym Hs. by rewrite Hout.
Qed.

(** X19: a node that is not connected is never asked anything.  Every
    entry point fails with the same [ConnectionError] before any handle
    is cached and before any call is made: the cache and the list of
    calls are as they were. *)
Theorem offline_node_touches_nothing `{Web3Lib} web3 config chk get_balance signer
    quote_fn jumper_fn token owner spender chwomper_address contract_address
    min_total input_tokens output_tokens executors items w :
  is_connected web3 = false →
  let offline := Exc ConnectionError "Failed to connect to the configured RPC endpoint" in
  balance_of web3 token owner w = (Raise offline, w)
  ∧ allowance_of web3 token owner spender w = (Raise offline, w)
  ∧ build_swap_parameters config web3 chwomper_address contract_address quote_fn w
    = (Raise offline, w)
  ∧ validate_swap_inputs config web3 input_tokens output_tokens executors w
    = (Raise offline, w)
  ∧ build_bridge_call config web3 contract_address min_total jumper_fn w
    = (Raise offline, w)
  ∧ prepare_plan chk get_balance config web3 signer quote_fn jumper_fn w
    = (Raise offline, w)
  ∧ (items ≠ [] → snapshot_balances web3 items owner w = (Raise offline, w)).
Proof.
  intros Hoff offline.
  assert (Hany : ∀ expected, ensure_web3_connected web3 expected = Raise offline).
  { intros expected. unfold ensure_web3_connected. by rewrite Hoff. }
  assert (Hbal : ∀ t o, balance_of web3 t o w = (Raise offline, w)).
  { intros t o. unfold balance_of, get_contract, bind at 1. unfold bind at 1.
    unfold lift. by rewrite Hany. }
  assert (Hswap : ∀ chw ca,
    build_swap_parameters config web3 chw ca quote_fn w = (Raise offline, w)).
  { intros chw ca. unfold build_swap_parameters. by rewrite bind_lift, Hany. }
  split; [apply Hbal|]. split.
  { unfold allowance_of, get_contract, bind at 1. unfold bind at 1.
    unfold lift. by rewrite Hany. }
  split; [apply Hswap|]. split.
  { unfold validate_swap_inputs. by rewrite bind_lift, Hany. }
  split.
  { unfold build_bridge_call. by rewrite bind_lift, Hany. }
  split.
  { unfold prepare_plan, bind at 1. by rewrite Hswap. }
  intros Hne. destruct items as [|it items]; [done|].
  unfold snapshot_balances. cbn [for_each]. unfold bind at 1. unfold bind at 1.
  by rewrite Hbal.
Qed.

(** X20: the chain id is checked by the builders and by validation,
    not by the token reads.  On a connected node that reports another
    chain than the configured one, the three of them and the plan
    preparation fail with a [ValueError] naming both ids, leaving the
    cache and the list of calls as they were, while [balance_of] goes
    on to read the balance from that node. *)
Theorem wrong_chain_stops_builders `{Web3Lib} web3 config chk get_balance signer
    quote_fn jumper_fn token owner chwomper_address contract_address
    min_total input_tokens output_tokens executors w :
  is_connected web3 = true →
  eth_chain_id web3 ≠ chain_id (base_chain config) →
  cache_coherent w web3 →
  let mismatch :=
    Exc ValueError ("RPC chain ID mismatch: expected " +:+ pretty (chain_id (base_chain config))
                    +:+ ", got " +:+ pretty (eth_chain_id web3)) in
  build_swap_parameters config web3 chwomper_address contract_address quote_fn w
  = (Raise mismatch, w)
  ∧ validate_swap_inputs config web3 input_tokens output_tokens executors w
    = (Raise mismatch, w)
  ∧ build_bridge_call config web3 contract_address min_total jumper_fn w
    = (Raise mismatch, w)
  ∧ prepare_plan chk get_balance config web3 signer quote_fn jumper_fn w
    = (Raise mismatch, w)
  ∧ fst (balance_of web3 token owner w)
    = (let? t := checksum token in
       let? o := checksum owner in
       eth_call_balanceOf web3 t o).
Proof.
  intros Hon Hchain Hw mismatch.
  assert (Hany : ensure_web3_connected web3 (Some (chain_id (base_chain config)))
                 = Raise mismatch).
  { unfold ensure_web3_connected. rewrite Hon. cbn [negb].
    by rewrite (proj2 (Z.eqb_neq _ _) Hchain). }
  assert (Hswap : ∀ chw ca,
    build_swap_parameters config web3 chw ca quote_fn w = (Raise mismatch, w)).
  { intros chw ca. unfold build_swap_parameters. by rewrite bind_lift, Hany. }
  split; [apply Hswap|]. split.
  { unfold validate_swap_inputs. by rewrite bind_lift, Hany. }
  split.
  { unfold build_bridge_call. by rewrite bind_lift, Hany. }
  split.
  { unfold prepare_plan, bind at 1. by rewrite Hswap. }
  destruct (balance_of_coherent web3 token owner w Hw) as (w1 & -> & _). cbn [fst].
  unfold chain_balance, ensure_web3_connected. by rewrite Hon.
Qed.

(** ** Properties of validation labels and of plan preparation *)

Section label_facts.
Context `{Web3Lib}.

(** The symbol map answers with the last whitelisted token whose
    address has the given lower-case form. *)
Lemma address_symbol_map_lookup (tokens : list TokenConfig) (k : string) :
  foldl (λ m token, <[lower (address token) := symbol token]> m) (∅ : gmap string string)
        tokens !! k
  = symbol <$> last (filter (λ t, lower (address t) = k) tokens).
Proof.
  induction tokens as [|t tokens IH] using rev_ind; [done|].
  rewrite foldl_app, filter_app. cbn [foldl].
  destruct (decide (lower (address t) = k)) as [<-|Hne].
  - rewrite lookup_insert_eq. rewrite filter_cons_True by done.
    cbn [filter list_filter]. by rewrite last_snoc.
  - rewrite lookup_insert_ne by done. rewrite filter_cons_False by done.
    cbn [filter list_filter]. by rewrite app_nil_r.
Qed.

Lemma validate_token_symbol config web3 symbol_map results it w res w' :
  validate_token config web3 symbol_map results it w = (Ok res, w') →
  ∃ r, res = (results ++ [r])%list
    ∧ tv_symbol r = default "UNKNOWN" (symbol_map !! lower (tv_token_address r)).
Proof.
  destruct it as [[a n] t]. unfold validate_token.
  intros (b & w1 & _ & Hrun)%bind_ok.
  apply bind_ok in Hrun as (al & w2 & _ & Hrun).
  apply bind_ok in Hrun as (cs & w3 & _ & Hrun).
  destruct (b <? n); [discriminate|]. injection Hrun as <- _. eauto.
Qed.

Lemma validate_loop_symbol config web3 symbol_map its : ∀ results w res w',
  for_each (validate_token config web3 symbol_map) its results w = (Ok res, w') →
  ∃ new, res = (results ++ new)%list
    ∧ Forall (λ r, tv_symbol r
                   = default "UNKNOWN" (symbol_map !! lower (tv_token_address r))) new.
Proof.
  induction its as [|it its IH]; intros results w res w'; cbn [for_each].
  - intros [= <- <-]. exists []. by rewrite app_nil_r.
  - intros (r1 & w1 & Hstep & Hrun)%bind_ok.
    apply validate_token_symbol in Hstep as (r & -> & Hr).
    apply IH in Hrun as (new & -> & Hnew).
    exists (r :: new). rewrite <- app_assoc. split; [done|]. by constructor.
Qed.

Lemma validate_swap_inputs_ok config web3 input_tokens output_tokens executors w res w' :
  cache_coherent w web3 →
  validate_swap_inputs config web3 input_tokens output_tokens executors w = (Ok res, w') →
  Forall2 (validated_as config web3) input_tokens res.
Proof.
  intros Hw Hrun. unfold validate_swap_inputs in Hrun. rewrite bind_lift in Hrun.
  destruct (ensure_web3_connected _ _) as [[]|]; [|discriminate].
  destruct input_tokens as [|it its]; [discriminate|].
  destruct output_tokens as [|ot ots]; [discriminate|].
  destruct executors as [|ex exs]; [discriminate|].
  apply validate_loop_ok in Hrun as (new & Hnew & Hall); [|done].
  by rewrite Hnew.
Qed.

Lemma validate_bridge_call_ok config target nb nv bv :
  validate_bridge_call config target nb nv = Ok bv →
  (∃ canon, checksum target = Ok canon ∧ canon ≠ zero_address)
  ∧ bv = {| bv_call_target := target; native_balance := nb;
            required_native := nv + gas_buffer;
            has_sufficient_native := nv + gas_buffer <=? nb |}.
Proof.
  unfold validate_bridge_call.
  destruct (checksum target) as [canon|] eqn:Ec; [|discriminate]. cbn [rbind].
  destruct (String.eqb canon zero_address) eqn:Ez; [discriminate|].
  destruct (if negb _ then _ else _) as [[]|]; [|discriminate]. cbn [rbind].
  intros [= <-]. split; [|done]. exists canon. split; [done|].
  by apply String.eqb_neq.
Qed.

End label_facts.

(** X21: how validation names a token.  Each returned entry carries
    the symbol of the last whitelisted token whose address equals the
    entry's checksummed address up to letter case, and [UNKNOWN] when
    the whitelist has no such token. *)
Theorem validation_symbol_is_last_match `{Web3Lib} config web3 input_tokens output_tokens
    executors w res :
  fst (validate_swap_inputs config web3 input_tokens output_tokens executors w) = Ok res →
  Forall (λ r,
    tv_symbol r
    = default "UNKNOWN"
        (symbol <$> last (filter (λ t, lower (address t) = lower (tv_token_address r))
                                 (whitelisted_tokens (base_contracts config))))) res.
Proof.
  destruct (validate_swap_inputs _ _ _ _ _ w) as [r w'] eqn:Hrun. cbn [fst]. intros ->.
  unfold validate_swap_inputs in Hrun. rewrite bind_lift in Hrun.
  destruct (ensure_web3_connected _ _) as [[]|]; [|discriminate].
  destruct input_tokens as [|it its]; [discriminate|].
  destruct output_tokens as [|ot ots]; [discriminate|].
  destruct executors as [|ex exs]; [discriminate|].
  apply validate_loop_symbol in Hrun as (new & -> & Hall). cbn [app].
  eapply Forall_impl; [apply Hall|]. intros r ->. unfold _address_symbol_map.
  by rewrite address_symbol_map_lookup.
Qed.

(** X22: what a prepared plan guarantees.  With the handle cache
    bound to the connection, a plan that [prepare_plan] returns has
    executors that all passed the address check, one validation entry
    per input token read from the chain, a bridge leg built for the
    swap leg's aggregate minimum on top of the contract's settlement
    balance, a call target that is not the zero address, and a native
    requirement of the quoted value plus the gas buffer, compared with
    the signer's balance. *)
Theorem prepared_plan_consistent `{Web3Lib} chk get_balance config web3 signer
    quote_fn jumper_fn w p w' :
  cache_coherent w web3 →
  prepare_plan chk get_balance config web3 signer quote_fn jumper_fn w = (Ok p, w') →
  Forall (λ ex, chk ex.1.1 = true) (executors (swap p))
  ∧ Forall2 (validated_as config web3) (input_tokens (swap p)) (token_validations p)
  ∧ br_min_total_usdc (bridge p) = min_total_usdc (swap p)
  ∧ chain_balance web3 (usdc_address (base_contracts config))
      (revenue_bridger_address (base_contracts config))
    = Ok (contract_usdc_balance (bridge p))
  ∧ bridge_amount (bridge p) = contract_usdc_balance (bridge p) + min_total_usdc (swap p)
  ∧ call_target (bridge p) ≠ zero_address
  ∧ bv_call_target (bridge_validation p) = call_target (bridge p)
  ∧ get_balance web3 signer = Ok (native_balance (bridge_validation p))
  ∧ required_native (bridge_validation p) = native_value (bridge p) + 1000000000000000
  ∧ has_sufficient_native (bridge_validation p)
    = (native_value (bridge p) + 1000000000000000 <=? native_balance (bridge_validation p))
  ∧ cache_coherent w' web3.
Proof.
  intros Hw Hrun. unfold prepare_plan in Hrun.
  apply bind_ok in Hrun as (sw & w1 & Hswap & Hrun).
  rewrite bind_lift in Hrun.
  destruct (validate_executor_payloads chk _) as [[]|] eqn:Hex; [|discriminate].
  apply bind_ok in Hrun as (tv & w2 & Hval & Hrun).
  apply bind_ok in Hrun as (br & w3 & Hbr & Hrun).
  rewrite bind_lift in Hrun.
  destruct (get_balance web3 signer) as [nb|] eqn:Hnb; [|discriminate].
  rewrite bind_lift in Hrun.
  destruct (validate_bridge_call _ _ _ _) as [bv|] eqn:Hbv; [|discriminate].
  injection Hrun as <- <-. cbn [swap bridge token_validations bridge_validation].
  assert (Hw1 : cache_coherent w1 web3).
  { pose proof (keeps_build_swap_parameters web3 config
      (chwmper_address (base_contracts config))
      (revenue_bridger_address (base_contracts config)) quote_fn w Hw) as Hk.
    by rewrite Hswap in Hk. }
  assert (Hw2 : cache_coherent w2 web3).
  { pose proof (keeps_validate_swap_inputs web3 config (input_tokens sw) (output_tokens sw)
      (executors sw) w1 Hw1) as Hk. by rewrite Hval in Hk. }
  assert (Hw3 : cache_coherent w3 web3).
  { pose proof (keeps_build_bridge_call web3 config
      (revenue_bridger_address (base_contracts config)) (min_total_usdc sw) jumper_fn
      w2 Hw2) as Hk. by rewrite Hbr in Hk. }
  pose proof (build_bridge_call_ok config web3
    (revenue_bridger_address (base_contracts config)) (min_total_usdc sw) jumper_fn w2 br)
    as Hbuilt.
  rewrite Hbr in Hbuilt. specialize (Hbuilt eq_refl).
  destruct Hbuilt as [Hbal Hamt Hmin _ (tx & to & data & value & _ & _ & Hto & _)].
  destruct (balance_of_coherent web3 (usdc_address (base_contracts config))
              (revenue_bridger_address (base_contracts config)) w2 Hw2) as (w2' & Hb & _).
  rewrite Hb in Hbal. cbn [fst] in Hbal.
  apply validate_bridge_call_ok in Hbv as [(canon & Hcanon & Hnz) ->].
  cbn [bv_call_target native_balance required_native has_sufficient_native].
  assert (Hfix : checksum (call_target br) = Ok (call_target br)).
  { unfold checksum. by eapply to_checksum_address_fixed. }
  split.
  { by apply validate_planned_executors. }
  split; [eapply validate_swap_inputs_ok; [apply Hw1|apply Hval]|].
  split; [done|]. split; [done|]. split; [done|].
  split; [congruence|]. done.
Qed.

(** ** Properties of the swap leg with its default quote function *)

Section swap_default_facts.
Context `{Web3Lib}.
Context (config : RelayerConfig) (web3 : Web3).
Context (chwomper_address contract_address : string).
Context (quote_fn : RelayerConfig → QuoteRequest → result SushiQuoteResult).

Lemma swap_loop_unreadable tokens : ∀ st w,
  cache_coherent w web3 →
  Exists (λ t, is_ok (chain_balance web3 (address t) chwomper_address) = false) tokens →
  ∃ e w', for_each (swap_visit config web3 chwomper_address contract_address quote_fn)
            tokens st w = (Raise e, w').
Proof.
  intros st w Hw Hex. revert st w Hw.
  induction Hex as [t ts Ht|t ts _ IH]; intros st w Hw; cbn [for_each]; unfold bind at 1.
  - unfold swap_visit, bind at 1.
    destruct (balance_of_coherent web3 (address t) chwomper_address w Hw) as (w1 & -> & _).
    destruct (chain_balance _ _ _) as [b|e]; [discriminate|]. eauto.
  - pose proof (keeps_swap_visit web3 config chwomper_address contract_address quote_fn
                  st t w Hw) as Hw1.
    destruct (swap_visit _ _ _ _ _ st t w) as [[st1|e] w1]; [|by eauto]. by apply IH.
Qed.

Lemma request_swap_route_executor_fixed http_get web3_factory req q :
  request_swap_route http_get web3_factory config req = Ok q →
  checksum (sq_executor q) = Ok (sq_executor q).
Proof.
  intros (tx_data & hx & Hroute & _)%request_swap_route_ok.
  by eapply route_executor_checksummed.
Qed.

End swap_default_facts.

(** X23: a balance that cannot be read is not skipped.  If the
    balance read of some whitelisted token fails, the build raises;
    only failing quotes are passed over. *)
Theorem unreadable_balance_aborts_build `{Web3Lib} config web3 chwomper_address
    contract_address quote_fn w :
  cache_coherent w web3 →
  Exists (λ t, is_ok (chain_balance web3 (address t) chwomper_address) = false)
         (whitelisted_tokens (base_contracts config)) →
  ∃ e, fst (build_swap_parameters config web3 chwomper_address contract_address quote_fn w)
       = Raise e.
Proof.
  intros Hw Hex.
  assert (Hex' : Exists (λ t, is_ok (chain_balance web3 (address t) chwomper_address) = false)
                   (_iter_whitelisted_tokens (whitelisted_tokens (base_contracts config)))).
  { apply Exists_exists in Hex as (t & Hin & Ht). apply Exists_exists. exists t.
    split; [by rewrite iter_whitelisted_perm|done]. }
  unfold build_swap_parameters. rewrite bind_lift.
  destruct (ensure_web3_connected _ _) as [[]|e]; [|by eauto].
  destruct (_iter_whitelisted_tokens _) as [|t ts] eqn:Et; [by eauto|].
  destruct (swap_loop_unreadable config web3 chwomper_address contract_address quote_fn
              (t :: ts) swap_locals0 w Hw Hex') as (e & w1 & Hl).
  unfold bind. rewrite Hl. eauto.
Qed.

(** X24: the swap leg and the executor check fit together.  When the
    library's address test accepts every address that is its own
    checksummed form, the executors of a plan built with the route
    service as quote function always pass
    [validate_executor_payloads]. *)
Theorem routed_plan_passes_executor_check `{Web3Lib} (is_checksum_address : string → bool)
    http_get web3_factory config web3 chwomper_address contract_address w r :
  (∀ a, checksum a = Ok a → is_checksum_address a = true) →
  cache_coherent w web3 →
  fst (build_swap_parameters config web3 chwomper_address contract_address
         (request_swap_route http_get web3_factory) w) = Ok r →
  validate_executor_payloads is_checksum_address (executor_values (executors r)) = Ok ().
Proof.
  intros Hchk Hw.
  destruct (build_swap_parameters _ _ _ _ _ w) as [res w'] eqn:Hrun. cbn [fst]. intros ->.
  pose proof Hrun as (st0 & [_ Hexs _ _ _] & _ & Hr)%build_swap_parameters_ok.
  apply build_swap_parameters_loop in Hrun as (st & Hloop & Hq & _).
  apply swap_loop_coherent in Hloop as (_ & _ & new & Hnew & _ & Hall); [|done].
  cbn [swap_locals0 l_quotes_collected app] in Hnew.
  apply validate_planned_executors.
  assert (Hst : l_quotes_collected st0 = new).
  { rewrite <- Hnew, <- Hq, Hr. done. }
  rewrite Hr. cbn [executors]. rewrite Hexs, Hst, Forall_map.
  eapply Forall_impl; [apply Hall|]. intros q (_ & _ & sq & Hsq & _ & Hex & _).
  cbn [fst]. apply Hchk. rewrite Hex.
  by eapply request_swap_route_executor_fixed.
Qed.

(** * The scenarios, run on the model *)

Import fixtures.
#[local] Existing Instance stub_lib.

Lemma world0_coherent web3 : cache_coherent world0 web3.
Proof. intros a c. cbn. by rewrite lookup_empty. Defined.

Lemma world0_keyed : cache_keyed world0.
Proof. intros i a c. cbn. by rewrite lookup_empty. Defined.

Lemma C2_witness :
  fst (build_swap_parameters config_A node_A CHWMPER BRIDGER quote_A world0) = Ok plan_A
  ∧ output_tokens plan_A = [(USDC, BRIDGER, 1960000)]
  ∧ min_total_usdc plan_A = sum_ints (map min_usdc_out (token_quotes plan_A)).
Proof.
  assert (Hrun : fst (build_swap_parameters config_A node_A CHWMPER BRIDGER quote_A world0)
                 = Ok plan_A) by (vm_compute; reflexivity).
  split; [exact Hrun|].
  destruct (C2_output_token_pools_minimums _ _ _ _ _ _ _ Hrun) as (H1 & H2 & _).
  split; [exact H1|exact H2].
Defined.

Lemma C3_witness :
  cache_coherent world0 node_C
  ∧ fst (build_bridge_call config_A node_C BRIDGER 1960000 jumper_ok world0) = Ok bridge_C
  ∧ contract_usdc_balance bridge_C = 500
  ∧ br_min_total_usdc bridge_C = 1960000
  ∧ bridge_amount bridge_C = 500 + 1960000.
Proof.
  assert (Hrun : fst (build_bridge_call config_A node_C BRIDGER 1960000 jumper_ok world0)
                 = Ok bridge_C) by (vm_compute; reflexivity).
  split; [apply world0_coherent|]. split; [exact Hrun|].
  destruct (C3_bridge_amount_is_balance_plus_minimum config_A node_C BRIDGER 1960000
              jumper_ok world0 (world0_coherent node_C)) as [Hbuilt _].
  destruct (Hbuilt bridge_C Hrun) as (_ & Hmin & Ham & _).
  split; [reflexivity|]. split; [exact Hmin|exact Ham].
Defined.

Lemma C4_witness :
  fst (build_swap_parameters config_A node_A CHWMPER BRIDGER quote_A world0) = Ok plan_A
  ∧ List.length (input_tokens plan_A) = List.length (executors plan_A)
  ∧ ∃ q, token_quotes plan_A !! 0%nat = Some q
      ∧ (WETH, 1000, EXECUTOR_A) = (token_address q, balance q, executor q)
      ∧ (EXECUTOR_A, 0, [x12; x34]) = (executor q, 0, executor_data q).
Proof.
  assert (Hrun : fst (build_swap_parameters config_A node_A CHWMPER BRIDGER quote_A world0)
                 = Ok plan_A) by (vm_compute; reflexivity).
  split; [exact Hrun|].
  destruct (C4_inputs_and_executors_aligned _ _ _ _ _ _ _ Hrun) as (Hlen & Hal).
  split; [exact Hlen|].
  destruct (Hal 0%nat (WETH, 1000, EXECUTOR_A) (EXECUTOR_A, 0, [x12; x34]) eq_refl eq_refl)
    as (q & Hq & Hit & Hex & _).
  exists q. split; [exact Hq|]. split; [exact Hit|exact Hex].
Defined.

Lemma C5_witness :
  route_executor "0x01abcd" = Ok (addr "A", "abcd")
  ∧ route_executor "0x02abcd" = Ok (addr "C", "abcd")
  ∧ route_executor "0x04abcd" = Raise single_failed
  ∧ exc_class single_failed = ValueError.
Proof.
  split; [|split].
  - destruct (C5_route_decode_fallback "0x01abcd") as (Hfirst & _).
    refine (proj1 (Hfirst multi_01 first_01 [second_01] _ _)); vm_compute; reflexivity.
  - destruct (C5_route_decode_fallback "0x02abcd") as (_ & _ & _ & Hfall & _).
    rewrite (Hfall multi_failed); vm_compute; reflexivity.
  - destruct (C5_route_decode_fallback "0x04abcd") as (_ & _ & _ & _ & Hboth & _).
    refine (Hboth multi_failed single_failed _ _); vm_compute; reflexivity.
Defined.

Lemma C6_witness :
  cache_coherent world0 conn_1
  ∧ fst (validate_swap_inputs config_A conn_1 inputs_ok outputs_A executors_A world0)
    = Ok [validation_ok]
  ∧ has_allowance validation_ok = false
  ∧ ∃ e, fst (validate_swap_inputs config_A conn_1 inputs_short outputs_A executors_A world0)
         = Raise e.
Proof.
  assert (Hrun : fst (validate_swap_inputs config_A conn_1 inputs_ok outputs_A executors_A world0)
                 = Ok [validation_ok]) by (vm_compute; reflexivity).
  split; [apply world0_coherent|]. split; [exact Hrun|]. split.
  - destruct (C6_swap_input_validation config_A conn_1 inputs_ok outputs_A executors_A world0
                (world0_coherent conn_1)) as (Hok & _).
    pose proof (Hok _ Hrun) as Hall.
    apply Forall2_cons_1 in Hall as [[_ Hflag] _].
    apply Hflag. vm_compute. reflexivity.
  - destruct (C6_swap_input_validation config_A conn_1 inputs_short outputs_A executors_A world0
                (world0_coherent conn_1)) as (_ & Hshort & _).
    apply (Hshort (DEGEN, 1001, EXECUTOR_A) 1000).
    + apply list_elem_of_further, list_elem_of_here.
    + vm_compute. reflexivity.
    + vm_compute. reflexivity.
Defined.

Lemma bridge_call_validation_scenario_D :
  checksum zero_address = Ok zero_address
  ∧ validate_bridge_call config_A zero_address 0 0
    = Raise (Exc ValueError "callTarget is zero address")
  ∧ ∃ r, fst (build_bridge_call config_A node_C BRIDGER 1960000 jumper_zero world0) = Ok r
         ∧ call_target r = zero_address ∧ native_value r = 0.
Proof.
  assert (Hcs : checksum zero_address = Ok zero_address) by (vm_compute; reflexivity).
  split; [exact Hcs|].
  destruct (bridge_call_validation_within_float_range config_A zero_address zero_address 0 0
              Hcs) as (Hval & Hbuild & _).
  { right. split; vm_compute; reflexivity. }
  split; [exact Hval|].
  apply (Hbuild node_C BRIDGER 1960000 jumper_zero world0 500 (envelope zero_address "0x0")
           {| tx_to := Some (VStr zero_address); tx_data := Some (VStr "0xdeadbeef");
              tx_value := Some (VStr "0x0") |}
           (VStr zero_address) (VStr "0xdeadbeef") (VStr "0x0") [xde; xad; xbe; xef] 0);
    vm_compute; reflexivity.
Defined.

Lemma C8_witness :
  cache_coherent world0 node_B
  ∧ Forall (token_skipped config_B node_B CHWMPER BRIDGER quote_B) [weth; degen]
  ∧ ∃ w', build_swap_parameters config_B node_B CHWMPER BRIDGER quote_B world0
          = (Raise (Exc ValueError "No eligible tokens to swap after applying thresholds"), w').
Proof.
  assert (Hskip : Forall (token_skipped config_B node_B CHWMPER BRIDGER quote_B) [weth; degen]).
  { repeat constructor.
    - exists 0. split; [vm_compute; reflexivity|]. left. reflexivity.
    - exists 5000. split; [vm_compute; reflexivity|]. right. right.
      split; [discriminate|]. eexists. split; [reflexivity|]. vm_compute. reflexivity. }
  split; [apply world0_coherent|]. split; [exact Hskip|].
  destruct (C8_skips_and_empty_outcomes config_B node_B CHWMPER BRIDGER quote_B world0
              (world0_coherent node_B)) as (_ & _ & _ & _ & Hnone & _).
  apply Hnone; [discriminate|reflexivity|exact Hskip].
Defined.

(** C9 as the spec words it fails on the code: two connection objects
    built for the same endpoint and chain have different identities,
    so the second does not get the first one's handle; the cache ends
    up with one entry per object, under keys that start with the
    object identities 1 and 2. *)
Lemma C9_counterexample :
  provider_url conn_1 = provider_url conn_2
  ∧ eth_chain_id conn_1 = eth_chain_id conn_2
  ∧ _get_or_create_contract conn_1 WETH world0 = (Ok handle_1, world_1)
  ∧ _get_or_create_contract conn_2 WETH world_1 = (Ok handle_2, world_12)
  ∧ handle_2 ≠ handle_1
  ∧ _CONTRACT_CACHE world_12 !! (obj_id conn_1, WETH) = Some handle_1
  ∧ _CONTRACT_CACHE world_12 !! (obj_id conn_2, WETH) = Some handle_2.
Proof.
  repeat split; try (vm_compute; reflexivity).
  intros Heq. apply (f_equal (λ c, obj_id (contract_w3 c))) in Heq. discriminate.
Qed.

Lemma C9_witness :
  cache_keyed world0
  ∧ _get_or_create_contract conn_1 WETH world0 = (Ok handle_1, world_1)
  ∧ cache_keyed world_1
  ∧ obj_id (contract_w3 handle_1) = obj_id conn_1.
Proof.
  assert (Hrun : _get_or_create_contract conn_1 WETH world0 = (Ok handle_1, world_1))
    by (vm_compute; reflexivity).
  split; [apply world0_keyed|]. split; [exact Hrun|].
  destruct (C9_cache_keyed_by_object_identity conn_1 WETH world0 handle_1 world_1
              world0_keyed Hrun) as (Hk & Hid & _).
  split; [exact Hk|exact Hid].
Defined.

(** C10 as the spec words it fails on the code: an envelope whose
    value is the literal [-0x1] is accepted, and the bridge call that
    comes back has nativeValue -1. *)
Lemma C10_counterexample :
  fst (build_bridge_call config_A node_C BRIDGER 1960000 jumper_negative world0)
  = Ok bridge_negative
  ∧ native_value bridge_negative = -1
  ∧ ¬ 0 <= native_value bridge_negative.
Proof.
  split; [vm_compute; reflexivity|]. split; [reflexivity|]. cbn. lia.
Qed.

Lemma C10_witness :
  fst (build_bridge_call config_A node_C BRIDGER 1960000 jumper_ok world0) = Ok bridge_C
  ∧ literal_has_minus (VStr "0x2386f26fc10000") = false
  ∧ 0 <= native_value bridge_C.
Proof.
  assert (Hrun : fst (build_bridge_call config_A node_C BRIDGER 1960000 jumper_ok world0)
                 = Ok bridge_C) by (vm_compute; reflexivity).
  split; [exact Hrun|]. split; [reflexivity|].
  destruct (C10_native_value_follows_literal_sign _ _ _ _ _ _ _ Hrun)
    as (tx & value & Htx & Hv & _ & Hpos & _).
  apply Hpos. injection Htx as <-. injection Hv as <-. reflexivity.
Defined.

Lemma X2_witness :
  apply_discount 2000000 tol_098 = Ok 1960000
  ∧ 1960000 <= 1960000 <= 1960000 + 1
  ∧ 1960000 <= 2000000.
Proof.
  assert (Hrun : apply_discount 2000000 tol_098 = Ok 1960000) by (vm_compute; reflexivity).
  split; [exact Hrun|].
  destruct (apply_discount_floor_or_one_more 2000000 tol_098 1960000) as (H1 & _ & H3 & _).
  - lia.
  - reflexivity.
  - simpl; lia.
  - unfold Etiny, Emin, prec; simpl; lia.
  - exact Hrun.
  - split; [exact H1|]. apply H3. unfold at_most_one. simpl. lia.
Defined.

Lemma X3_witness :
  ∃ err, apply_discount 20000000000000000000000000000 tol_099 = Raise err
         ∧ (exc_class err = InvalidOperation ∨ exc_class err = Overflow).
Proof.
  apply (apply_discount_rejects_29_digits 20000000000000000000000000000 tol_099).
  - lia.
  - reflexivity.
  - simpl; lia.
  - unfold Etiny, Emin, prec; simpl; lia.
  - apply Z.leb_le. vm_compute. reflexivity.
Defined.

Lemma X4_witness :
  fst (build_swap_parameters config_A node_A CHWMPER BRIDGER quote_A world0) = Ok plan_A
  ∧ 0 <= min_total_usdc plan_A <= assumed_total_usdc plan_A.
Proof.
  assert (Hrun : fst (build_swap_parameters config_A node_A CHWMPER BRIDGER quote_A world0)
                 = Ok plan_A) by (vm_compute; reflexivity).
  split; [exact Hrun|].
  refine (proj2 (plan_minimums_bounded config_A node_A CHWMPER BRIDGER quote_A world0 plan_A
                   Hrun _ _ _)).
  - simpl; lia.
  - unfold tolerance_in_range, at_most_one. simpl. lia.
  - unfold Etiny, Emin, prec; simpl; lia.
Defined.

Lemma X5_witness :
  fst (build_swap_parameters config_A node_A CHWMPER BRIDGER quote_A world0) = Ok plan_A
  ∧ map quote_token (token_quotes plan_A)
    = List.filter (eligible config_A node_A CHWMPER BRIDGER quote_A)
        (_iter_whitelisted_tokens (whitelisted_tokens (base_contracts config_A))).
Proof.
  assert (Hrun : fst (build_swap_parameters config_A node_A CHWMPER BRIDGER quote_A world0)
                 = Ok plan_A) by (vm_compute; reflexivity).
  split; [exact Hrun|].
  exact (proj1 (plan_holds_the_eligible_tokens config_A node_A CHWMPER BRIDGER quote_A
                  world0 plan_A (world0_coherent node_A) Hrun)).
Defined.

Lemma X6_witness :
  ∃ w', build_swap_parameters config_A node_A CHWMPER BRIDGER quote_A world0 = (Ok plan_A, w')
        ∧ calls w'
          = [CallBalanceOf WETH CHWMPER;
             CallQuote {| qr_token_in := WETH; qr_token_out := USDC;
                          qr_amount_in_wei := 1000; qr_sender := BRIDGER;
                          qr_recipient := Some BRIDGER |}].
Proof.
  assert (Hfst : fst (build_swap_parameters config_A node_A CHWMPER BRIDGER quote_A world0)
                 = Ok plan_A) by (vm_compute; reflexivity).
  destruct (build_swap_parameters config_A node_A CHWMPER BRIDGER quote_A world0)
    as [r w'] eqn:Hrun.
  simpl in Hfst. subst r. exists w'. split; [reflexivity|].
  rewrite (plan_calls_once_per_token config_A node_A CHWMPER BRIDGER quote_A world0 plan_A w'
             (world0_coherent node_A) Hrun).
  vm_compute. reflexivity.
Defined.

Lemma X7_witness :
  ∃ e, fst (build_swap_parameters config_big node_A CHWMPER BRIDGER quote_huge world0)
       = Raise e.
Proof.
  apply (oversized_quote_aborts_build config_big node_A CHWMPER BRIDGER quote_huge world0).
  - apply world0_coherent.
  - reflexivity.
  - simpl; lia.
  - unfold Etiny, Emin, prec; simpl; lia.
  - apply Exists_cons_hd.
    exists 1000, {| sq_executor := EXECUTOR_A; sq_executor_data := [x12; x34];
                    sq_chain_id := 8453; sq_recipient := BRIDGER;
                    sq_amount_in := 1000;
                    sq_assumed_amount_out := 20000000000000000000000000000;
                    sq_block_number := 100 |}.
    split; [vm_compute; reflexivity|]. split; [lia|]. split; [reflexivity|].
    split; [simpl; lia|]. apply Z.leb_le. vm_compute. reflexivity.
Defined.

Lemma X9_witness :
  _normalize_tokens tokens_listed = Ok tokens_loaded
  ∧ map symbol tokens_loaded = ["0"; "1"]
  ∧ Forall (λ t, checksum (address t) = Ok (address t)) tokens_loaded.
Proof.
  assert (Hrun : _normalize_tokens tokens_listed = Ok tokens_loaded)
    by (vm_compute; reflexivity).
  split; [exact Hrun|].
  destruct (normalize_tokens_checksummed tokens_listed tokens_loaded Hrun)
    as (_ & Hfix & Hsym & _).
  split; [exact Hsym|exact Hfix].
Defined.

Lemma X10_witness :
  _normalize_tokens tokens_bad
  = Raise (ExcFrom ConfigError "Invalid address for whitelisted token BAD: 0x12"
             (Exc ValueError "Unknown format"))
  ∧ exc_class (ExcFrom ConfigError "Invalid address for whitelisted token BAD: 0x12"
                 (Exc ValueError "Unknown format")) = ConfigError.
Proof.
  assert (Hrun : _normalize_tokens tokens_bad
                 = Raise (ExcFrom ConfigError "Invalid address for whitelisted token BAD: 0x12"
                            (Exc ValueError "Unknown format")))
    by (vm_compute; reflexivity).
  split; [exact Hrun|].
  exact (proj1 (normalize_tokens_failures tokens_bad _ Hrun)).
Defined.

Lemma X12_witness :
  validate_executor_payloads stub_is_checksum executors_bad
  = Raise (Exc ValueError ("Executor #2 has invalid address: " +:+ addr "b"))
  ∧ ∃ i ex,
      executors_bad !! i = Some ex
      ∧ Forall (λ ex, stub_is_checksum ex.1.1 = true ∧ ∃ b, ex.2 = VBytes b)
               (take i executors_bad)
      ∧ ((stub_is_checksum ex.1.1 = false
          ∧ Exc ValueError ("Executor #2 has invalid address: " +:+ addr "b")
            = Exc ValueError ("Executor #" +:+ pretty (S i)
                              +:+ " has invalid address: " +:+ ex.1.1))
         ∨ (stub_is_checksum ex.1.1 = true
            ∧ (∀ b, ex.2 ≠ VBytes b)
            ∧ Exc ValueError ("Executor #2 has invalid address: " +:+ addr "b")
              = Exc TypeError ("Executor #" +:+ pretty (S i)
                               +:+ " data must be bytes-like"))).
Proof.
  assert (Hrun : validate_executor_payloads stub_is_checksum executors_bad
                 = Raise (Exc ValueError ("Executor #2 has invalid address: " +:+ addr "b")))
    by (vm_compute; reflexivity).
  split; [exact Hrun|].
  exact (executor_payloads_first_offender stub_is_checksum executors_bad _ Hrun).
Defined.

Lemma X13_witness :
  request_swap_route sushi_ok factory_A config_A (quote_request config_A BRIDGER weth 1000)
  = Ok route_quote_A
  ∧ checksum (sq_executor route_quote_A) = Ok (sq_executor route_quote_A)
  ∧ sq_chain_id route_quote_A = 8453.
Proof.
  assert (Hrun : request_swap_route sushi_ok factory_A config_A
                   (quote_request config_A BRIDGER weth 1000) = Ok route_quote_A)
    by (vm_compute; reflexivity).
  split; [exact Hrun|].
  destruct (route_quote_checksummed sushi_ok factory_A config_A _ route_quote_A Hrun)
    as (H1 & _ & _ & H4 & _).
  split; [exact H1|exact H4].
Defined.


Lemma X15_witness :
  get_jumper_transaction lifi_ok factory_A (AbiEntries 3) (λ _ _, Ok decode_ok) config_A
    {| jr_amount := 1961000; jr_from_address := BRIDGER; jr_to_address := RECIPIENT |}
  = Ok jumper_decoded
  ∧ ∃ r2,
      get_jumper_transaction lifi_ok factory_A (AbiEntries 3) (λ _ _, Ok decode_failing)
        config_A
        {| jr_amount := 1961000; jr_from_address := BRIDGER; jr_to_address := RECIPIENT |}
      = Ok r2
      ∧ jt_transaction r2 = tx_lifi.
Proof.
  assert (Hrun : get_jumper_transaction lifi_ok factory_A (AbiEntries 3)
                   (λ _ _, Ok decode_ok) config_A
                   {| jr_amount := 1961000; jr_from_address := BRIDGER;
                      jr_to_address := RECIPIENT |} = Ok jumper_decoded)
    by (vm_compute; reflexivity).
  split; [exact Hrun|].
  destruct (jumper_decode_is_diagnostic lifi_ok factory_A (AbiEntries 3) decode_ok
              decode_failing config_A _ jumper_decoded Hrun) as (r2 & H2 & _ & Htx & _).
  exists r2. split; [exact H2|exact Htx].
Defined.

Lemma X16_witness :
  default_jumper_fn lifi_ok factory_A (AbiEntries 3) (λ _ _, Ok decode_ok) config_A
    {| jr_amount := 1961000; jr_from_address := BRIDGER; jr_to_address := RECIPIENT |}
  = Ok (jumper_details jumper_decoded)
  ∧ ∃ tx, jd_transaction (jumper_details jumper_decoded) = Some tx
      ∧ ∃ to target, tx_to tx = Some to ∧ to_checksum_address to = Ok target.
Proof.
  assert (Hrun : default_jumper_fn lifi_ok factory_A (AbiEntries 3) (λ _ _, Ok decode_ok)
                   config_A
                   {| jr_amount := 1961000; jr_from_address := BRIDGER;
                      jr_to_address := RECIPIENT |} = Ok (jumper_details jumper_decoded))
    by (vm_compute; reflexivity).
  split; [exact Hrun|].
  destruct (default_quote_envelope_checked _ _ _ _ _ _ _ Hrun)
    as (tx & to & target & data & rpc & H1 & H2 & H3 & _).
  exists tx. split; [exact H1|]. exists to, target. split; [exact H2|exact H3].
Defined.

Lemma X18_witness :
  ∃ m w', snapshot_balances node_B [("WETH", WETH); ("DEGEN", DEGEN)] CHWMPER world0
          = (Ok m, w')
     ∧ m !! "USDC" = None
     ∧ ∃ b, chain_balance node_B DEGEN CHWMPER = Ok b ∧ m !! "DEGEN" = Some b.
Proof.
  assert (Hok : is_ok (fst (snapshot_balances node_B [("WETH", WETH); ("DEGEN", DEGEN)]
                              CHWMPER world0)) = true) by (vm_compute; reflexivity).
  destruct (snapshot_balances node_B [("WETH", WETH); ("DEGEN", DEGEN)] CHWMPER world0)
    as [[m|e] w'] eqn:Hrun; [|discriminate Hok].
  exists m, w'. split; [reflexivity|].
  assert (Hnd : NoDup [("WETH", WETH); ("DEGEN", DEGEN)].*1).
  { apply (bool_decide_unpack _). vm_compute. exact I. }
  destruct (snapshot_balances_reads_chain node_B [("WETH", WETH); ("DEGEN", DEGEN)] CHWMPER
              world0 m w' (world0_coherent node_B) Hnd Hrun) as [Hall Hout].
  split.
  - apply Hout. apply (bool_decide_unpack _). vm_compute. exact I.
  - apply Forall_cons in Hall as [_ Hall]. apply Forall_cons in Hall as [Hd _]. exact Hd.
Defined.

Lemma X19_witness :
  is_connected node_off = false
  ∧ prepare_plan stub_is_checksum signer_balance config_A node_off RECIPIENT quote_A jumper_ok
      world0
    = (Raise (Exc ConnectionError "Failed to connect to the configured RPC endpoint"), world0).
Proof.
  split; [reflexivity|].
  destruct (offline_node_touches_nothing node_off config_A stub_is_checksum signer_balance
              RECIPIENT quote_A jumper_ok WETH CHWMPER BRIDGER CHWMPER BRIDGER 0
              inputs_ok outputs_A executors_A [("WETH", WETH)] world0 eq_refl)
    as (_ & _ & _ & _ & _ & Hplan & _).
  exact Hplan.
Defined.

Lemma X20_witness :
  is_connected node_mainnet = true
  ∧ eth_chain_id node_mainnet ≠ chain_id (base_chain config_A)
  ∧ fst (build_swap_parameters config_A node_mainnet CHWMPER BRIDGER quote_A world0)
    = Raise (Exc ValueError "RPC chain ID mismatch: expected 8453, got 1")
  ∧ fst (balance_of node_mainnet WETH CHWMPER world0) = Ok 1000.
Proof.
  assert (Hne : eth_chain_id node_mainnet ≠ chain_id (base_chain config_A))
    by (simpl; lia).
  split; [reflexivity|]. split; [exact Hne|].
  destruct (wrong_chain_stops_builders node_mainnet config_A stub_is_checksum signer_balance
              RECIPIENT quote_A jumper_ok WETH CHWMPER CHWMPER BRIDGER 0
              inputs_ok outputs_A executors_A world0 eq_refl Hne
              (world0_coherent node_mainnet)) as (Hswap & _ & _ & _ & Hbal).
  split.
  - rewrite Hswap. vm_compute. reflexivity.
  - rewrite Hbal. vm_compute. reflexivity.
Defined.

Lemma X21_witness :
  fst (validate_swap_inputs config_A node_A inputs_ok outputs_A executors_A world0)
  = Ok [validation_ok]
  ∧ tv_symbol validation_ok = "WETH".
Proof.
  assert (Hrun : fst (validate_swap_inputs config_A node_A inputs_ok outputs_A executors_A
                        world0) = Ok [validation_ok]) by (vm_compute; reflexivity).
  split; [exact Hrun|].
  pose proof (validation_symbol_is_last_match config_A node_A inputs_ok outputs_A executors_A
                world0 [validation_ok] Hrun) as Hall.
  apply Forall_cons in Hall as [Hsym _]. rewrite Hsym. vm_compute. reflexivity.
Defined.

Lemma X22_witness :
  ∃ p w',
    prepare_plan stub_is_checksum signer_balance config_A node_A RECIPIENT quote_checked
      jumper_ok world0 = (Ok p, w')
    ∧ bridge_amount (bridge p) = contract_usdc_balance (bridge p) + min_total_usdc (swap p)
    ∧ call_target (bridge p) ≠ zero_address
    ∧ required_native (bridge_validation p) = native_value (bridge p) + 1000000000000000.
Proof.
  assert (Hok : is_ok (fst (prepare_plan stub_is_checksum signer_balance config_A node_A
                              RECIPIENT quote_checked jumper_ok world0)) = true)
    by (vm_compute; reflexivity).
  destruct (prepare_plan stub_is_checksum signer_balance config_A node_A RECIPIENT
              quote_checked jumper_ok world0) as [[p|e] w'] eqn:Hrun; [|discriminate Hok].
  exists p, w'. split; [reflexivity|].
  destruct (prepared_plan_consistent stub_is_checksum signer_balance config_A node_A RECIPIENT
              quote_checked jumper_ok world0 p w' (world0_coherent node_A) Hrun)
    as (_ & _ & _ & _ & Hamt & Hnz & _ & _ & Hreq & _).
  split; [exact Hamt|]. split; [exact Hnz|exact Hreq].
Defined.

Lemma X23_witness :
  ∃ e, fst (build_swap_parameters config_A node_reverting CHWMPER BRIDGER quote_A world0)
       = Raise e.
Proof.
  apply (unreadable_balance_aborts_build config_A node_reverting CHWMPER BRIDGER quote_A
           world0 (world0_coherent node_reverting)).
  apply Exists_cons_hd. vm_compute. reflexivity.
Defined.

Lemma X24_witness :
  ∃ r, fst (build_swap_parameters config_A node_A CHWMPER BRIDGER
              (request_swap_route sushi_ok factory_A) world0) = Ok r
       ∧ validate_executor_payloads stub_is_checksum (executor_values (executors r)) = Ok ().
Proof.
  assert (Hok : is_ok (fst (build_swap_parameters config_A node_A CHWMPER BRIDGER
                              (request_swap_route sushi_ok factory_A) world0)) = true)
    by (vm_compute; reflexivity).
  destruct (fst (build_swap_parameters config_A node_A CHWMPER BRIDGER
                   (request_swap_route sushi_ok factory_A) world0)) as [r|e] eqn:Hrun;
    [|discriminate Hok].
  exists r. split; [reflexivity|].
  apply (routed_plan_passes_executor_check stub_is_checksum sushi_ok factory_A config_A node_A
           CHWMPER BRIDGER world0 r).
  - intros a Ha. unfold stub_is_checksum.
    change (stub_checksum (VStr a) = Ok a) in Ha. rewrite Ha. apply String.eqb_refl.
  - apply world0_coherent.
  - exact Hrun.
Defined.
